(** * Drupal ACR pipeline: a shallow embedding and its checked properties

    The four batch stages of the repository (Collector, Summarizer,
    Aggregator, Renderer) are modelled from their JavaScript sources.

    Strings are Rocq strings whose characters are read as UTF-16 code units
    below 256.  Object literals used as lookup tables are association lists
    searched on their own keys; where a table is read at a key taken from
    the input (the three tables of the Renderer) the members it inherits
    from Object.prototype are modelled too.  A Map is an association list
    in insertion order.  Network traffic, timers and the clock are a state threaded
    through a small monad with exceptions; the regular-expression engine of
    the scraper and the collation of the host are parameters.

    The models come first, stage by stage; the properties follow, in
    modules named after the models. *)

From Stdlib Require Import String Ascii List ZArith Bool Lia Arith.
From Stdlib Require Import Sorting.Sorted Sorting.Permutation DecimalString.
Import ListNotations.
Open Scope string_scope.

(* ===================================================================== *)
(** * JavaScript primitives used by every stage *)
(* ===================================================================== *)

Module JS.

(** Truthiness of a string: only the empty string is falsy. *)
Definition truthy (s : string) : bool :=
  match s with EmptyString => false | String _ _ => true end.

(** [a || d] on a possibly undefined string. *)
Definition orElse (a : option string) (d : string) : string :=
  match a with
  | Some s => if truthy s then s else d
  | None => d
  end.

(** [Array.prototype.includes] on an array of strings. *)
Definition includes (l : list string) (x : string) : bool :=
  existsb (String.eqb x) l.

(** Own-property lookup [table[key]] in an object literal. *)
Fixpoint lookup (key : string) (table : list (string * string)) : option string :=
  match table with
  | [] => None
  | (k, v) :: rest => if String.eqb k key then Some v else lookup key rest
  end.

(** [String.prototype.slice(n)] for [n] within bounds or beyond. *)
Fixpoint slice (n : nat) (s : string) : string :=
  match n, s with
  | O, _ => s
  | S _, EmptyString => EmptyString
  | S k, String _ t => slice k t
  end.

(** [String.prototype.startsWith]. *)
Definition startsWith (s p : string) : bool := String.prefix p s.

(** White space of the regular-expression class [\s] and of
    [String.prototype.trim], among code units below 256: tab, line feed,
    vertical tab, form feed, carriage return, space, no-break space. *)
Definition isSpace (c : ascii) : bool :=
  let n := nat_of_ascii c in
  Nat.eqb n 9 || Nat.eqb n 10 || Nat.eqb n 11 || Nat.eqb n 12 || Nat.eqb n 13
  || Nat.eqb n 32 || Nat.eqb n 160.

Fixpoint trimStart (s : string) : string :=
  match s with
  | EmptyString => EmptyString
  | String c t => if isSpace c then trimStart t else s
  end.

Fixpoint trimEnd (s : string) : string :=
  match s with
  | EmptyString => EmptyString
  | String c t =>
    match trimEnd t with
    | EmptyString => if isSpace c then EmptyString else String c EmptyString
    | t' => String c t'
    end
  end.

(** [String.prototype.trim]. *)
Definition trim (s : string) : string := trimEnd (trimStart s).

Definition dquote : ascii := ascii_of_nat 34.
Definition comma : ascii := ascii_of_nat 44.
Definition lineFeed : ascii := ascii_of_nat 10.
Definition carriageReturn : ascii := ascii_of_nat 13.

(** [String.prototype.split] on a one-character separator; [cur] is the
    piece being read. *)
Fixpoint splitFrom (sep : ascii) (s cur : string) : list string :=
  match s with
  | EmptyString => [cur]
  | String c t =>
    if Ascii.eqb c sep then cur :: splitFrom sep t EmptyString
    else splitFrom sep t (cur ++ String c EmptyString)
  end.

Definition split (sep : ascii) (s : string) : list string :=
  splitFrom sep s EmptyString.

(** [s.replace(/c/g, r)] for a one-character pattern. *)
Fixpoint replaceChar (c : ascii) (r s : string) : string :=
  match s with
  | EmptyString => EmptyString
  | String a t =>
    if Ascii.eqb a c then r ++ replaceChar c r t else String a (replaceChar c r t)
  end.

(** [String.prototype.includes] for a one-character needle. *)
Fixpoint hasChar (c : ascii) (s : string) : bool :=
  match s with
  | EmptyString => false
  | String a t => Ascii.eqb a c || hasChar c t
  end.

(** [String.prototype.includes]. *)
Fixpoint includesStr (s needle : string) : bool :=
  String.prefix needle s
  || match s with
     | EmptyString => false
     | String _ t => includesStr t needle
     end.

(** Truthiness of a possibly undefined string. *)
Definition truthyOpt (o : option string) : bool :=
  match o with Some s => truthy s | None => false end.

(** A possibly undefined value used as text: in a template literal or as
    a property key, undefined reads as the text undefined. *)
Definition keyOf (a : option string) : string :=
  match a with Some s => s | None => "undefined" end.

(** A thrown exception: the constructor name and the message. *)
Record error := mkError { errorName : string; message : string }.

(** How a call ends: it returns a value or throws. *)
Inductive outcome (T : Type) :=
| Done (v : T)
| Threw (e : error).
Arguments Done {T} v.
Arguments Threw {T} e.

End JS.

(* ===================================================================== *)
(** * Labelled sections: the regular expressions of the two AI stages *)
(* ===================================================================== *)

Module Regex.
Import JS.

(** The text after the leftmost occurrence of a literal label: where a
    regular expression that starts with the label begins to match. *)
Fixpoint afterLabel (label text : string) : option string :=
  if String.prefix label text then Some (slice (String.length label) text)
  else match text with
       | EmptyString => None
       | String _ t => afterLabel label t
       end.

(** The lazy group [(.*?)] under flag [s], extended one character at a
    time until the lookahead for the next label, or the end of input,
    holds. *)
Fixpoint lazyUntil (next text : string) : string :=
  if String.prefix next text then EmptyString
  else match text with
       | EmptyString => EmptyString
       | String c t => String c (lazyUntil next t)
       end.

(** Capture group 1 of [/LABEL\s*(.*?)(?=NEXT|$)/s], or of
    [/LABEL\s*(.*?)$/s] when there is no next label; [None] when
    [String.prototype.match] returns null.  The greedy [\s*] takes the
    whole run of white space: the rest of the pattern can always match, so
    the engine never gives any of it back. *)
Definition matchSection (label : string) (next : option string)
    (responseText : string) : option string :=
  match afterLabel label responseText with
  | None => None
  | Some rest =>
    let body := trimStart rest in
    Some (match next with
          | Some n => lazyUntil n body
          | None => body
          end)
  end.

(** The field read off a match: group 1 trimmed, or the placeholder when
    there is no match. *)
Definition fieldOf (m : option string) (placeholder : string) : string :=
  match m with
  | Some group => trim group
  | None => placeholder
  end.

End Regex.

(* ===================================================================== *)
(** * The world outside: network, timers, clock *)
(* ===================================================================== *)

Module Runtime.
Import JS.

(** What reading the AI reply gives: [response.json()] followed by the
    reads [data.candidates[0].content.parts[0].text]. *)
Inductive payload :=
| ReadThrows (e : error)
| NoCandidate
| CandidateText (responseText : string).

Record response := mkResponse {
  status : nat;
  statusText : string;
  setCookie : option string;
  text : string;
  json : payload
}.

(** [response.ok]. *)
Definition ok (r : response) : bool :=
  Nat.leb 200 (status r) && Nat.ltb (status r) 300.

(** How one request ends: a response of any status, or a rejection
    (connection failure, abort on timeout). *)
Inductive fetched :=
| Responded (r : response)
| Rejected (e : error).

(** One awaited delay of [fixedMs + Math.random() * randomMs]
    milliseconds. *)
Record pause := mkPause { fixedMs : Z; randomMs : Z }.

(** The state a stage runs in.  [net] tells how the n-th request of the
    run ends and [clock] what the n-th reading of the time returns;
    [requestCount] and [sessionCookies] are the Collector's two module-level
    variables. *)
Record world := mkWorld {
  net : nat -> fetched;
  sent : nat;
  pauses : list pause;
  clock : nat -> string;
  ticks : nat;
  requestCount : nat;
  sessionCookies : string
}.

(** Computations that read and change the world and may throw. *)
Definition M (T : Type) : Type := world -> outcome T * world.

Definition ret {T} (v : T) : M T := fun w => (Done v, w).

Definition throw {T} (e : error) : M T := fun w => (Threw e, w).

Definition bind {T U} (c : M T) (k : T -> M U) : M U :=
  fun w =>
    match c w with
    | (Done v, w') => k v w'
    | (Threw e, w') => (Threw e, w')
    end.

(** [try { c } catch (error) { handler }]: what [c] did to the world before
    it threw stays done. *)
Definition tryCatch {T} (c : M T) (handler : error -> M T) : M T :=
  fun w =>
    match c w with
    | (Done v, w') => (Done v, w')
    | (Threw e, w') => handler e w'
    end.

Declare Scope js_scope.
Delimit Scope js_scope with js.
Notation "x <- c1 ;; c2" := (bind c1 (fun x => c2))
  (at level 61, c1 at next level, right associativity) : js_scope.
Notation "c1 ;; c2" := (bind c1 (fun _ => c2))
  (at level 61, right associativity) : js_scope.

(** [await delay(ms)]. *)
Definition delay (p : pause) : M unit :=
  fun w =>
    (Done tt,
     mkWorld (net w) (sent w) (pauses w ++ [p])%list (clock w) (ticks w)
       (requestCount w) (sessionCookies w)).

(** One request on the wire. *)
Definition request : M response :=
  fun w =>
    let w' := mkWorld (net w) (S (sent w)) (pauses w) (clock w) (ticks w)
                (requestCount w) (sessionCookies w) in
    match net w (sent w) with
    | Responded r => (Done r, w')
    | Rejected e => (Threw e, w')
    end.

(** [new Date().toISOString()]. *)
Definition now : M string :=
  fun w =>
    (Done (clock w (ticks w)),
     mkWorld (net w) (sent w) (pauses w) (clock w) (S (ticks w))
       (requestCount w) (sessionCookies w)).

(** How a loop body ends: the function returns, or the loop goes on. *)
Inductive flow (T : Type) :=
| Return (v : T)
| Continue.
Arguments Return {T} v.
Arguments Continue {T}.

(** The attempt numbers of [for (attempt = 1; attempt <= retries; attempt++)]. *)
Definition attempts (retries : nat) : list nat := seq 1 retries.

(** Decimal text of a number, as a template literal prints it. *)
Definition decimal (n : nat) : string := NilEmpty.string_of_uint (Nat.to_uint n).

End Runtime.

(* ===================================================================== *)
(** * The CSV reader and writer shared by Summarizer and Aggregator *)
(* ===================================================================== *)

Module Csv.
Import JS.

(** A parsed row: the object built by assigning [row[header] = value] for
    each header in turn; a repeated header keeps its place and takes the
    later value. *)
Definition row := list (string * string).

Fixpoint setProp (key value : string) (obj : row) : row :=
  match obj with
  | [] => [(key, value)]
  | (k, v) :: rest =>
    if String.eqb k key then (k, value) :: rest
    else (k, v) :: setProp key value rest
  end.

(** parseCSVLine: the character loop with its three pieces of state. *)
Fixpoint parseCSVLine_loop (line : string) (values : list string)
    (current : string) (inQuotes : bool) : list string :=
  match line with
  | EmptyString => (values ++ [trim current])%list
  | String char rest =>
    if Ascii.eqb char dquote then
      match inQuotes, rest with
      | true, String next rest' =>
        if Ascii.eqb next dquote
        then parseCSVLine_loop rest' values (current ++ String dquote EmptyString)
               inQuotes
        else parseCSVLine_loop rest values current (negb inQuotes)
      | _, _ => parseCSVLine_loop rest values current (negb inQuotes)
      end
    else if Ascii.eqb char comma && negb inQuotes then
      parseCSVLine_loop rest (values ++ [trim current])%list EmptyString inQuotes
    else parseCSVLine_loop rest values (current ++ String char EmptyString) inQuotes
  end.

Definition parseCSVLine (line : string) : list string :=
  parseCSVLine_loop line [] EmptyString false.

(** The lines kept by [csvContent.split('\n').filter(line => line.trim())]. *)
Definition nonBlankLines (csvContent : string) : list string :=
  filter (fun line => truthy (trim line)) (split lineFeed csvContent).

(** The header names: a plain split on commas, quotes removed, trimmed. *)
Definition headerFields (header : string) : list string :=
  map (fun h => trim (replaceChar dquote EmptyString h)) (split comma header).

(** The object filled by [headers.forEach]; it runs only when both arrays
    have the same length, so index [i] pairs header [i] with value [i]. *)
Definition mkRow (headers values : list string) : row :=
  fold_left (fun obj hv => setProp (fst hv) (snd hv) obj) (combine headers values) [].

(** The loop over the lines after the header. *)
Fixpoint parseCSV_loop (headers : list string) (lines : list string)
    (rows : list row) : list row :=
  match lines with
  | [] => rows
  | line :: rest =>
    let values := parseCSVLine line in
    if Nat.eqb (List.length values) (List.length headers)
    then parseCSV_loop headers rest (rows ++ [mkRow headers values])%list
    else parseCSV_loop headers rest rows
  end.

(** parseCSV.  With no non-blank line, [lines[0]] is undefined and the
    call of [split] on it throws. *)
Definition parseCSV (csvContent : string) : outcome (list row) :=
  match nonBlankLines csvContent with
  | [] => Threw (mkError "TypeError"
                   "Cannot read properties of undefined (reading 'split')")
  | header :: dataLines =>
    Done (parseCSV_loop (headerFields header) dataLines [])
  end.

(** escapeCSV on a string field. *)
Definition escapeCSV (field : string) : string :=
  if hasChar dquote field || hasChar comma field || hasChar lineFeed field
     || hasChar carriageReturn field
  then String dquote
         (replaceChar dquote (String dquote (String dquote EmptyString)) field
          ++ String dquote EmptyString)
  else field.

(** One written line: [row.join(',') + '\n'] over escaped fields. *)
Definition writeLine (fields : list string) : string :=
  String.concat "," (map escapeCSV fields) ++ String lineFeed EmptyString.

End Csv.

(* ===================================================================== *)
(** * Collector: requests and the parse of a search-results page *)
(* ===================================================================== *)

Module Collector.
Import JS Runtime.
Open Scope js_scope.

Definition toolFingerprints : list string :=
  [ "curl/8.7.1"; "curl/8.6.0"; "Wget/1.21.3"; "Wget/1.21.1"; "curl/8.5.0" ].

(** getCurrentFingerprint followed by [requestCount++]. *)
Definition nextFingerprint : M string :=
  fun w =>
    (Done (nth (requestCount w mod List.length toolFingerprints) toolFingerprints
             "undefined"),
     mkWorld (net w) (sent w) (pauses w) (clock w) (ticks w)
       (S (requestCount w)) (sessionCookies w)).

Definition semicolon : ascii := ascii_of_nat 59.

(** The session cookie kept from a [set-cookie] header. *)
Definition storeCookies (r : response) : M unit :=
  fun w =>
    match setCookie r with
    | Some c =>
      if truthy c then
        (Done tt,
         mkWorld (net w) (sent w) (pauses w) (clock w) (ticks w) (requestCount w)
           (String.concat "; "
              (map (fun c => hd EmptyString (split semicolon c)) (split comma c))))
      else (Done tt, w)
    | None => (Done tt, w)
    end.

(** [controller.signal = newController.signal].  The file is an ES module,
    so it runs in strict mode; [signal] is an accessor of AbortController
    with a getter only, and assigning to it throws. *)
Definition assignSignal : M unit :=
  throw (mkError "TypeError"
           "Cannot set property signal of #<AbortController> which has only a getter").

(** [timeoutId = newTimeoutId].  [timeoutId] is declared with [const]:
    assigning to it throws. *)
Definition assignTimeoutId : M unit :=
  throw (mkError "TypeError" "Assignment to constant variable.").

(** The retry loop of fetchWithTimeout over the attempts still to make. *)
Fixpoint fetchWithTimeout_loop (todo : list nat) (retries : nat)
    : M (option response) :=
  match todo with
  | [] => ret None
  | attempt :: rest =>
    step <-
      tryCatch
        (delay (mkPause 1000 2000) ;;
         response <- request ;;
         storeCookies response ;;
         ret (Return (Some response)))
        (fun error =>
           if Nat.eqb attempt retries then throw error
           else
             delay (mkPause (Z.of_nat attempt * 5000) 3000) ;;
             assignSignal ;;
             assignTimeoutId ;;
             ret Continue) ;;
    match step with
    | Return v => ret v
    | Continue => fetchWithTimeout_loop rest retries
    end
  end.

(** fetchWithTimeout(url, options, timeoutMs, retries).  The address, the
    headers and the abort timer do not steer the control flow; how each
    request ends is told by the world. *)
Definition fetchWithTimeout (url : string) (timeoutMs : Z) (retries : nat)
    : M (option response) :=
  _ <- nextFingerprint ;;
  fetchWithTimeout_loop (attempts retries) retries.

(** The four structural patterns of parseIssuesFromHTML, in array order. *)
Inductive pattern :=
| ProjectIssueLink
| NodeLink
| FullUrlLink
| SearchResultTitle.

Definition issuePatterns : list pattern :=
  [ ProjectIssueLink; NodeLink; FullUrlLink; SearchResultTitle ].

Record issue := mkIssue {
  wcagCriteria : string;
  issueId : string;
  title : string;
  url : string;
  project : string;
  extractedAt : string
}.

(** [s.replace(/pat/g, rep)] for a literal, non-empty pattern: matches are
    taken left to right and do not overlap; [skip] counts the characters of
    a match still to pass. *)
Fixpoint replaceAll_from (pat rep : string) (skip : nat) (s : string) : string :=
  match s with
  | EmptyString => EmptyString
  | String c t =>
    match skip with
    | S k => replaceAll_from pat rep k t
    | O =>
      if String.prefix pat s
      then rep ++ replaceAll_from pat rep (String.length pat - 1) t
      else String c (replaceAll_from pat rep 0 t)
    end
  end.

Definition replaceAll (pat rep s : string) : string := replaceAll_from pat rep 0 s.

(** [s.replace(/\s+/g, ' ')]. *)
Fixpoint collapseSpaces (inRun : bool) (s : string) : string :=
  match s with
  | EmptyString => EmptyString
  | String c t =>
    if isSpace c then
      if inRun then collapseSpaces true t else String " " (collapseSpaces true t)
    else String c (collapseSpaces false t)
  end.

Definition cleanTitle (title : string) : string :=
  trim (collapseSpaces false
          (replaceAll "&#39;" "'"
             (replaceAll "&quot;" (String dquote EmptyString)
                (replaceAll "&gt;" ">"
                   (replaceAll "&lt;" "<" (replaceAll "&amp;" "&" title)))))).

(** The destructuring of a match array: its length tells the layout. *)
Record captures := mkCaptures {
  capUrl : option string;
  capProject : option string;
  capIssueId : option string;
  capTitle : option string
}.

Section Parse.

(** The regular-expression engine: [exec p html] lists the match arrays
    that the successive calls [pattern.exec(html)] return before null. *)
Variable exec : pattern -> string -> list (list string).

(** Group 1 of [url.match(/\/project\/([^\/]+)\//)], if it matches. *)
Variable projectOfUrl : string -> option string.

(** [clock n] is what [new Date().toISOString()] gives at the n-th read. *)
Variable clock : nat -> string.

Definition destructure (m : list string) : captures :=
  match m with
  | [_; url; project; issueId; title] =>
    mkCaptures (Some url) (Some project) (Some issueId) (Some title)
  | [_; url; issueId; title] =>
    mkCaptures (Some url)
      (Some (match projectOfUrl url with Some p => p | None => "unknown" end))
      (Some issueId) (Some title)
  | _ => mkCaptures None None None None
  end.

(** The body of the while loop for one match; the state is the set
    foundIssues and the array issues. *)
Definition onMatch (wcagCriteria : string) (st : list string * list issue)
    (m : list string) : list string * list issue :=
  let '(foundIssues, issues) := st in
  let c := destructure m in
  if negb (truthyOpt (capIssueId c)) || negb (truthyOpt (capTitle c)) then st
  else
    let issueId := keyOf (capIssueId c) in
    if includes foundIssues issueId then st
    else
      let url := keyOf (capUrl c) in
      let fullUrl :=
        if startsWith url "http" then url else "https://www.drupal.org" ++ url in
      ((foundIssues ++ [issueId])%list,
       (issues
        ++ [mkIssue wcagCriteria issueId (cleanTitle (keyOf (capTitle c))) fullUrl
              (orElse (capProject c) "unknown") (clock (List.length issues))])%list).

(** parseIssuesFromHTML: the for loop over the patterns, each with its
    while loop.  On a string no step of the try block throws, so the catch
    block that returns the empty array is not entered; the pass over
    JSON-LD scripts that follows the loops changes nothing. *)
Definition parseIssuesFromHTML (html wcagCriteria : string) : list issue :=
  snd (fold_left
         (fun st p => fold_left (onMatch wcagCriteria) (exec p html) st)
         issuePatterns ([], [])).

End Parse.

End Collector.

(* ===================================================================== *)
(** * Collector: one criterion, from the search page to its records *)
(* ===================================================================== *)

Module CollectorRun.
Import JS Runtime Csv Collector.
Open Scope js_scope.

Definition slash : ascii := ascii_of_nat 47.

(** The characters the dot of a regular expression without flag s
    refuses, among code units below 256: line feed and carriage return. *)
Definition isLineTerminator (c : ascii) : bool :=
  Ascii.eqb c lineFeed || Ascii.eqb c carriageReturn.

(** The lazy group [(.*?)] followed by a literal, tried at the head of
    [text]: the shortest run of characters other than line terminators
    that the literal follows. *)
Fixpoint lazyDot (closing text : string) : option string :=
  if String.prefix closing text then Some EmptyString
  else match text with
       | EmptyString => None
       | String c t =>
         if isLineTerminator c then None
         else match lazyDot closing t with
              | Some g => Some (String c g)
              | None => None
              end
       end.

(** Group 1 of [text.match(/OPENING(.*?)CLOSING/)] for two literals: the
    engine tries each start position from the left. *)
Fixpoint matchBetween (opening closing text : string) : option string :=
  match (if String.prefix opening text
         then lazyDot closing (slice (String.length opening) text)
         else None) with
  | Some g => Some g
  | None =>
    match text with
    | EmptyString => None
    | String _ t => matchBetween opening closing t
    end
  end.

Definition isDigit (c : ascii) : bool :=
  Nat.leb 48 (nat_of_ascii c) && Nat.leb (nat_of_ascii c) 57.

Fixpoint allDigits (s : string) : bool :=
  match s with
  | EmptyString => true
  | String c t => isDigit c && allDigits t
  end.

(** Group 1 of [url.match(/\/(\d+)$/)]: the digits after a slash that
    run to the end of the text. *)
Fixpoint issueIdMatch (url : string) : option string :=
  match url with
  | EmptyString => None
  | String c t =>
    if Ascii.eqb c slash && truthy t && allDigits t then Some t
    else issueIdMatch t
  end.

(** The characters before the first slash, when there is one. *)
Fixpoint beforeSlash (text : string) : option string :=
  match text with
  | EmptyString => None
  | String c t =>
    if Ascii.eqb c slash then Some EmptyString
    else match beforeSlash t with
         | Some g => Some (String c g)
         | None => None
         end
  end.

(** Group 1 of [url.match(/\/project\/([^\/]+)\//)]: a non-empty run
    without slash between [/project/] and the next slash. *)
Fixpoint projectMatch (url : string) : option string :=
  match (if String.prefix "/project/" url
         then match beforeSlash (slice 9 url) with
              | Some g => if truthy g then Some g else None
              | None => None
              end
         else None) with
  | Some g => Some g
  | None =>
    match url with
    | EmptyString => None
    | String _ t => projectMatch t
    end
  end.

(** [String.prototype.split] on a literal, non-empty separator; [skip]
    counts the characters of a separator still to pass. *)
Fixpoint splitOn_from (sep : string) (skip : nat) (s cur : string) : list string :=
  match s with
  | EmptyString => [cur]
  | String c t =>
    match skip with
    | S k => splitOn_from sep k t cur
    | O =>
      if String.prefix sep s
      then cur :: splitOn_from sep (String.length sep - 1) t EmptyString
      else splitOn_from sep 0 t (cur ++ String c EmptyString)
    end
  end.

Definition splitOn (sep s : string) : list string :=
  splitOn_from sep 0 s EmptyString.

(** The ten properties fetchEnhancedMetadata adds to an issue. *)
Module Meta.
Record t := mk {
  status : string;
  priority : string;
  component : string;
  version : string;
  reporter : string;
  created : string;
  updated : string;
  comments : string;
  hasFork : string;
  lastCommenter : string
}.
End Meta.

(** An issue as extractIssuesFromCriteria returns it: the parsed record,
    the name and level of its criterion, and the page metadata when the
    issue page was read. *)
Record collected := mkCollected {
  basic : issue;
  wcagCriteriaName : string;
  conformanceLevel : string;
  enhanced : option Meta.t
}.

(** getRetryDelay, in minutes. *)
Definition getRetryDelay (attemptNumber : nat) : Z :=
  match attemptNumber with
  | 1 => 2%Z
  | 2 => 5%Z
  | 3 => 20%Z
  | _ => 30%Z
  end.

(** The value of a call of fetchWithTimeout whose property is read next:
    reading a property of undefined throws. *)
Definition received (r : option response) : M response :=
  match r with
  | Some response => ret response
  | None =>
    throw (mkError "TypeError" "Cannot read properties of undefined (reading 'ok')")
  end.

(** A for-of loop that pushes one result per element. *)
Fixpoint mapM {S T : Type} (f : S -> M T) (l : list S) : M (list T) :=
  match l with
  | [] => ret []
  | x :: rest => y <- f x ;; ys <- mapM f rest ;; ret (y :: ys)
  end.

(** The callback of [items.forEach] in parseIssuesFromRSS: the records it
    pushes for one item, none or one. *)
Definition rssItem (wcagCriteria criteriaName conformanceLevel item : string)
    : M (list collected) :=
  match matchBetween "<title>" "</title>" item,
        matchBetween "<link>" "</link>" item with
  | Some titleGroup, Some url =>
    let title :=
      replaceAll "&quot;" (String dquote EmptyString)
        (replaceAll "&gt;" ">"
           (replaceAll "&lt;" "<" (replaceAll "&amp;" "&" titleGroup))) in
    let issueId := match issueIdMatch url with Some g => g | None => EmptyString end in
    let project := match projectMatch url with Some g => g | None => "unknown" end in
    if truthy issueId then
      extractedAt <- now ;;
      ret [ mkCollected (mkIssue wcagCriteria issueId title url project extractedAt)
              criteriaName conformanceLevel None ]
    else ret []
  | _, _ => ret []
  end.

(** parseIssuesFromRSS.  On a string no step of the try block throws. *)
Definition parseIssuesFromRSS (rssText wcagCriteria criteriaName conformanceLevel : string)
    : M (list collected) :=
  if negb (includesStr rssText "<rss") then ret []
  else
    pushed <- mapM (rssItem wcagCriteria criteriaName conformanceLevel)
                (tl (splitOn "<item>" rssText)) ;;
    ret (concat pushed).

Section Run.

(** The regular-expression engine on the four patterns of the search
    page, as in the parse, and the reading of the ten fields off an issue
    page; neither throws on a string. *)
Variable exec : pattern -> string -> list (list string).
Variable scrape : string -> Meta.t.

(** parseIssuesFromHTML with the time read off the world, once per record
    it builds. *)
Definition parseHTML (html wcagCriteria : string) : M (list issue) :=
  fun w =>
    let issues :=
      parseIssuesFromHTML exec projectMatch (fun n => clock w (ticks w + n))
        html wcagCriteria in
    (Done issues,
     mkWorld (net w) (sent w) (pauses w) (clock w) (ticks w + List.length issues)
       (requestCount w) (sessionCookies w)).

(** fetchEnhancedMetadata: the issue, and the metadata when its page was
    read. *)
Definition fetchEnhancedMetadata (i : issue) : M (issue * option Meta.t) :=
  tryCatch
    (r <- fetchWithTimeout (url i) 15000 2 ;;
     response <- received r ;;
     if negb (ok response) then ret (i, None)
     else
       let html := text response in
       delay (mkPause 500 500) ;;
       ret (i, Some (scrape html)))
    (fun _ => ret (i, None)).

Definition searchUrl (wcagCriteria : string) : string :=
  "https://www.drupal.org/project/issues/search?status%5BOpen%5D=Open&issue_tags="
  ++ wcagCriteria.

Definition rssUrl (wcagCriteria : string) : string :=
  "https://www.drupal.org/project/issues/search/rss?status%5B0%5D=Open&issue_tags_op=%3D&issue_tags="
  ++ wcagCriteria.

(** The body of extractIssuesFromCriteria; [again] stands for the call of
    the function on itself.  The body of a reply that arrived is taken as
    readable, and the dump of the page written when DEBUG_HTML is set is
    left out. *)
Definition extractBody (again : nat -> M (list collected))
    (wcagCriteria criteriaName conformanceLevel : string) (attemptNumber : nat)
    : M (list collected) :=
  tryCatch
    (r <- fetchWithTimeout (searchUrl wcagCriteria) 25000 3 ;;
     response <- received r ;;
     if negb (ok response) then
       if Nat.eqb (status response) 403 then
         r' <- fetchWithTimeout (rssUrl wcagCriteria) 20000 2 ;;
         rssResponse <- received r' ;;
         if ok rssResponse then
           parseIssuesFromRSS (text rssResponse) wcagCriteria criteriaName
             conformanceLevel
         else if Nat.leb attemptNumber 3 then
           delay (mkPause (getRetryDelay attemptNumber * 60 * 1000) 0) ;;
           again (S attemptNumber)
         else ret []
       else ret []
     else
       basicIssues <- parseHTML (text response) wcagCriteria ;;
       if Nat.ltb 0 (List.length basicIssues) then
         issues <- mapM fetchEnhancedMetadata basicIssues ;;
         ret (map (fun e => mkCollected (fst e) criteriaName conformanceLevel (snd e))
                issues)
       else ret [])
    (fun _ => ret []).

(** The recursion of extractIssuesFromCriteria: [fuel] bounds the depth of
    the calls of the function on itself. *)
Fixpoint extractIssues_fuel (fuel : nat)
    (wcagCriteria criteriaName conformanceLevel : string) (attemptNumber : nat)
    : M (list collected) :=
  extractBody
    (fun next =>
       match fuel with
       | O => ret []
       | S fuel' =>
         extractIssues_fuel fuel' wcagCriteria criteriaName conformanceLevel next
       end)
    wcagCriteria criteriaName conformanceLevel attemptNumber.

(** extractIssuesFromCriteria: the function calls itself while
    [attemptNumber <= 3], each time one higher, so [4 - attemptNumber]
    nested calls are all it can make. *)
Definition extractIssuesFromCriteria
    (wcagCriteria criteriaName conformanceLevel : string) (attemptNumber : nat)
    : M (list collected) :=
  extractIssues_fuel (4 - attemptNumber) wcagCriteria criteriaName conformanceLevel
    attemptNumber.

End Run.

(** An optional property of a record, as [issue.status || ''] reads it. *)
Definition metaOr (field : Meta.t -> string) (c : collected) (default : string)
    : string :=
  orElse (option_map field (enhanced c)) default.

Definition detailedHeaders : list string :=
  [ "WCAG SC"; "Issue ID"; "Issue Title"; "Issue URL"; "Project"; "Status";
    "Priority"; "Component"; "Version"; "Reporter"; "Created"; "Updated";
    "Comments"; "Has Fork"; "Last Commenter"; "Extracted At" ].

(** The fields of one line of the detailed report, before escaping. *)
Definition detailedRow (c : collected) : list string :=
  [ Collector.wcagCriteria (basic c); issueId (basic c); title (basic c);
    url (basic c); project (basic c);
    metaOr Meta.status c EmptyString; metaOr Meta.priority c EmptyString;
    metaOr Meta.component c EmptyString; metaOr Meta.version c EmptyString;
    metaOr Meta.reporter c EmptyString; metaOr Meta.created c EmptyString;
    metaOr Meta.updated c EmptyString; metaOr Meta.comments c "0";
    metaOr Meta.hasFork c "No"; metaOr Meta.lastCommenter c EmptyString;
    extractedAt (basic c) ].

Section Report.

(** [a.localeCompare(b)]: the collation of the host. *)
Variable localeCompare : string -> string -> Z.

(** The comparator of [allIssues.sort]: by criterion, then by project. *)
Definition compareIssues (a b : collected) : Z :=
  if negb (String.eqb (Collector.wcagCriteria (basic a))
             (Collector.wcagCriteria (basic b)))
  then localeCompare (Collector.wcagCriteria (basic a))
         (Collector.wcagCriteria (basic b))
  else localeCompare (project (basic a)) (project (basic b)).

(** [Array.prototype.sort] is stable: each record, in array order, goes
    after the records not greater than it. *)
Fixpoint insertIssue (c : collected) (sorted : list collected) : list collected :=
  match sorted with
  | [] => [c]
  | x :: rest =>
    if (compareIssues x c <=? 0)%Z then x :: insertIssue c rest
    else c :: x :: rest
  end.

Definition sortIssues (allIssues : list collected) : list collected :=
  fold_left (fun sorted c => insertIssue c sorted) allIssues [].

(** generateDetailedCSV: the text it hands to [fs.writeFileSync]. *)
Definition generateDetailedCSV (allIssues : list collected) : string :=
  String.concat "," detailedHeaders ++ String lineFeed EmptyString
  ++ String.concat EmptyString
       (map (fun c => writeLine (detailedRow c)) (sortIssues allIssues)).

End Report.

(** The table of success criteria the Collector walks through. *)
Module Table.
Record entry := mk { code : string; name : string; level : string }.

Definition wcagCriteria : list entry :=
  [ mk "wcag111" "Non-text Content" "Level A";
    mk "wcag121" "Audio-only and Video-only (Prerecorded)" "Level A";
    mk "wcag122" "Captions (Prerecorded)" "Level A";
    mk "wcag123" "Audio Description or Media Alternative (Prerecorded)"
      "Level A";
    mk "wcag131" "Info and Relationships" "Level A";
    mk "wcag132" "Meaningful Sequence" "Level A";
    mk "wcag133" "Sensory Characteristics" "Level A";
    mk "wcag141" "Use of Color" "Level A";
    mk "wcag142" "Audio Control" "Level A";
    mk "wcag211" "Keyboard" "Level A";
    mk "wcag212" "No Keyboard Trap" "Level A";
    mk "wcag221" "Timing Adjustable" "Level A";
    mk "wcag222" "Pause, Stop, Hide" "Level A";
    mk "wcag241" "Bypass Blocks" "Level A";
    mk "wcag242" "Page Titled" "Level A";
    mk "wcag243" "Focus Order" "Level A";
    mk "wcag244" "Link Purpose (In Context)" "Level A";
    mk "wcag311" "Language of Page" "Level A";
    mk "wcag321" "On Focus" "Level A";
    mk "wcag322" "On Input" "Level A";
    mk "wcag331" "Error Identification" "Level A";
    mk "wcag332" "Labels or Instructions" "Level A";
    mk "wcag411" "Parsing" "Level A";
    mk "wcag412" "Name, Role, Value" "Level A";
    mk "wcag124" "Captions (Live)" "Level AA";
    mk "wcag125" "Audio Description (Prerecorded)" "Level AA";
    mk "wcag134" "Orientation" "Level AA";
    mk "wcag135" "Identify Input Purpose" "Level AA";
    mk "wcag143" "Contrast (Minimum)" "Level AA";
    mk "wcag144" "Resize Text" "Level AA";
    mk "wcag145" "Images of Text" "Level AA";
    mk "wcag1410" "Reflow" "Level AA";
    mk "wcag1411" "Non-text Contrast" "Level AA";
    mk "wcag1412" "Text Spacing" "Level AA";
    mk "wcag1413" "Content on Hover or Focus" "Level AA";
    mk "wcag214" "Character Key Shortcuts" "Level AA";
    mk "wcag245" "Multiple Ways" "Level AA";
    mk "wcag246" "Headings and Labels" "Level AA";
    mk "wcag247" "Focus Visible" "Level AA";
    mk "wcag2411" "Focus Not Obscured (Minimum)" "Level AA";
    mk "wcag251" "Pointer Gestures" "Level AA";
    mk "wcag252" "Pointer Cancellation" "Level AA";
    mk "wcag253" "Label in Name" "Level AA";
    mk "wcag254" "Motion Actuation" "Level AA";
    mk "wcag257" "Dragging Movements" "Level AA";
    mk "wcag258" "Target Size (Minimum)" "Level AA";
    mk "wcag312" "Language of Parts" "Level AA";
    mk "wcag323" "Consistent Navigation" "Level AA";
    mk "wcag324" "Consistent Identification" "Level AA";
    mk "wcag333" "Error Suggestion" "Level AA";
    mk "wcag334" "Error Prevention (Legal, Financial, Data)" "Level AA";
    mk "wcag413" "Status Messages" "Level AA";
    mk "wcag126" "Sign Language (Prerecorded)" "Level AAA";
    mk "wcag127" "Extended Audio Description (Prerecorded)" "Level AAA";
    mk "wcag128" "Media Alternative (Prerecorded)" "Level AAA";
    mk "wcag129" "Audio-only (Live)" "Level AAA";
    mk "wcag136" "Identify Purpose" "Level AAA";
    mk "wcag146" "Contrast (Enhanced)" "Level AAA";
    mk "wcag147" "Low or No Background Audio" "Level AAA";
    mk "wcag148" "Visual Presentation" "Level AAA";
    mk "wcag149" "Images of Text (No Exception)" "Level AAA";
    mk "wcag213" "No Timing" "Level AAA";
    mk "wcag223" "No Timing" "Level AAA";
    mk "wcag224" "Interruptions" "Level AAA";
    mk "wcag225" "Re-authenticating" "Level AAA";
    mk "wcag226" "Timeouts" "Level AAA";
    mk "wcag231" "Three Flashes or Below Threshold" "Level AAA";
    mk "wcag232" "Three Flashes" "Level AAA";
    mk "wcag233" "Animation from Interactions" "Level AAA";
    mk "wcag248" "Location" "Level AAA";
    mk "wcag249" "Link Purpose (Link Only)" "Level AAA";
    mk "wcag2410" "Section Headings" "Level AAA";
    mk "wcag2412" "Focus Not Obscured (Enhanced)" "Level AAA";
    mk "wcag255" "Target Size (Enhanced)" "Level AAA";
    mk "wcag256" "Concurrent Input Mechanisms" "Level AAA";
    mk "wcag313" "Unusual Words" "Level AAA";
    mk "wcag314" "Abbreviations" "Level AAA";
    mk "wcag315" "Reading Level" "Level AAA";
    mk "wcag316" "Pronunciation" "Level AAA";
    mk "wcag325" "Change on Request" "Level AAA";
    mk "wcag335" "Help" "Level AAA";
    mk "wcag336" "Error Prevention (All)" "Level AAA" ].
End Table.

(** The four variables of the main loop. *)
Record tally := mkTally {
  allIssues : list collected;
  processedCount : nat;
  successCount : nat;
  blockedCount : nat
}.

(** A for loop that carries a state. *)
Fixpoint foldM {S T : Type} (body : S -> T -> M S) (l : list T) (st : S) : M S :=
  match l with
  | [] => ret st
  | x :: rest => st' <- body st x ;; foldM body rest st'
  end.

Section Main.

Variable exec : pattern -> string -> list (list string).
Variable scrape : string -> Meta.t.

(** The visit to the home page before the loop. *)
Definition warmUp : M unit :=
  tryCatch
    (r <- fetchWithTimeout "https://www.drupal.org/" 10000 1 ;;
     homeResponse <- received r ;;
     if ok homeResponse then delay (mkPause 2000 0) else ret tt)
    (fun _ => ret tt).

(** The body of the loop for the criterion at index [i] of [total]. *)
Definition criteriaStep (total : nat) (st : tally) (indexed : nat * Table.entry)
    : M tally :=
  let '(i, criteria) := indexed in
  st' <-
    tryCatch
      (issues <-
         extractIssuesFromCriteria exec scrape (Table.code criteria)
           (Table.name criteria) (Table.level criteria) 1 ;;
       ret (if Nat.ltb 0 (List.length issues)
            then mkTally (allIssues st ++ issues)%list (S (processedCount st))
                   (S (successCount st)) (blockedCount st)
            else mkTally (allIssues st) (S (processedCount st)) (successCount st)
                   (blockedCount st)))
      (fun _ =>
         ret (mkTally (allIssues st) (processedCount st) (successCount st)
                (S (blockedCount st)))) ;;
  (if Nat.ltb i (total - 1) then
     delay (mkPause (Z.max (15000 - Z.of_nat (successCount st') * 1000) 5000) 5000) ;;
     (if Nat.ltb 0 (successCount st') && Nat.eqb (successCount st' mod 5) 0
      then delay (mkPause 10000 10000)
      else ret tt)
   else ret tt) ;;
  ret st'.

(** The loop over a table of criteria. *)
Definition runCriteria (table : list Table.entry) : M tally :=
  foldM (criteriaStep (List.length table))
    (combine (seq 0 (List.length table)) table) (mkTally [] 0 0 0).

(** generateDetailedIssuesList, up to the four variables at the end of
    the loop; the report is written from allIssues after it. *)
Definition generateDetailedIssuesList : M tally :=
  warmUp ;;
  runCriteria Table.wcagCriteria.

End Main.

End CollectorRun.

(* ===================================================================== *)
(** * Summarizer: the four labelled sections of the AI response *)
(* ===================================================================== *)

Module Summarizer.
Import JS Regex Runtime.
Open Scope js_scope.

(** What generateSummaries returns; the object built in its catch block
    has no wcagAssessment. *)
Record summaries := mkSummaries {
  acrNote : string;
  developerNote : string;
  titleAssessment : string;
  wcagAssessment : option string
}.

(** The part of generateSummaries that takes the response text to the four
    fields. *)
Definition parseResponseText (responseText : string) : summaries :=
  let acrMatch := matchSection "ACR_NOTE:" (Some "DEVELOPER_NOTE:") responseText in
  let devMatch :=
    matchSection "DEVELOPER_NOTE:" (Some "TITLE_ASSESSMENT:") responseText in
  let titleMatch :=
    matchSection "TITLE_ASSESSMENT:" (Some "WCAG_ASSESSMENT:") responseText in
  let wcagMatch := matchSection "WCAG_ASSESSMENT:" None responseText in
  mkSummaries
    (fieldOf acrMatch "Unable to generate ACR note")
    (fieldOf devMatch "Unable to generate developer note")
    (fieldOf titleMatch "Unable to assess title")
    (Some (fieldOf wcagMatch "Unable to assess WCAG classification")).

(** What the host makes of the address handed to fetchWithRetry:
    [new URL(url)] throws on a text that is no absolute address, and
    [https.request] throws on an address with another protocol than
    https. *)
Inductive address :=
| Unparsable
| Unsupported (protocol : string)
| Reachable.

Definition quoted (s : string) : string :=
  String dquote (s ++ String dquote EmptyString).

(** The error thrown instead of making the request, if any. *)
Definition refusal (target : address) : option error :=
  match target with
  | Unparsable => Some (mkError "TypeError" "Invalid URL")
  | Unsupported protocol =>
    Some (mkError "TypeError"
            ("Protocol " ++ quoted protocol ++ " not supported. Expected "
             ++ quoted "https:"))
  | Reachable => None
  end.

(** The retry loop of the Summarizer's fetchWithRetry over the attempts
    still to make.  Both refusals are thrown inside the try block of every
    attempt, before any request is made. *)
Fixpoint fetchWithRetry_loop (target : address) (todo : list nat) (retries : nat)
    : M (option response) :=
  match todo with
  | [] => ret None
  | attempt :: rest =>
    step <-
      tryCatch
        (response <-
           match refusal target with
           | Some refused => throw refused
           | None => request
           end ;;
         if ok response then ret (Return (Some response))
         else if Nat.eqb (status response) 429 then
           delay (mkPause (2 ^ Z.of_nat attempt * 1000) 0) ;;
           ret Continue
         else if Nat.leb 400 (status response) then
           throw (mkError "Error"
                    ("HTTP " ++ decimal (status response) ++ ": " ++ text response))
         else ret Continue)
        (fun error =>
           if Nat.eqb attempt retries then throw error
           else
             delay (mkPause (1000 * Z.of_nat attempt) 0) ;;
             ret Continue) ;;
    match step with
    | Return v => ret v
    | Continue => fetchWithRetry_loop target rest retries
    end
  end.

Definition fetchWithRetry (target : address) (retries : nat) : M (option response) :=
  fetchWithRetry_loop target (attempts retries) retries.

(** generateSummaries.  The issue and its page content go out in the
    prompt; the world tells the reply.  The address is the constant
    https address of the service followed by the key as its query, which
    is always accepted. *)
Definition generateSummaries (GEMINI_API_KEY : option string) : M summaries :=
  if negb (truthyOpt GEMINI_API_KEY) then
    throw (mkError "Error" "GEMINI_API_KEY environment variable is required")
  else
    tryCatch
      (response <- fetchWithRetry Reachable 3 ;;
       match response with
       | None =>
         throw (mkError "TypeError"
                  "Cannot read properties of undefined (reading 'json')")
       | Some r =>
         match json r with
         | ReadThrows e => throw e
         | NoCandidate =>
           throw (mkError "Error" "Invalid response structure from Gemini API")
         | CandidateText responseText =>
           let parsed := parseResponseText responseText in
           delay (mkPause 1000 1000) ;;
           ret parsed
         end
       end)
      (fun error =>
         ret (mkSummaries
                ("Error generating ACR note: " ++ message error)
                ("Error generating developer note: " ++ message error)
                ("Error assessing title: " ++ message error)
                None)).

End Summarizer.

(* ===================================================================== *)
(** * Summarizer: from the detailed report to one summary row per issue *)
(* ===================================================================== *)

Module SummarizerRun.
Import JS Runtime Csv Summarizer.
Open Scope js_scope.

(** What the regular expressions of fetchIssueContent read off an issue
    page. *)
Record page := mkPage {
  pageTitle : string;
  pageDescription : string;
  pageComments : list string;
  pageUserAliases : list string
}.

(** What fetchIssueContent returns, as far as its callers read it; the
    object built in its catch block has no userAliases. *)
Record issueContent := mkContent {
  title : string;
  description : string;
  comments : list string;
  userAliases : option (list string)
}.

Definition ofPage (p : page) : issueContent :=
  mkContent (pageTitle p) (pageDescription p) (pageComments p)
    (Some (pageUserAliases p)).

Definition fallbackContent : issueContent :=
  mkContent "Unable to fetch title" "Unable to fetch description" [] None.

(** One entry of the array results. *)
Module Row.
Record t := mk {
  issueId : option string;
  acrNote : string;
  developerNote : string;
  titleAssessment : string;
  wcagAssessment : option string;
  userAliases : string;
  processedAt : string
}.
End Row.

(** A for-of loop that carries a state. *)
Fixpoint forOfM {S T : Type} (body : S -> T -> M S) (l : list T) (st : S) : M S :=
  match l with
  | [] => ret st
  | x :: rest => st' <- body st x ;; forOfM body rest st'
  end.

Section Run.

(** How the host reads a text as an address. *)
Variable parseAddress : string -> address.

(** The reading of an issue page; it does not throw on a string. *)
Variable scrape : string -> page.

(** The address in a cell of the input file; a missing cell reads as the
    text undefined, which is no absolute address. *)
Definition addressOf (issueUrl : option string) : address :=
  match issueUrl with
  | Some cell => parseAddress cell
  | None => Unparsable
  end.

(** fetchIssueContent. *)
Definition fetchIssueContent (issueUrl : option string) : M issueContent :=
  tryCatch
    (r <- fetchWithRetry (addressOf issueUrl) 3 ;;
     match r with
     | None =>
       throw (mkError "TypeError" "Cannot read properties of undefined (reading 'ok')")
     | Some response =>
       if negb (ok response)
       then throw (mkError "Error" ("HTTP " ++ decimal (status response)))
       else ret (ofPage (scrape (text response)))
     end)
    (fun _ => ret fallbackContent).

(** [issueContent.userAliases.join(', ')]. *)
Definition joinAliases (c : issueContent) : M string :=
  match userAliases c with
  | Some aliases => ret (String.concat ", " aliases)
  | None =>
    throw (mkError "TypeError" "Cannot read properties of undefined (reading 'join')")
  end.

(** The body of the loop of processIssues for one issue; the state is the
    array results with the two counters processedCount and errorCount. *)
Definition processIssue (GEMINI_API_KEY : option string) (total : nat)
    (st : list Row.t * nat * nat) (issue : row) : M (list Row.t * nat * nat) :=
  let '(results, processedCount, errorCount) := st in
  st' <-
    tryCatch
      (issueContent <- fetchIssueContent (lookup "Issue URL" issue) ;;
       summaries <- generateSummaries GEMINI_API_KEY ;;
       aliases <- joinAliases issueContent ;;
       processedAt <- now ;;
       ret ((results
             ++ [ Row.mk (lookup "Issue ID" issue) (acrNote summaries)
                    (developerNote summaries) (titleAssessment summaries)
                    (wcagAssessment summaries) aliases processedAt ])%list,
            S processedCount, errorCount))
      (fun error =>
         let errorText := "Error: " ++ message error in
         processedAt <- now ;;
         ret ((results
               ++ [ Row.mk (lookup "Issue ID" issue) errorText errorText errorText
                      (Some errorText) EmptyString processedAt ])%list,
              processedCount, S errorCount)) ;;
  (if Nat.ltb (snd (fst st')) total then delay (mkPause 2000 1000) else ret tt) ;;
  ret st'.

(** processIssues, from the text of the input file to the array results;
    [None] stands for [process.exit(1)] on a missing key.  The checks on
    the results directory and the choice of the input file come before
    and are not part of it. *)
Definition processIssues (GEMINI_API_KEY : option string) (csvContent : string)
    : M (option (list Row.t)) :=
  if negb (truthyOpt GEMINI_API_KEY) then ret None
  else
    match parseCSV csvContent with
    | Threw e => throw e
    | Done issues =>
      st <- forOfM (processIssue GEMINI_API_KEY (List.length issues)) issues
              ([], 0, 0) ;;
      ret (Some (fst (fst st)))
    end.

End Run.

Definition csvHeaders : list string :=
  [ "Issue ID"; "ACR Note"; "Developer Note"; "Title Assessment";
    "WCAG Assessment"; "User Aliases"; "Processed At" ].

(** The fields of one written line; escapeCSV gives the empty text for an
    undefined field. *)
Definition summaryRow (r : Row.t) : list string :=
  [ match Row.issueId r with Some s => s | None => EmptyString end;
    Row.acrNote r; Row.developerNote r; Row.titleAssessment r;
    match Row.wcagAssessment r with Some s => s | None => EmptyString end;
    Row.userAliases r; Row.processedAt r ].

(** The text processIssues hands to [fs.writeFileSync]. *)
Definition csvOutput (results : list Row.t) : string :=
  String.concat "," csvHeaders ++ String lineFeed EmptyString
  ++ String.concat EmptyString (map (fun r => writeLine (summaryRow r)) results).

End SummarizerRun.

(* ===================================================================== *)
(** * Aggregator: one assessment per criterion code *)
(* ===================================================================== *)

Module Aggregator.
Import JS Regex Runtime.
Open Scope js_scope.

(** The retry loop of the Aggregator's fetchWithRetry over the attempts
    still to make.  A 503 or 429 reply waits and goes on to the next
    attempt; when no attempt is left the loop ends and the function
    returns undefined. *)
Fixpoint fetchWithRetry_loop (method : string) (todo : list nat) (retries : nat)
    : M (option response) :=
  match todo with
  | [] => ret None
  | attempt :: rest =>
    step <-
      tryCatch
        (response <-
           (if String.eqb method "POST" then request
            else throw (mkError "Error" "Only POST requests supported in this context")) ;;
         if ok response then ret (Return (Some response))
         else if Nat.eqb (status response) 503 || Nat.eqb (status response) 429 then
           let baseWaitTime :=
             if Nat.eqb (status response) 503
             then (if Nat.eqb attempt 1 then 15000 else 2 ^ Z.of_nat attempt * 10000)%Z
             else (if Nat.eqb attempt 1 then 5000 else 2 ^ Z.of_nat attempt * 3000)%Z in
           delay (mkPause baseWaitTime 5000) ;;
           ret Continue
         else if Nat.leb 400 (status response) then
           throw (mkError "Error"
                    ("HTTP " ++ decimal (status response) ++ ": " ++ text response))
         else ret Continue)
        (fun error =>
           if Nat.eqb attempt retries then throw error
           else
             delay (mkPause (Z.min (Z.of_nat attempt * 2000) 10000) 0) ;;
             ret Continue) ;;
    match step with
    | Return v => ret v
    | Continue => fetchWithRetry_loop method rest retries
    end
  end.

Definition fetchWithRetry (method : string) (retries : nat) : M (option response) :=
  fetchWithRetry_loop method (attempts retries) retries.

(** A member of a criterion group. *)
Record member := mkMember {
  m_issueId : string;
  m_wcagSC : string;
  m_title : string;
  m_acrNote : string
}.

(** What generateWCAGSummary returns. *)
Record consolidated := mkConsolidated {
  c_assessment : string;
  c_summary : string;
  c_issueIds : string
}.

Definition placeholderSummary (n : nat) : string :=
  "Based on " ++ decimal n ++ " identified issue"
  ++ (if Nat.ltb 1 n then "s" else EmptyString)
  ++ ", automatic assessment could not be completed due to API limitations. Manual review required to determine conformance level and detailed impact analysis. Issues affect accessibility across multiple user groups and require technical evaluation.".

(** generateWCAGSummary.  The prompt goes out with the request and the
    world tells the reply.  Reading [response.json] of the undefined that
    fetchWithRetry returns after its last 503 or 429 throws the engine's
    TypeError. *)
Definition generateWCAGSummary (GEMINI_API_KEY : option string) (wcagSC : string)
    (issues : list member) : M consolidated :=
  if negb (truthyOpt GEMINI_API_KEY) then
    throw (mkError "Error" "GEMINI_API_KEY environment variable is required")
  else
    let issueIds := String.concat ", " (map m_issueId issues) in
    tryCatch
      (response <- fetchWithRetry "POST" 5 ;;
       match response with
       | None =>
         throw (mkError "TypeError"
                  "Cannot read properties of undefined (reading 'json')")
       | Some r =>
         match json r with
         | ReadThrows e => throw e
         | NoCandidate =>
           throw (mkError "Error" "Invalid response structure from Gemini API")
         | CandidateText responseText =>
           let assessment :=
             fieldOf (matchSection "ACR_ASSESSMENT:" (Some "ACR_SUMMARY:") responseText)
               "UNKNOWN" in
           let summary :=
             fieldOf (matchSection "ACR_SUMMARY:" None responseText)
               "Unable to generate summary" in
           delay (mkPause 2000 3000) ;;
           ret (mkConsolidated assessment summary issueIds)
         end
       end)
      (fun error =>
         if includesStr (message error) "503"
            || includesStr (message error) "overloaded"
         then ret (mkConsolidated "REQUIRES_REVIEW"
                     (placeholderSummary (List.length issues)) issueIds)
         else ret (mkConsolidated "ERROR"
                     ("Error generating summary: " ++ message error) issueIds)).

(** Rows of the two input files, with the columns the stage reads. *)
Record detailedIssue := mkDetailedIssue {
  WCAG_SC : string;
  Issue_ID : string;
  Issue_Title : string
}.

Record issueSummary := mkIssueSummary {
  Summary_Issue_ID : string;
  ACR_Note : string
}.

(** One row of the consolidated output. *)
Record result := mkResult {
  wcagSC : string;
  assessment : string;
  summary : string;
  issueCount : nat;
  issueIds : string;
  processedAt : string
}.

(** A [Map] with string keys: entries in insertion order; setting a key
    already there keeps its place. *)
Fixpoint mapSet {V : Type} (key : string) (v : V) (m : list (string * V))
    : list (string * V) :=
  match m with
  | [] => [(key, v)]
  | (k, x) :: rest =>
    if String.eqb k key then (k, v) :: rest else (k, x) :: mapSet key v rest
  end.

Fixpoint mapGet {V : Type} (key : string) (m : list (string * V)) : option V :=
  match m with
  | [] => None
  | (k, x) :: rest => if String.eqb k key then Some x else mapGet key rest
  end.

Definition summaryMapOf (issueSummaries : list issueSummary)
    : list (string * issueSummary) :=
  fold_left (fun m s => mapSet (Summary_Issue_ID s) s m) issueSummaries [].

(** One step of the grouping forEach. *)
Definition groupStep (summaryMap : list (string * issueSummary))
    (wcagGroups : list (string * list member)) (issue : detailedIssue)
    : list (string * list member) :=
  let groups :=
    match mapGet (WCAG_SC issue) wcagGroups with
    | Some _ => wcagGroups
    | None => mapSet (WCAG_SC issue) [] wcagGroups
    end in
  match mapGet (Issue_ID issue) summaryMap with
  | Some summary =>
    let members :=
      match mapGet (WCAG_SC issue) groups with Some l => l | None => [] end in
    mapSet (WCAG_SC issue)
      (members
       ++ [mkMember (Issue_ID issue) (WCAG_SC issue) (Issue_Title issue)
             (orElse (Some (ACR_Note summary)) "No ACR note available")])%list
      groups
  | None => groups
  end.

Definition wcagGroupsOf (detailedIssues : list detailedIssue)
    (issueSummaries : list issueSummary) : list (string * list member) :=
  fold_left (groupStep (summaryMapOf issueSummaries)) detailedIssues [].

(** The state of the main loop: results, failedEntries, processedCount. *)
Definition loopState : Type :=
  (list result * list (string * list member) * nat)%type.

(** The body of the main loop for one group.  After the call of
    generateWCAGSummary nothing in the try block can throw, so the three
    variables change together or not at all. *)
Definition processGroup (GEMINI_API_KEY : option string) (st : loopState)
    (g : string * list member) : M loopState :=
  let '(results, failedEntries, processedCount) := st in
  let '(wcagSC, issues) := g in
  tryCatch
    (consolidatedSummary <- generateWCAGSummary GEMINI_API_KEY wcagSC issues ;;
     let failedEntries' :=
       if String.eqb (c_assessment consolidatedSummary) "REQUIRES_REVIEW"
       then (failedEntries ++ [g])%list else failedEntries in
     t <- now ;;
     ret ((results
           ++ [mkResult wcagSC (c_assessment consolidatedSummary)
                 (c_summary consolidatedSummary) (List.length issues)
                 (c_issueIds consolidatedSummary) t])%list,
          failedEntries', S processedCount))
    (fun error =>
       t <- now ;;
       ret ((results
             ++ [mkResult wcagSC "ERROR" ("Error: " ++ message error)
                   (List.length issues)
                   (String.concat ", " (map m_issueId issues)) t])%list,
            failedEntries, processedCount)).

Fixpoint forEachM {S T : Type} (body : S -> T -> M S) (l : list T) (st : S) : M S :=
  match l with
  | [] => ret st
  | x :: rest => st' <- body st x ;; forEachM body rest st'
  end.

(** [results.findIndex(r => r.wcagSC === wcagSC)]. *)
Fixpoint findIndex (code : string) (results : list result) : option nat :=
  match results with
  | [] => None
  | r :: rest =>
    if String.eqb (wcagSC r) code then Some 0
    else option_map S (findIndex code rest)
  end.

(** [results[i] = r] for an index within bounds. *)
Fixpoint setAt (i : nat) (r : result) (results : list result) : list result :=
  match results, i with
  | [], _ => []
  | _ :: rest, O => r :: rest
  | x :: rest, S k => x :: setAt k r rest
  end.

(** The body of the retry loop for one failed entry. *)
Definition retryGroup (GEMINI_API_KEY : option string) (results : list result)
    (g : string * list member) : M (list result) :=
  let '(wcagSC, issues) := g in
  tryCatch
    (consolidatedSummary <- generateWCAGSummary GEMINI_API_KEY wcagSC issues ;;
     match findIndex wcagSC results with
     | Some existingIndex =>
       t <- now ;;
       ret (setAt existingIndex
              (mkResult wcagSC (c_assessment consolidatedSummary)
                 (c_summary consolidatedSummary) (List.length issues)
                 (c_issueIds consolidatedSummary) t)
              results)
     | None => ret results
     end)
    (fun _ => ret results).

Section Sorting.

(** [a.localeCompare(b)]: the collation of the host, negative, zero or
    positive. *)
Variable localeCompare : string -> string -> Z.

(** [Array.prototype.sort] is stable; with a consistent comparator its
    result is the stable sorted arrangement, built here by inserting each
    row, in array order, after the rows not greater than it. *)
Fixpoint insertResult (r : result) (sorted : list result) : list result :=
  match sorted with
  | [] => [r]
  | x :: rest =>
    if (localeCompare (wcagSC x) (wcagSC r) <=? 0)%Z
    then x :: insertResult r rest
    else r :: x :: rest
  end.

Definition sortResults (results : list result) : list result :=
  fold_left (fun sorted r => insertResult r sorted) results [].

(** consolidateWCAGSummaries, from the two parsed files to the sorted rows
    it writes; [None] stands for [process.exit(1)] on a missing key. *)
Definition consolidateWCAGSummaries (GEMINI_API_KEY : option string)
    (detailedIssues : list detailedIssue) (issueSummaries : list issueSummary)
    : M (option (list result)) :=
  if negb (truthyOpt GEMINI_API_KEY) then ret None
  else
    let wcagGroups := wcagGroupsOf detailedIssues issueSummaries in
    st <- forEachM (processGroup GEMINI_API_KEY) wcagGroups ([], [], 0) ;;
    let '(results, failedEntries, _) := st in
    results' <-
      (if Nat.ltb 0 (List.length failedEntries) then
         delay (mkPause 30000 0) ;;
         forEachM (retryGroup GEMINI_API_KEY) failedEntries results
       else ret results) ;;
    ret (Some (sortResults results')).

End Sorting.

(** The text of the output file: the header line, then one written line
    per row. *)
Definition csvOutput (results : list result) : string :=
  "WCAG SC,ACR Assessment,ACR Summary,Issue Count,Issue IDs,Processed At"
  ++ String lineFeed EmptyString
  ++ String.concat EmptyString
       (map (fun r =>
               Csv.writeLine
                 [ wcagSC r; assessment r; summary r; decimal (issueCount r);
                   issueIds r; processedAt r ])
          results).

End Aggregator.

(* ===================================================================== *)
(** * Renderer: consolidated assessments to OpenACR rows *)
(* ===================================================================== *)

Module Renderer.
Import JS.

(** One parsed row of the consolidated CSV.  The CSV reader yields strings;
    a column the file lacks reads as undefined ([None]). *)
Record item := mkItem {
  WCAG_SC : option string;
  ACR_Assessment : option string;
  ACR_Summary : option string;
  Issue_Count : option string;
  Issue_IDs : option string
}.

(** Values stored in the fields of a rendered row.  [VInherited name] is
    the member of that name which every object literal inherits from
    Object.prototype: a built-in function, or for the name __proto__ the
    prototype object itself. *)
Inductive value :=
| VUndefined
| VString (s : string)
| VNumber (n : Z)
| VInherited (name : string).

Definition ofCell (c : option string) : value :=
  match c with Some s => VString s | None => VUndefined end.

(** The names Object.prototype defines. *)
Definition objectPrototype : list string :=
  [ "constructor"; "__defineGetter__"; "__defineSetter__"; "hasOwnProperty";
    "__lookupGetter__"; "__lookupSetter__"; "isPrototypeOf";
    "propertyIsEnumerable"; "toString"; "valueOf"; "__proto__";
    "toLocaleString" ].

(** [table[key]] on an object literal whose values are strings: the own
    property of that name, else the inherited one, else undefined. *)
Definition getProperty (key : string) (table : list (string * string)) : value :=
  match lookup key table with
  | Some v => VString v
  | None => if includes objectPrototype key then VInherited key else VUndefined
  end.

(** Truthiness: functions and objects are truthy. *)
Definition truthyValue (v : value) : bool :=
  match v with
  | VUndefined => false
  | VString s => truthy s
  | VNumber n => negb (Z.eqb n 0)
  | VInherited _ => true
  end.

(** [a || d]. *)
Definition orValue (a d : value) : value := if truthyValue a then a else d.

(** [v === s] for a string [s]. *)
Definition isString (v : value) (s : string) : bool :=
  match v with VString t => String.eqb t s | _ => false end.

(** A value used as a property key or in a template literal.  A built-in
    function reads as its source text, which the host prints as below, and
    the prototype object as [object Object]. *)
Definition textOf (v : value) : string :=
  match v with
  | VUndefined => "undefined"
  | VString s => s
  | VNumber n => NilZero.string_of_int (Z.to_int n)
  | VInherited name =>
    if String.eqb name "__proto__" then "[object Object]"
    else "function " ++ (if String.eqb name "constructor" then "Object" else name)
         ++ "() { [native code] }"
  end.

(** The criterion object pushed for each rendered row. *)
Record criterion := mkCriterion {
  num : value;
  adherenceLevel : value;
  notes : value;
  issueCount : value;
  issueIds : value
}.

(** convertAssessmentToAdherence: the [mapping] literal and its default. *)
Definition mapping : list (string * string) :=
  [ ("SUPPORTED", "supports");
    ("PARTIALLY_SUPPORTED", "partially-supports");
    ("NOT_SUPPORTED", "does-not-support");
    ("NOT_APPLICABLE", "not-applicable");
    ("REQUIRES_REVIEW", "not-evaluated");
    ("ERROR", "not-evaluated") ].

(** [mapping[assessment] || 'not-evaluated']. *)
Definition convertAssessmentToAdherence (assessment : option string) : value :=
  orValue (getProperty (keyOf assessment) mapping) (VString "not-evaluated").

Definition specialMappings : list (string * string) :=
  [ ("1410", "1.4.10"); ("1411", "1.4.11"); ("1412", "1.4.12");
    ("2411", "2.4.11"); ("233", "2.3.3"); ("248", "2.4.8");
    ("249", "2.4.9"); ("255", "2.5.5"); ("258", "2.5.8");
    ("325", "3.2.5"); ("336", "3.3.6") ].

(** convertWCAGFormat: [wcag111] to [1.1.1]; what [specialMappings] holds
    at the digits comes first, and anything else is returned as it came. *)
Definition convertWCAGFormat (wcagSC : option string) : value :=
  match wcagSC with
  | None => VUndefined
  | Some s =>
    if negb (truthy s) || negb (startsWith s "wcag") then VString s
    else
      let numbers := slice 4 s in
      let special := getProperty numbers specialMappings in
      if truthyValue special then special
      else if Nat.eqb (String.length numbers) 3 then
        VString (substring 0 1 numbers ++ "." ++ substring 1 1 numbers ++ "."
                 ++ substring 2 1 numbers)
      else if Nat.eqb (String.length numbers) 4
              && (startsWith numbers "1" || startsWith numbers "2"
                  || startsWith numbers "3" || startsWith numbers "4") then
        VString (substring 0 1 numbers ++ "." ++ substring 1 1 numbers ++ "."
                 ++ slice 2 numbers)
      else VString s
  end.

Definition wcagPositiveStatements : list (string * string) :=
  [ ("1.1.1", "Images and form elements have text alternatives that adequately describe the purpose and meaning");
    ("1.2.1", "Prerecorded audio and video are presented with captions, transcripts, or links to equivalent content");
    ("1.2.2", "Audio recordings and videos with sound have synchronized captions");
    ("1.2.3", "Audio description is provided for pre-recorded video");
    ("1.3.1", "The meaning conveyed by visual elements is the same when communicated programmatically for assistive technology users");
    ("1.3.2", "Keyboard users navigate the page in the same order the content is presented (top down, left to right)");
    ("1.3.3", "Descriptions and instructions don't rely on visual cues, like color or position");
    ("1.4.1", "Links and form elements use more than color (underlines, outlines) to convey state");
    ("1.4.2", "Users can pause or stop automated audio/video and control its volume in the UI");
    ("2.1.1", "Interactive elements are navigable and usable with keyboard commands");
    ("2.1.2", "Users can move focus to/from interactive elements with keyboard alone");
    ("2.1.4", "Custom character shortcuts are scoped to a focus event, use modifier keys, or can be customized or disabled");
    ("2.2.1", "Users can turn off or modify timers or time limits");
    ("2.2.2", "Users can pause animations or auto-updating content");
    ("2.3.1", "Pages don't have flashing content that exceeds flashing content thresholds");
    ("2.4.1", "Users can skip repeated navigation elements and go straight to main content");
    ("2.4.2", "Web pages have a descriptive title");
    ("2.4.3", "Focusable elements appear in the same order the content is presented (top down, left to right)");
    ("2.4.4", "Screen reader users can determine a link's purpose by its text and surrounding context");
    ("2.5.1", "Alternative methods using tap or a click are provided for path-based gestures (scrolling, drawing, zooming the page)");
    ("2.5.2", "Users can dismiss, cancel, or undo single-pointer actions");
    ("2.5.3", "Interactive elements have a programmatically derived accessible name that begins with or matches its visible label");
    ("2.5.4", "Motion actuation functionality can be disabled to prevent accidental triggering");
    ("3.1.1", "Pages have a 'lang' attribute that identifies the main language used for content");
    ("3.2.1", "No major changes to the page that could disorient users are made on focus");
    ("3.2.2", "No major changes to the page that could disorient users are made when a field changes value, unless the change is expected");
    ("3.3.1", "Error messages are provided in text");
    ("3.3.2", "Fields for user input have text labels or instructions");
    ("4.1.1", "Parsing of markup does not cause errors for assistive technologies");
    ("4.1.2", "Interactive elements have a programmatically derived accessible name, role, and value/state");
    ("1.2.4", "Live audio/video feeds have captions");
    ("1.2.5", "Meaningful information that's not conveyed in dialogue is described in captions");
    ("1.3.4", "On a mobile device, the site is fully functional whether in portrait or landscape orientation");
    ("1.3.5", "Form inputs are correctly labeled for screen reader users");
    ("1.4.3", "Text and links meet and often exceed minimum color contrast requirements");
    ("1.4.4", "The site remains legible and fully functional when users zoom the screen by 200% or more");
    ("1.4.5", "Text is only baked into an image when it needs to be, like for the site logo");
    ("1.4.10", "The site uses responsive development techniques so that content and functionality are retained regardless of device or viewport size (mobile, tablet, desktop)");
    ("1.4.11", "Form elements and buttons meet and often exceed minimum color contrast requirements");
    ("1.4.12", "Line height, letter, paragraph, and word spacing meet size requirements relative to font size");
    ("1.4.13", "Tooltips, which appear on hover and focus, persist until the user moves the pointer or focus elsewhere");
    ("2.4.5", "Users can reach pages by using search, global navigation, sidebar navigation, or links within page content");
    ("2.4.6", "Headings and labels are accurately described");
    ("2.4.7", "Interactive elements have a visible focus state when navigating by keyboard");
    ("2.4.11", "Interactive elements are at least partially visible (not obscured by other content) when focused");
    ("2.5.7", "When dragging actions are required, users have an alternate, single-pointer action like tap or click to perform the same task");
    ("2.5.8", "Interactive elements are at least 24x24 pixels or have sufficient space around them to prevent errant clicks, unless they're part of a sentence");
    ("3.1.2", "Sections of content that do not use the main page language have a 'lang' attribute that identifies the language used");
    ("3.2.3", "Navigation elements appear in the same location and order across the site");
    ("3.2.4", "Interactive elements with the same function have the same name, role, and behavior");
    ("3.3.3", "Corrective actions are suggested when users make an input error");
    ("3.3.4", "Forms that collect user data can be reviewed and confirmed or corrected");
    ("4.1.3", "Status messages are announced to users without having to focus on status message content");
    ("1.2.6", "Sign Language interpretation is provided for audio content");
    ("1.2.7", "Extended audio description is provided for video content where pauses in dialogue are insufficient");
    ("1.2.8", "A full text alternative is provided for pre-recorded synchronized media");
    ("1.2.9", "Audio-only live content has alternative access methods");
    ("1.3.6", "The purpose of user interface components can be programmatically determined");
    ("1.4.6", "Text has a contrast ratio of at least 7:1 with its background");
    ("1.4.7", "Audio content has minimal or no background noise to aid comprehension");
    ("1.4.8", "Text presentation can be customized without loss of content or functionality");
    ("1.4.9", "Images of text are used only for decoration or when essential to the information");
    ("2.1.3", "All page functionality is available from a keyboard without requiring specific timings");
    ("2.2.3", "Timing is not an essential part of the event or activity");
    ("2.2.4", "Interruptions can be postponed or suppressed by the user");
    ("2.2.5", "When a session expires, the user can continue without loss of data");
    ("2.2.6", "Users are warned of the duration of inactivity that will cause data loss");
    ("2.3.2", "Web pages do not contain content that flashes more than three times in any one second period");
    ("2.3.3", "Animation from interactions can be disabled unless essential to functionality");
    ("2.4.8", "Information about the user's location within a website is available");
    ("2.4.9", "Link purpose can be identified from link text alone");
    ("2.4.10", "Section headings are used to organize content");
    ("2.5.5", "The size of the target for pointer inputs is at least 44 by 44 CSS pixels");
    ("2.5.6", "Input mechanisms are available for users who cannot perform complex gestures");
    ("3.1.3", "The meaning of unusual words, phrases, idioms, and abbreviations can be determined");
    ("3.1.4", "The expansion or explanation of abbreviations can be determined");
    ("3.1.5", "Reading level is lower secondary education level or supplemental content is available");
    ("3.1.6", "The pronunciation of words where meanings is ambiguous can be determined");
    ("3.2.5", "Changes of context are initiated only by user request or a mechanism is available to turn off such changes");
    ("3.3.5", "Context-sensitive help is available");
    ("3.3.6", "Error prevention mechanisms are provided for submissions that are irreversible or financial") ].

(** getPositiveStatement: [wcagPositiveStatements[wcagNum] || null];
    [None] is null. *)
Definition getPositiveStatement (wcagNum : value) : option value :=
  let statement := getProperty (textOf wcagNum) wcagPositiveStatements in
  if truthyValue statement then Some statement else None.

Definition naList : list string :=
  [ "1.2.1"; "1.2.3"; "1.2.4"; "1.2.5"; "1.4.2"; "2.1.4"; "2.2.1"; "2.2.2";
    "2.3.1"; "2.5.4"; "4.1.1" ].

(** [Array.prototype.includes] with a needle that may be no string: an
    array of strings holds strings only. *)
Definition includesOpt (l : list string) (x : value) : bool :=
  match x with VString s => includes l s | _ => false end.

Definition isNotApplicable (wcagNum : value) : bool :=
  includesOpt naList wcagNum.

Definition wcag22Criteria : list string :=
  [ "2.4.11"; "2.4.12"; "2.4.13"; "2.5.7"; "2.5.8"; "3.2.6"; "3.3.7" ].

Inductive wcagLevel := A | AA | AAA.

Definition levelAList : list string :=
  [ "1.1.1"; "1.2.1"; "1.2.2"; "1.2.3"; "1.3.1"; "1.3.2"; "1.3.3";
    "1.4.1"; "1.4.2"; "2.1.1"; "2.1.2"; "2.1.4"; "2.2.1"; "2.2.2";
    "2.3.1"; "2.4.1"; "2.4.2"; "2.4.3"; "2.4.4"; "2.5.1"; "2.5.2";
    "2.5.3"; "2.5.4"; "3.1.1"; "3.2.1"; "3.2.2"; "3.3.1"; "3.3.2";
    "4.1.1"; "4.1.2" ].

Definition levelAAList : list string :=
  [ "1.2.4"; "1.2.5"; "1.3.4"; "1.3.5"; "1.4.3"; "1.4.4"; "1.4.5";
    "1.4.10"; "1.4.11"; "1.4.12"; "1.4.13"; "2.4.5"; "2.4.6"; "2.4.7";
    "3.1.2"; "3.2.3"; "3.2.4"; "3.3.3"; "3.3.4"; "4.1.3" ].

Definition levelAAAList : list string :=
  [ "1.2.6"; "1.2.7"; "1.2.8"; "1.2.9"; "1.3.6"; "1.4.6"; "1.4.7";
    "1.4.8"; "1.4.9"; "2.1.3"; "2.2.3"; "2.2.4"; "2.2.5"; "2.2.6";
    "2.3.2"; "2.3.3"; "2.4.8"; "2.4.9"; "2.4.10"; "2.5.5"; "2.5.6";
    "3.1.3"; "3.1.4"; "3.1.5"; "3.1.6"; "3.2.5"; "3.3.5"; "3.3.6" ].

(** getWCAGLevel: unknown codes default to AA. *)
Definition getWCAGLevel (wcagNum : value) : wcagLevel :=
  if includesOpt levelAList wcagNum then A
  else if includesOpt levelAAList wcagNum then AA
  else if includesOpt levelAAAList wcagNum then AAA
  else AA.

(** The three arrays the YAML sections are printed from, each row printed
    once, in array order. *)
Record sections := mkSections {
  levelACriteria : list criterion;
  levelAACriteria : list criterion;
  levelAAACriteria : list criterion
}.

Definition emptySections : sections := mkSections [] [] [].

(** The push into the array chosen by getWCAGLevel. *)
Definition pushByLevel (s : sections) (c : criterion) : sections :=
  match getWCAGLevel (num c) with
  | A => mkSections (levelACriteria s ++ [c])%list (levelAACriteria s)
           (levelAAACriteria s)
  | AA => mkSections (levelACriteria s) (levelAACriteria s ++ [c])%list
            (levelAAACriteria s)
  | AAA => mkSections (levelACriteria s) (levelAACriteria s)
             (levelAAACriteria s ++ [c])%list
  end.

(** Body of the first forEach callback up to the criterion object;
    [None] is the early return taken for excluded WCAG 2.2 codes. *)
Definition renderItem (it : item) : option criterion :=
  let wcagNum := convertWCAGFormat (WCAG_SC it) in
  if includesOpt wcag22Criteria wcagNum then None
  else
    let adherenceLevel0 := convertAssessmentToAdherence (ACR_Assessment it) in
    let notes0 := VString (orElse (ACR_Summary it) "No assessment available") in
    let '(adherenceLevel1, notes1) :=
      if isNotApplicable wcagNum
      then (VString "not-applicable", VString "Not applicable.")
      else if isString adherenceLevel0 "supports" then
        match getPositiveStatement wcagNum with
        | Some positiveStatement => (adherenceLevel0, positiveStatement)
        | None => (adherenceLevel0, notes0)
        end
      else (adherenceLevel0, notes0) in
    Some (mkCriterion wcagNum adherenceLevel1 notes1
            (ofCell (Issue_Count it)) (ofCell (Issue_IDs it))).

Definition firstPass (s : sections) (it : item) : sections :=
  match renderItem it with
  | Some c => pushByLevel s c
  | None => s
  end.

(** The set of processed numbers; membership is all the code asks of it. *)
Definition processedWcagNums (consolidatedData : list item) : list value :=
  fold_left
    (fun acc it =>
       let wcagNum := convertWCAGFormat (WCAG_SC it) in
       if negb (includesOpt wcag22Criteria wcagNum) then (acc ++ [wcagNum])%list
       else acc)
    consolidatedData [].

Definition hasNum (set : list value) (x : string) : bool :=
  existsb (fun o => isString o x) set.

Definition naCriterion (wcagNum : string) : criterion :=
  mkCriterion (VString wcagNum) (VString "not-applicable")
    (VString "Not applicable.") (VNumber 0) (VString EmptyString).

Definition secondPass (processed : list value) (s : sections)
    (wcagNum : string) : sections :=
  if negb (hasNum processed wcagNum) then pushByLevel s (naCriterion wcagNum) else s.

(** generateOpenACR, up to the three arrays of rows. *)
Definition generateOpenACR (consolidatedData : list item) : sections :=
  let s1 := fold_left firstPass consolidatedData emptySections in
  fold_left (secondPass (processedWcagNums consolidatedData)) naList s1.

(** All rendered rows in document order. *)
Definition rows (s : sections) : list criterion :=
  (levelACriteria s ++ levelAACriteria s ++ levelAAACriteria s)%list.

(** Number of rendered rows carrying a given criterion number. *)
Definition isNum (code : string) (o : value) : bool := isString o code.

Definition countNum (code : string) (l : list criterion) : nat :=
  List.length (filter (fun r => isNum code (num r)) l).

(** Number of upstream rows whose converted code is the given one. *)
Definition upstreamCount (code : string) (consolidatedData : list item) : nat :=
  List.length
    (filter (fun it => isNum code (convertWCAGFormat (WCAG_SC it))) consolidatedData).

End Renderer.

(* ===================================================================== *)
(** * Renderer: the text of a notes field *)
(* ===================================================================== *)

Module RendererYaml.
Import JS.

Definition backslash : ascii := ascii_of_nat 92.

(** The text of two double quotes, an empty YAML string. *)
Definition emptyQuoted : string := String dquote (String dquote EmptyString).

(** The four replacements of escapeYAML, in the order of the chain. *)
Definition cleanedOf (str : string) : string :=
  replaceChar carriageReturn (String backslash "r")
    (replaceChar lineFeed (String backslash "n")
       (replaceChar dquote (String backslash (String dquote EmptyString))
          (replaceChar backslash (String backslash (String backslash EmptyString))
             str))).

(** escapeYAML on a string. *)
Definition escapeYAML (str : string) : string :=
  if negb (truthy str) then emptyQuoted
  else
    let cleaned := cleanedOf str in
    if hasChar ":" cleaned || hasChar "#" cleaned || hasChar lineFeed cleaned
       || hasChar carriageReturn cleaned || hasChar dquote cleaned
       || hasChar "|" cleaned || negb (String.eqb (trim cleaned) cleaned)
       || includesStr cleaned "  "
    then String dquote (cleaned ++ String dquote EmptyString)
    else cleaned.

(** formatYAMLMultiline: a folded block scalar for a text of more than 80
    characters or with a line feed, the escaped text otherwise. *)
Definition formatYAMLMultiline (text indent : string) : string :=
  if negb (truthy text) then emptyQuoted
  else if Nat.ltb 80 (String.length text) || hasChar lineFeed text then
    ">-" ++ String lineFeed (indent ++ "  "
      ++ replaceChar lineFeed (String lineFeed (indent ++ "  ")) text)
  else escapeYAML text.

End RendererYaml.

(* ===================================================================== *)
(** * Properties of the primitives *)
(* ===================================================================== *)

Module JSFacts.
Import JS.

Lemma includes_In l x : includes l x = true <-> In x l.
Proof.
  unfold includes. rewrite existsb_exists. split.
  - intros [y [Hy He]]. apply String.eqb_eq in He. now subst.
  - intros H. exists x. split; [assumption | apply String.eqb_refl].
Qed.

Lemma includes_not_In l x : includes l x = false <-> ~ In x l.
Proof.
  rewrite <- includes_In. destruct (includes l x); split; congruence.
Qed.

Lemma truthy_orElse s d : truthy s = true -> orElse (Some s) d = s.
Proof. intros H. unfold orElse. now rewrite H. Qed.


(** ** Strings *)

Lemma append_assoc (a b c : string) : (a ++ b) ++ c = a ++ b ++ c.
Proof. induction a as [| x a IH]; simpl; [reflexivity | now rewrite IH]. Qed.

Lemma append_empty_r (a : string) : a ++ EmptyString = a.
Proof. induction a as [| x a IH]; simpl; [reflexivity | now rewrite IH]. Qed.

Lemma prefix_iff (p s : string) :
  String.prefix p s = true <-> exists t, s = p ++ t.
Proof.
  revert s. induction p as [| a p IH]; intros s; simpl.
  - split; [intros _; now exists s | intros _; destruct s; reflexivity].
  - destruct s as [| b s]; simpl.
    + split; [discriminate | intros [t H]; discriminate].
    + destruct (ascii_dec a b) as [-> | N].
      * rewrite IH. split; intros [t H]; exists t; congruence.
      * split; [discriminate | intros [t H]; congruence].
Qed.

Lemma slice_append (p t : string) : slice (String.length p) (p ++ t) = t.
Proof. induction p as [| a p IH]; simpl; [now destruct t | exact IH]. Qed.

(** [label] occurs in [text]. *)
Definition occurs (label text : string) : Prop :=
  exists pre rest, text = pre ++ label ++ rest.

(** An occurrence of [label] right after [pre] is the leftmost one. *)
Definition leftmost (label pre text : string) : Prop :=
  forall pre' rest', text = pre' ++ label ++ rest' ->
                     String.length pre <= String.length pre'.

Lemma leftmost_tail label c pre rest :
  leftmost label (String c pre) (String c pre ++ label ++ rest) ->
  leftmost label pre (pre ++ label ++ rest).
Proof.
  intros L pre' rest' E.
  specialize (L (String c pre') rest'). simpl in L.
  rewrite E in L. specialize (L eq_refl). lia.
Qed.

Lemma leftmost_not_prefix label c pre text :
  leftmost label (String c pre) text -> String.prefix label text = false.
Proof.
  intros L. destruct (String.prefix label text) eqn:P; [| reflexivity].
  apply prefix_iff in P. destruct P as [t ->].
  specialize (L EmptyString t eq_refl). simpl in L. lia.
Qed.

Lemma not_occurs_prefix label text :
  ~ occurs label text -> String.prefix label text = false.
Proof.
  intros N. destruct (String.prefix label text) eqn:P; [| reflexivity].
  apply prefix_iff in P. destruct P as [t ->].
  exfalso. apply N. now exists EmptyString, t.
Qed.

Lemma not_occurs_tail label c text :
  ~ occurs label (String c text) -> ~ occurs label text.
Proof.
  intros N [pre [rest ->]]. apply N. now exists (String c pre), rest.
Qed.

(** ** Lists *)

Lemma NoDup_snoc {T} (l : list T) (x : T) :
  NoDup l -> ~ In x l -> NoDup (l ++ [x]).
Proof.
  induction l as [| y l IH]; simpl; intros ND Hx.
  - constructor; [tauto | constructor].
  - inversion ND as [| ? ? Hy ND']. subst. constructor.
    + intros H. apply in_app_or in H. destruct H as [H | [H | []]]; [tauto |].
      subst. apply Hx. now left.
    + apply IH; [assumption | tauto].
Qed.

(** ** Trimming *)

Lemma trimStart_idem s : trimStart (trimStart s) = trimStart s.
Proof.
  induction s as [| c s IH]; simpl; [reflexivity |].
  destruct (isSpace c) eqn:E; [exact IH |]. simpl. now rewrite E.
Qed.

Lemma trim_trimStart s : trim (trimStart s) = trim s.
Proof. unfold trim. now rewrite trimStart_idem. Qed.

End JSFacts.

(* ===================================================================== *)
(** * Properties of the computations on the world *)
(* ===================================================================== *)

Module RuntimeFacts.
Import JS Runtime.

Lemma bind_returns {T U} (c : M T) (k : T -> M U) w v w' :
  c w = (Done v, w') -> bind c k w = k v w'.
Proof. intros H. unfold bind. now rewrite H. Qed.

Lemma bind_throws {T U} (c : M T) (k : T -> M U) w e w' :
  c w = (Threw e, w') -> bind c k w = (Threw e, w').
Proof. intros H. unfold bind. now rewrite H. Qed.

Lemma tryCatch_ext {T} (c1 c2 : M T) handler w :
  c1 w = c2 w -> tryCatch c1 handler w = tryCatch c2 handler w.
Proof. intros H. unfold tryCatch. now rewrite H. Qed.

Lemma bind_ext {T U} (c : M T) (k1 k2 : T -> M U) w :
  (forall v w', k1 v w' = k2 v w') -> bind c k1 w = bind c k2 w.
Proof.
  intros H. unfold bind. destruct (c w) as [[v | e] w']; [apply H | reflexivity].
Qed.

Lemma tryCatch_returns {T} (c : M T) handler w v w' :
  c w = (Done v, w') -> tryCatch c handler w = (Done v, w').
Proof. intros H. unfold tryCatch. now rewrite H. Qed.

Lemma tryCatch_throws {T} (c : M T) handler w e w' :
  c w = (Threw e, w') -> tryCatch c handler w = handler e w'.
Proof. intros H. unfold tryCatch. now rewrite H. Qed.

End RuntimeFacts.

(* ===================================================================== *)
(** * Properties of the labelled-section match *)
(* ===================================================================== *)

Module RegexFacts.
Import JS JSFacts Regex.

Lemma afterLabel_eq label text :
  afterLabel label text
  = if String.prefix label text then Some (slice (String.length label) text)
    else match text with
         | EmptyString => None
         | String _ t => afterLabel label t
         end.
Proof. destruct text; reflexivity. Qed.

Lemma lazyUntil_eq next text :
  lazyUntil next text
  = if String.prefix next text then EmptyString
    else match text with
         | EmptyString => EmptyString
         | String c t => String c (lazyUntil next t)
         end.
Proof. destruct text; reflexivity. Qed.

Lemma afterLabel_found label rest : forall pre,
  leftmost label pre (pre ++ label ++ rest) ->
  afterLabel label (pre ++ label ++ rest) = Some rest.
Proof.
  induction pre as [| c pre IH]; intros L; rewrite afterLabel_eq.
  - simpl. assert (P : String.prefix label (label ++ rest) = true)
      by (apply prefix_iff; now exists rest).
    now rewrite P, slice_append.
  - rewrite (leftmost_not_prefix _ _ _ _ L). simpl.
    apply IH. eapply leftmost_tail, L.
Qed.

Lemma afterLabel_absent label : forall txt,
  ~ occurs label txt -> afterLabel label txt = None.
Proof.
  induction txt as [| c txt IH]; intros N; rewrite afterLabel_eq;
    rewrite (not_occurs_prefix _ _ N); [reflexivity |].
  apply IH. eapply not_occurs_tail, N.
Qed.

Lemma lazyUntil_found next tail : forall body,
  leftmost next body (body ++ next ++ tail) ->
  lazyUntil next (body ++ next ++ tail) = body.
Proof.
  induction body as [| c body IH]; intros L; rewrite lazyUntil_eq.
  - simpl. assert (P : String.prefix next (next ++ tail) = true)
      by (apply prefix_iff; now exists tail).
    now rewrite P.
  - rewrite (leftmost_not_prefix _ _ _ _ L). simpl. f_equal.
    apply IH. eapply leftmost_tail, L.
Qed.

Lemma lazyUntil_absent next : forall txt,
  ~ occurs next txt -> lazyUntil next txt = txt.
Proof.
  induction txt as [| c txt IH]; intros N; rewrite lazyUntil_eq;
    rewrite (not_occurs_prefix _ _ N); [reflexivity |].
  f_equal. apply IH. eapply not_occurs_tail, N.
Qed.

(** Skipping the white space before the group does not move the place
    where a label that starts with a letter is found. *)
Lemma lazyUntil_trimStart c next' :
  isSpace c = false -> forall txt,
  lazyUntil (String c next') (trimStart txt)
  = trimStart (lazyUntil (String c next') txt).
Proof.
  intros Hc. induction txt as [| a txt IH]; [reflexivity |].
  simpl trimStart at 1. destruct (isSpace a) eqn:Ha.
  - rewrite IH. rewrite (lazyUntil_eq _ (String a txt)).
    simpl String.prefix. destruct (ascii_dec c a) as [-> | N]; [congruence |].
    simpl. now rewrite Ha.
  - rewrite (lazyUntil_eq _ (String a txt)).
    destruct (String.prefix (String c next') (String a txt)); [reflexivity |].
    simpl. now rewrite Ha.
Qed.

(** What it means for a field to hold the section of a label: the fixed
    placeholder when the label is absent; otherwise the trimmed text from
    the leftmost label up to the leftmost following occurrence of the next
    label, or up to the end of the text when there is none. *)
Definition extracted (label : string) (next : option string)
    (placeholder responseText field : string) : Prop :=
  (~ occurs label responseText -> field = placeholder) /\
  (forall pre rest,
     responseText = pre ++ label ++ rest -> leftmost label pre responseText ->
     match next with
     | None => field = trim rest
     | Some n =>
       (~ occurs n rest -> field = trim rest) /\
       (forall body tail,
          rest = body ++ n ++ tail -> leftmost n body rest -> field = trim body)
     end).

Lemma matchSection_extracted label placeholder responseText :
  extracted label None placeholder responseText
    (fieldOf (matchSection label None responseText) placeholder).
Proof.
  unfold matchSection. split.
  - intros N. now rewrite (afterLabel_absent _ _ N).
  - intros pre rest -> L. rewrite (afterLabel_found _ _ _ L). simpl.
    apply trim_trimStart.
Qed.

Lemma matchSection_extracted_next label c next' placeholder responseText :
  isSpace c = false ->
  extracted label (Some (String c next')) placeholder responseText
    (fieldOf (matchSection label (Some (String c next')) responseText)
       placeholder).
Proof.
  intros Hc. unfold matchSection. split.
  - intros N. now rewrite (afterLabel_absent _ _ N).
  - intros pre rest -> L. rewrite (afterLabel_found _ _ _ L). simpl fieldOf.
    rewrite (lazyUntil_trimStart _ _ Hc), trim_trimStart. split.
    + intros N. now rewrite (lazyUntil_absent _ _ N).
    + intros body tail -> Lb. now rewrite (lazyUntil_found _ _ _ Lb).
Qed.

End RegexFacts.

(* ===================================================================== *)
(** * Properties of the CSV reader *)
(* ===================================================================== *)

Module CsvFacts.
Import JS JSFacts Csv.

Lemma parseCSV_loop_filter headers : forall lines rows,
  parseCSV_loop headers lines rows
  = (rows
     ++ map (fun line => mkRow headers (parseCSVLine line))
          (filter (fun line =>
                     Nat.eqb (List.length (parseCSVLine line)) (List.length headers))
             lines))%list.
Proof.
  induction lines as [| line lines IH]; intros rows; simpl.
  - now rewrite app_nil_r.
  - destruct (Nat.eqb _ _); rewrite IH; [| reflexivity].
    simpl. now rewrite <- app_assoc.
Qed.

(** C10. Once the file has a header line, parseCSV returns without
    throwing, and its rows are those of exactly the lines after the header
    whose field count, as parseCSVLine splits them, equals the number of
    header names, in file order; every line of another count is left out. *)
Theorem parseCSV_keeps_matching_lines :
  forall (csvContent header : string) (dataLines : list string),
    nonBlankLines csvContent = header :: dataLines ->
    parseCSV csvContent
    = Done (map (fun line => mkRow (headerFields header) (parseCSVLine line))
              (filter (fun line =>
                         Nat.eqb (List.length (parseCSVLine line))
                           (List.length (headerFields header)))
                 dataLines)) /\
    (forall rows, parseCSV csvContent = Done rows ->
       List.length rows
       + List.length
           (filter (fun line =>
                      negb (Nat.eqb (List.length (parseCSVLine line))
                              (List.length (headerFields header))))
              dataLines)
       = List.length dataLines).
Proof.
  intros csv header dataLines H.
  assert (E : parseCSV csv
              = Done (map (fun line => mkRow (headerFields header) (parseCSVLine line))
                        (filter (fun line =>
                                   Nat.eqb (List.length (parseCSVLine line))
                                     (List.length (headerFields header)))
                           dataLines))).
  { unfold parseCSV. rewrite H, parseCSV_loop_filter. reflexivity. }
  split; [exact E |].
  intros rows R. rewrite E in R. injection R as <-.
  rewrite length_map. clear.
  induction dataLines as [| l ls IH]; simpl; [reflexivity |].
  destruct (Nat.eqb _ _); simpl; lia.
Qed.

(** A summary file as the Summarizer writes it, whose one record has a
    line break inside its quoted ACR note: both physical lines of the
    record have a field count other than seven, and the record is lost. *)
Lemma parseCSV_keeps_matching_lines_witness :
  let header :=
    "Issue ID,ACR Note,Developer Note,Title Assessment,WCAG Assessment,User Aliases,Processed At" in
  let csvContent :=
    header ++ String lineFeed EmptyString
    ++ writeLine
         [ "3001";
           "Affects people without vision." ++ String lineFeed EmptyString
           ++ "Images lack text alternatives.";
           "Needs a patch."; "TITLE_OK"; "WCAG_AGREE: wcag111"; "alice, bob";
           "2025-01-01T00:00:00.000Z" ] in
  nonBlankLines csvContent
  = [ header;
      "3001," ++ String dquote "Affects people without vision.";
      "Images lack text alternatives."
      ++ String dquote ",Needs a patch.,TITLE_OK,WCAG_AGREE: wcag111,"
      ++ String dquote "alice, bob"
      ++ String dquote ",2025-01-01T00:00:00.000Z" ] /\
  List.length (parseCSVLine ("3001," ++ String dquote "Affects people without vision.")) = 2 /\
  List.length
    (parseCSVLine
       ("Images lack text alternatives."
        ++ String dquote ",Needs a patch.,TITLE_OK,WCAG_AGREE: wcag111,"
        ++ String dquote "alice, bob"
        ++ String dquote ",2025-01-01T00:00:00.000Z")) = 2 /\
  List.length (headerFields header) = 7 /\
  parseCSV csvContent = Done [].
Proof.
  cbv zeta.
  match goal with
  | |- ?L = ?R /\ _ => assert (H : L = R) by (vm_compute; reflexivity)
  end.
  split; [exact H |].
  split; [vm_compute; reflexivity |].
  split; [vm_compute; reflexivity |].
  split; [vm_compute; reflexivity |].
  rewrite (proj1 (parseCSV_keeps_matching_lines _ _ _ H)).
  vm_compute. reflexivity.
Defined.

End CsvFacts.

(* ===================================================================== *)
(** * Round trips through the CSV writer and reader *)
(* ===================================================================== *)

Module CsvRoundTrip.
Import JS JSFacts Csv CsvFacts.

(** What may follow a written field on its line: nothing, or a comma. *)
Definition fieldEnd (rest : string) : Prop :=
  rest = EmptyString \/ exists r, rest = String comma r.

(** A field written as it is: the loop appends its characters. *)
Lemma loop_plain_field values : forall field rest current,
  hasChar dquote field = false -> hasChar comma field = false ->
  parseCSVLine_loop (field ++ rest) values current false
  = parseCSVLine_loop rest values (current ++ field) false.
Proof.
  induction field as [| c field IH]; intros rest current Hq Hc.
  - simpl. now rewrite append_empty_r.
  - simpl in Hq, Hc. apply orb_false_elim in Hq. apply orb_false_elim in Hc.
    destruct Hq as [Hq1 Hq2]. destruct Hc as [Hc1 Hc2].
    cbn [append parseCSVLine_loop]. rewrite Hq1, Hc1. cbn [andb].
    rewrite IH by assumption. now rewrite append_assoc.
Qed.

(** The inside of a quoted field, up to and with the closing quote. *)
Lemma loop_quoted_body values : forall field rest current,
  fieldEnd rest ->
  parseCSVLine_loop
    (replaceChar dquote (String dquote (String dquote EmptyString)) field
     ++ String dquote rest) values current true
  = parseCSVLine_loop rest values (current ++ field) false.
Proof.
  induction field as [| c field IH]; intros rest current Hend.
  - cbn [replaceChar append parseCSVLine_loop].
    rewrite append_empty_r.
    change (Ascii.eqb dquote dquote) with true. cbn iota.
    destruct Hend as [-> | [r ->]]; reflexivity.
  - cbn [replaceChar]. destruct (Ascii.eqb c dquote) eqn:E.
    + apply Ascii.eqb_eq in E. subst c.
      cbn [append parseCSVLine_loop].
      change (Ascii.eqb dquote dquote) with true. cbn iota.
      rewrite IH by assumption. now rewrite append_assoc.
    + cbn [append parseCSVLine_loop]. rewrite E. cbn [negb andb].
      rewrite andb_false_r.
      rewrite IH by assumption. now rewrite append_assoc.
Qed.

(** A field as escapeCSV writes it is read back whole. *)
Lemma loop_written_field values field rest current :
  fieldEnd rest ->
  parseCSVLine_loop (escapeCSV field ++ rest) values current false
  = parseCSVLine_loop rest values (current ++ field) false.
Proof.
  intros Hend. unfold escapeCSV.
  destruct (hasChar dquote field || hasChar comma field || hasChar lineFeed field
            || hasChar carriageReturn field) eqn:E.
  - cbn [append]. rewrite append_assoc. cbn [append parseCSVLine_loop].
    change (Ascii.eqb dquote dquote) with true. cbn iota.
    now apply loop_quoted_body.
  - apply orb_false_elim in E. destruct E as [E _].
    apply orb_false_elim in E. destruct E as [E _].
    apply orb_false_elim in E. destruct E as [Hq Hc].
    now apply loop_plain_field.
Qed.

Lemma loop_written_fields : forall fields field values,
  parseCSVLine_loop (String.concat "," (map escapeCSV (field :: fields))) values
    EmptyString false
  = (values ++ map trim (field :: fields))%list.
Proof.
  induction fields as [| next fields IH]; intros field values.
  - cbn [map String.concat].
    rewrite <- (append_empty_r (escapeCSV field)).
    rewrite loop_written_field by (now left). reflexivity.
  - change (String.concat "," (map escapeCSV (field :: next :: fields)))
      with (escapeCSV field
            ++ String comma (String.concat "," (map escapeCSV (next :: fields)))).
    rewrite loop_written_field by (right; eexists; reflexivity).
    cbn [append parseCSVLine_loop].
    change (Ascii.eqb comma dquote) with false.
    change (Ascii.eqb comma comma) with true. cbn [andb negb].
    rewrite IH. cbn [map]. now rewrite <- app_assoc.
Qed.

(** The line written for a non-empty list of fields is read back as those
    fields, each trimmed. *)
Lemma parseCSVLine_written fields :
  fields <> [] ->
  parseCSVLine (String.concat "," (map escapeCSV fields)) = map trim fields.
Proof.
  destruct fields as [| field fields]; [congruence |]. intros _.
  unfold parseCSVLine. now rewrite loop_written_fields.
Qed.

(** ** A whole written file *)

Lemma hasChar_append c (a b : string) :
  hasChar c (a ++ b) = hasChar c a || hasChar c b.
Proof.
  induction a as [| x a IH]; simpl; [reflexivity |].
  now rewrite IH, orb_assoc.
Qed.

Lemma hasChar_replaceChar c a r : forall s,
  Ascii.eqb a c = false -> hasChar c r = false ->
  hasChar c (replaceChar a r s) = hasChar c s.
Proof.
  induction s as [| x s IH]; intros Ha Hr; simpl; [reflexivity |].
  destruct (Ascii.eqb x a) eqn:E.
  - apply Ascii.eqb_eq in E. subst x.
    rewrite hasChar_append, Hr, Ha, IH by assumption. reflexivity.
  - simpl. now rewrite IH.
Qed.

Lemma escapeCSV_one_line field :
  hasChar lineFeed field = false -> hasChar lineFeed (escapeCSV field) = false.
Proof.
  intros H. unfold escapeCSV.
  destruct (hasChar dquote field || hasChar comma field || hasChar lineFeed field
            || hasChar carriageReturn field); [| exact H].
  cbn [hasChar]. rewrite hasChar_append, hasChar_replaceChar, H; reflexivity.
Qed.

Lemma written_one_line : forall fields,
  (forall f, In f fields -> hasChar lineFeed f = false) ->
  hasChar lineFeed (String.concat "," (map escapeCSV fields)) = false.
Proof.
  induction fields as [| f [| g fields] IH]; intros H.
  - reflexivity.
  - cbn [map String.concat]. apply escapeCSV_one_line, H. now left.
  - change (String.concat "," (map escapeCSV (f :: g :: fields)))
      with (escapeCSV f ++ String comma (String.concat "," (map escapeCSV (g :: fields)))).
    rewrite hasChar_append, escapeCSV_one_line by (apply H; now left).
    cbn [hasChar orb]. change (Ascii.eqb comma lineFeed) with false. cbn [orb].
    apply IH. intros x Hx. apply H. now right.
Qed.

Lemma splitFrom_line sep rest : forall a current,
  hasChar sep a = false ->
  splitFrom sep (a ++ String sep rest) current
  = (current ++ a) :: splitFrom sep rest EmptyString.
Proof.
  induction a as [| c a IH]; intros current H.
  - cbn [append splitFrom]. rewrite Ascii.eqb_refl. now rewrite append_empty_r.
  - simpl in H. apply orb_false_elim in H. destruct H as [H1 H2].
    cbn [append splitFrom]. rewrite H1, IH by assumption.
    now rewrite append_assoc.
Qed.

Lemma splitFrom_not_nil sep : forall s current, splitFrom sep s current <> [].
Proof.
  induction s as [| c s IH]; intros current; simpl; [discriminate |].
  destruct (Ascii.eqb c sep); [discriminate | apply IH].
Qed.

Lemma concat_empty_cons (x : string) (l : list string) :
  String.concat EmptyString (x :: l) = x ++ String.concat EmptyString l.
Proof.
  destruct l as [| y l]; cbn [String.concat]; [now rewrite append_empty_r |].
  reflexivity.
Qed.

(** The lines of a text made of one-line records, each closed by a line
    feed: the records, and the empty piece after the last line feed. *)
Lemma split_written_lines : forall lines,
  (forall l, In l lines -> hasChar lineFeed l = false) ->
  split lineFeed
    (String.concat EmptyString
       (map (fun l => l ++ String lineFeed EmptyString) lines))
  = (lines ++ [EmptyString])%list.
Proof.
  unfold split. induction lines as [| l lines IH]; intros H; [reflexivity |].
  cbn [map]. rewrite concat_empty_cons, append_assoc. cbn [append].
  rewrite splitFrom_line by (apply H; now left).
  cbn [append app]. f_equal. apply IH. intros x Hx. apply H. now right.
Qed.

(** A text with a character that is not white space does not trim to the
    empty string. *)
Lemma trimStart_keeps c : forall s,
  isSpace c = false -> hasChar c s = true -> hasChar c (trimStart s) = true.
Proof.
  induction s as [| a s IH]; intros Hc H; simpl in *; [discriminate |].
  destruct (isSpace a) eqn:Ha; [| exact H].
  destruct (Ascii.eqb a c) eqn:E.
  - apply Ascii.eqb_eq in E. congruence.
  - now apply IH.
Qed.

Lemma trimEnd_keeps c : forall s,
  isSpace c = false -> hasChar c s = true -> truthy (trimEnd s) = true.
Proof.
  induction s as [| a s IH]; intros Hc H; simpl in *; [discriminate |].
  destruct (Ascii.eqb a c) eqn:E.
  - apply Ascii.eqb_eq in E. subst a. rewrite Hc.
    destruct (trimEnd s); reflexivity.
  - simpl in H. specialize (IH Hc H). destruct (trimEnd s); [discriminate |].
    reflexivity.
Qed.

Lemma not_blank_with c s :
  isSpace c = false -> hasChar c s = true -> truthy (trim s) = true.
Proof.
  intros Hc H. unfold trim. apply trimEnd_keeps with (c := c); [exact Hc |].
  now apply trimStart_keeps.
Qed.

(** A written line of two fields or more holds a comma, so it is not
    blank. *)
Lemma written_not_blank fields :
  2 <= List.length fields ->
  truthy (trim (String.concat "," (map escapeCSV fields))) = true.
Proof.
  destruct fields as [| f [| g fields]]; simpl List.length; try lia. intros _.
  apply not_blank_with with (c := comma); [reflexivity |].
  change (String.concat "," (map escapeCSV (f :: g :: fields)))
    with (escapeCSV f ++ String comma (String.concat "," (map escapeCSV (g :: fields)))).
  rewrite hasChar_append. cbn [hasChar].
  change (Ascii.eqb comma comma) with true. cbn [orb]. apply orb_true_r.
Qed.

Lemma headerFields_not_nil header : headerFields header <> [].
Proof.
  unfold headerFields, split. intros H. apply map_eq_nil in H.
  now apply splitFrom_not_nil in H.
Qed.

Lemma nonBlank_written headerLine (records : list (list string)) :
  hasChar lineFeed headerLine = false ->
  truthy (trim headerLine) = true ->
  (forall r, In r records ->
     (forall f, In f r -> hasChar lineFeed f = false) /\
     truthy (trim (String.concat "," (map escapeCSV r))) = true) ->
  nonBlankLines
    (headerLine ++ String lineFeed EmptyString
     ++ String.concat EmptyString (map writeLine records))
  = headerLine :: map (fun r => String.concat "," (map escapeCSV r)) records.
Proof.
  intros Hh Hb Hr. unfold nonBlankLines, split.
  cbn [append]. rewrite splitFrom_line by exact Hh. cbn [append filter].
  rewrite Hb. f_equal.
  assert (E : map writeLine records
              = map (fun l => l ++ String lineFeed EmptyString)
                  (map (fun r => String.concat "," (map escapeCSV r)) records)).
  { rewrite map_map. reflexivity. }
  rewrite E. fold (split lineFeed
    (String.concat EmptyString
       (map (fun l => l ++ String lineFeed EmptyString)
          (map (fun r => String.concat "," (map escapeCSV r)) records)))).
  rewrite split_written_lines.
  - rewrite filter_app. cbn [filter trim trimStart trimEnd truthy].
    rewrite app_nil_r. apply forallb_filter_id.
    apply forallb_forall. intros l Hl. apply in_map_iff in Hl.
    destruct Hl as [r [<- Hin]]. apply (Hr r Hin).
  - intros l Hl. apply in_map_iff in Hl. destruct Hl as [r [<- Hin]].
    apply written_one_line. apply (Hr r Hin).
Qed.

Lemma written_records_parse headers (records : list (list string)) :
  headers <> [] ->
  (forall r, In r records -> List.length r = List.length headers) ->
  map (fun line => mkRow headers (parseCSVLine line))
    (filter (fun line =>
               Nat.eqb (List.length (parseCSVLine line)) (List.length headers))
       (map (fun r => String.concat "," (map escapeCSV r)) records))
  = map (fun r => mkRow headers (map trim r)) records.
Proof.
  intros Hh Hr. induction records as [| r records IH]; [reflexivity |].
  cbn [map filter].
  pose proof (Hr r (or_introl eq_refl)) as Hlen.
  assert (Hne : r <> []).
  { intros ->. simpl in Hlen. symmetry in Hlen.
    now apply length_zero_iff_nil in Hlen. }
  rewrite (parseCSVLine_written r Hne), length_map, Hlen, Nat.eqb_refl.
  cbn [map]. rewrite (parseCSVLine_written r Hne).
  rewrite IH; [reflexivity |]. intros x Hx. apply Hr. now right.
Qed.

(** ** The object built for a row *)

Lemma setProp_absent key value : forall obj,
  ~ In key (map fst obj) -> setProp key value obj = (obj ++ [(key, value)])%list.
Proof.
  induction obj as [| [k v] obj IH]; intros H; simpl; [reflexivity |].
  destruct (String.eqb k key) eqn:E.
  - apply String.eqb_eq in E. subst k. exfalso. apply H. now left.
  - rewrite IH; [reflexivity |]. intros Hin. apply H. now right.
Qed.

Lemma mkRow_from headers : forall values obj,
  NoDup (map fst obj ++ headers) ->
  List.length values = List.length headers ->
  fold_left (fun o hv => setProp (fst hv) (snd hv) o) (combine headers values) obj
  = (obj ++ combine headers values)%list.
Proof.
  induction headers as [| h headers IH]; intros values obj Hnd Hlen.
  - simpl. now rewrite app_nil_r.
  - destruct values as [| v values]; [discriminate |]. simpl.
    rewrite setProp_absent.
    + rewrite IH.
      * now rewrite <- app_assoc.
      * rewrite map_app. simpl. rewrite <- app_assoc. exact Hnd.
      * simpl in Hlen. lia.
    + apply NoDup_remove_2 in Hnd. intros Hin. apply Hnd.
      apply in_or_app. now left.
Qed.

(** With distinct header names the object holds one property per header,
    in header order. *)
Lemma mkRow_combine headers values :
  NoDup headers ->
  List.length values = List.length headers ->
  mkRow headers values = combine headers values.
Proof.
  intros Hnd Hlen. unfold mkRow. now rewrite mkRow_from.
Qed.

(** X1. A line written by joining escaped fields with commas is read back
    by parseCSVLine as the same fields, each trimmed, whatever characters
    the fields hold (commas, quotes, line breaks); the list of fields must
    not be empty. *)
Theorem written_line_read_back :
  forall fields : list string,
    fields <> [] ->
    parseCSVLine (String.concat "," (map escapeCSV fields)) = map trim fields.
Proof.
  intros fields Hne. destruct fields as [| field fields]; [congruence |].
  unfold parseCSVLine. now rewrite loop_written_fields.
Qed.

Lemma written_line_read_back_witness :
  parseCSVLine
    (String.concat ","
       (map escapeCSV
          [ "3001"; "Affects people, without vision";
            "say " ++ String dquote "hi" ++ String dquote EmptyString; " padded " ]))
  = [ "3001"; "Affects people, without vision";
      "say " ++ String dquote "hi" ++ String dquote EmptyString; "padded" ].
Proof.
  rewrite written_line_read_back by discriminate.
  vm_compute. reflexivity.
Defined.



End CsvRoundTrip.

(* ===================================================================== *)
(** * Properties of the Collector *)
(* ===================================================================== *)

Module CollectorFacts.
Import JS JSFacts Runtime Collector.
Open Scope js_scope.

(** ** The retry loop of fetchWithTimeout *)

(** The first attempt of a call that may retry, when its request is
    rejected: one pause before the request, one backoff pause, and then the
    TypeError of the assignment to [controller.signal]. *)
Lemma first_rejection_throws (rest : list nat) (attempt retries : nat) (w : world)
    (e : error) :
  attempt <> retries ->
  net w (sent w) = Rejected e ->
  fetchWithTimeout_loop (attempt :: rest) retries w
  = (Threw (mkError "TypeError"
              "Cannot set property signal of #<AbortController> which has only a getter"),
     mkWorld (net w) (S (sent w))
       (pauses w ++ [mkPause 1000 2000; mkPause (Z.of_nat attempt * 5000) 3000])
       (clock w) (ticks w) (requestCount w) (sessionCookies w)).
Proof.
  intros Hne Hnet.
  apply Nat.eqb_neq in Hne.
  unfold fetchWithTimeout_loop, bind, tryCatch, delay, request, assignSignal, throw.
  simpl. rewrite Hnet, Hne. simpl.
  now rewrite <- app_assoc.
Qed.

(** C7, on the code.  Whenever more than one attempt is allowed and the
    first request of the call is rejected (a timeout or a connection
    failure), fetchWithTimeout makes no second request: it waits once, then
    throws a TypeError that is not the failure of the request. *)
Theorem fetchWithTimeout_never_retries :
  forall (url : string) (timeoutMs : Z) (retries : nat) (w : world) (e : error),
    1 < retries ->
    net w (sent w) = Rejected e ->
    exists w',
      fetchWithTimeout url timeoutMs retries w
      = (Threw (mkError "TypeError"
                  "Cannot set property signal of #<AbortController> which has only a getter"),
         w') /\
      sent w' = S (sent w) /\
      pauses w' = (pauses w ++ [mkPause 1000 2000; mkPause 5000 3000])%list.
Proof.
  intros url timeoutMs retries w e Hr Hnet.
  destruct retries as [| [| k]]; try lia.
  eexists. unfold fetchWithTimeout, attempts, bind, nextFingerprint.
  cbn [seq].
  rewrite (first_rejection_throws _ 1 (S (S k)) _ e); [| lia | exact Hnet].
  cbn [net sent pauses]. split; [reflexivity |]. split; reflexivity.
Qed.

(** The call the Collector makes for a search page, with three attempts
    allowed, in a world where every request is rejected: only one request
    is made. *)
Lemma fetchWithTimeout_never_retries_witness :
  exists w',
    fetchWithTimeout
      "https://www.drupal.org/project/issues/search?status%5BOpen%5D=Open&issue_tags=wcag111"
      25000 3
      (mkWorld (fun _ => Rejected (mkError "TypeError" "fetch failed")) 0 []
         (fun _ => "2025-01-01T00:00:00.000Z") 0 0 EmptyString)
    = (Threw (mkError "TypeError"
                "Cannot set property signal of #<AbortController> which has only a getter"),
       w') /\
    sent w' = 1 /\
    pauses w' = [mkPause 1000 2000; mkPause 5000 3000].
Proof.
  apply (fetchWithTimeout_never_retries _ 25000 3
           (mkWorld (fun _ => Rejected (mkError "TypeError" "fetch failed")) 0 []
              (fun _ => "2025-01-01T00:00:00.000Z") 0 0 EmptyString)
           (mkError "TypeError" "fetch failed")); [lia | reflexivity].
Defined.

(** ** De-duplication in parseIssuesFromHTML *)

Lemma all_patterns (p : pattern) : In p issuePatterns.
Proof. destruct p; simpl; tauto. Qed.

Section ParseFacts.

Variable exec : pattern -> string -> list (list string).
Variable projectOfUrl : string -> option string.
Variable clock : nat -> string.
Variable code : string.

(** The issue id of a match the loop accepts: one with an id and a title. *)
Definition matchedIssue (m : list string) : option string :=
  let c := destructure projectOfUrl m in
  if truthyOpt (capIssueId c) && truthyOpt (capTitle c) then capIssueId c else None.

(** What the loop keeps true of foundIssues and issues. *)
Definition consistent (st : list string * list issue) : Prop :=
  map issueId (snd st) = fst st /\
  NoDup (fst st) /\
  (forall r, In r (snd st) -> wcagCriteria r = code).

Lemma onMatch_consistent st m :
  consistent st -> consistent (onMatch projectOfUrl clock code st m).
Proof.
  destruct st as [found issues]. intros [Hmap [Hnd Hcode]].
  unfold onMatch.
  destruct (negb (truthyOpt _) || negb (truthyOpt _)); [now repeat split |].
  destruct (includes found _) eqn:Hin; [now repeat split |].
  apply includes_not_In in Hin.
  repeat split; simpl in *.
  - rewrite map_app, Hmap. reflexivity.
  - apply NoDup_snoc; assumption.
  - intros r Hr. apply in_app_or in Hr. destruct Hr as [Hr | [<- | []]]; auto.
Qed.

Lemma onMatch_grows st m x :
  In x (fst st) -> In x (fst (onMatch projectOfUrl clock code st m)).
Proof.
  destruct st as [found issues]. unfold onMatch. intros H.
  destruct (negb (truthyOpt _) || negb (truthyOpt _)); [exact H |].
  destruct (includes found _); [exact H |].
  simpl. apply in_or_app. now left.
Qed.

Lemma onMatch_finds st m id :
  matchedIssue m = Some id ->
  In id (fst (onMatch projectOfUrl clock code st m)).
Proof.
  destruct st as [found issues]. unfold matchedIssue, onMatch. intros H.
  destruct (truthyOpt (capIssueId _)); [| discriminate].
  destruct (truthyOpt (capTitle _)); [| discriminate].
  simpl in H. rewrite H. simpl.
  destruct (includes found id) eqn:Hin.
  - now apply includes_In.
  - simpl. apply in_or_app. right. now left.
Qed.

Lemma matches_consistent ms : forall st,
  consistent st -> consistent (fold_left (onMatch projectOfUrl clock code) ms st).
Proof.
  induction ms as [| m ms IH]; intros st H; simpl; [exact H |].
  apply IH, onMatch_consistent, H.
Qed.

Lemma matches_grow ms x : forall st,
  In x (fst st) -> In x (fst (fold_left (onMatch projectOfUrl clock code) ms st)).
Proof.
  induction ms as [| m ms IH]; intros st H; simpl; [exact H |].
  apply IH, onMatch_grows, H.
Qed.

Lemma matches_find ms m id : forall st,
  In m ms -> matchedIssue m = Some id ->
  In id (fst (fold_left (onMatch projectOfUrl clock code) ms st)).
Proof.
  induction ms as [| m' ms IH]; intros st Hin Hm; simpl; [contradiction |].
  destruct Hin as [-> | Hin].
  - apply matches_grow, onMatch_finds, Hm.
  - now apply IH.
Qed.

Definition overPatterns (html : string) (ps : list pattern)
    (st : list string * list issue) : list string * list issue :=
  fold_left (fun st p => fold_left (onMatch projectOfUrl clock code) (exec p html) st)
    ps st.

Lemma patterns_consistent html ps : forall st,
  consistent st -> consistent (overPatterns html ps st).
Proof.
  induction ps as [| p ps IH]; intros st H; simpl; [exact H |].
  apply IH, matches_consistent, H.
Qed.

Lemma patterns_grow html ps x : forall st,
  In x (fst st) -> In x (fst (overPatterns html ps st)).
Proof.
  induction ps as [| p ps IH]; intros st H; simpl; [exact H |].
  apply IH, matches_grow, H.
Qed.

Lemma patterns_find html ps p m id : forall st,
  In p ps -> In m (exec p html) -> matchedIssue m = Some id ->
  In id (fst (overPatterns html ps st)).
Proof.
  induction ps as [| p' ps IH]; intros st Hp Hm Hid; simpl; [contradiction |].
  destruct Hp as [-> | Hp].
  - apply patterns_grow. now apply matches_find with (m := m).
  - now apply IH.
Qed.

End ParseFacts.

Lemma count_unique_key (l : list issue) (code id : string) :
  NoDup (map issueId l) -> In id (map issueId l) ->
  (forall r, In r l -> wcagCriteria r = code) ->
  List.length
    (filter (fun r => String.eqb (wcagCriteria r) code && String.eqb (issueId r) id) l)
  = 1.
Proof.
  induction l as [| r l IH]; simpl; [contradiction |].
  intros Hnd Hin Hcode. inversion Hnd as [| ? ? Hnotin Hnd']. subst.
  rewrite (Hcode r (or_introl eq_refl)), String.eqb_refl. simpl.
  destruct (String.eqb_spec (issueId r) id) as [E | N].
  - simpl. f_equal.
    assert (Z0 : forall l', (forall x, In x l' -> issueId x <> id) ->
                 filter (fun r0 => String.eqb (wcagCriteria r0) code
                                   && String.eqb (issueId r0) id) l' = []).
    { induction l' as [| y l' IHl]; intros Hy; simpl; [reflexivity |].
      destruct (String.eqb_spec (issueId y) id) as [Ey | Ny].
      - exfalso. apply (Hy y); [now left | exact Ey].
      - rewrite andb_false_r. apply IHl. intros x Hx. apply Hy. now right. }
    rewrite Z0; [reflexivity |].
    intros x Hx Ex. apply Hnotin. rewrite E, <- Ex. now apply in_map.
  - apply IH; auto. destruct Hin as [Hin | Hin]; [contradiction | exact Hin].
Qed.

(** C9. Whatever the regular-expression engine finds on a page: when two
    different patterns each match an issue with the same id, the parse
    result holds exactly one record with that criterion code and that id;
    no id occurs twice in the result, and every record carries the
    criterion code of the call. *)
Theorem one_record_per_issue_id :
  forall (exec : pattern -> string -> list (list string))
         (projectOfUrl : string -> option string) (clock : nat -> string)
         (html code : string) (p1 p2 : pattern) (m1 m2 : list string)
         (id : string),
    p1 <> p2 ->
    In m1 (exec p1 html) -> In m2 (exec p2 html) ->
    matchedIssue projectOfUrl m1 = Some id ->
    matchedIssue projectOfUrl m2 = Some id ->
    List.length
      (filter (fun r => String.eqb (wcagCriteria r) code && String.eqb (issueId r) id)
         (parseIssuesFromHTML exec projectOfUrl clock html code))
    = 1 /\
    NoDup (map issueId (parseIssuesFromHTML exec projectOfUrl clock html code)) /\
    (forall r, In r (parseIssuesFromHTML exec projectOfUrl clock html code) ->
               wcagCriteria r = code).
Proof.
  intros exec projectOfUrl clock html code p1 p2 m1 m2 id _ H1 _ Hid1 _.
  assert (C : consistent code (overPatterns exec projectOfUrl clock code html
                                 issuePatterns ([], []))).
  { apply patterns_consistent. repeat split; simpl; [constructor | tauto]. }
  assert (F : In id (fst (overPatterns exec projectOfUrl clock code html
                            issuePatterns ([], [])))).
  { apply patterns_find with (p := p1) (m := m1); auto using all_patterns. }
  destruct C as [Hmap [Hnd Hcode]].
  change (parseIssuesFromHTML exec projectOfUrl clock html code)
    with (snd (overPatterns exec projectOfUrl clock code html issuePatterns ([], []))).
  rewrite <- Hmap in Hnd, F.
  split; [| split]; auto using count_unique_key.
Qed.

(** A page on which the project-link pattern and the full-URL pattern
    both match issue 3001. *)
Lemma one_record_per_issue_id_witness :
  let exec := fun (p : pattern) (_ : string) =>
    match p with
    | ProjectIssueLink =>
      [ [ "<a href=/project/drupal/issues/3001>Missing alt text</a>";
          "/project/drupal/issues/3001"; "drupal"; "3001"; "Missing alt text" ] ]
    | FullUrlLink =>
      [ [ "<a href=https://www.drupal.org/project/drupal/issues/3001>Missing alt text</a>";
          "https://www.drupal.org/project/drupal/issues/3001"; "drupal"; "3001";
          "Missing alt text" ] ]
    | _ => []
    end in
  parseIssuesFromHTML exec (fun _ => None) (fun _ => "2025-01-01T00:00:00.000Z")
    "page" "wcag111"
  = [ mkIssue "wcag111" "3001" "Missing alt text"
        "https://www.drupal.org/project/drupal/issues/3001" "drupal"
        "2025-01-01T00:00:00.000Z" ] /\
  List.length
    (filter (fun r => String.eqb (wcagCriteria r) "wcag111"
                      && String.eqb (issueId r) "3001")
       (parseIssuesFromHTML exec (fun _ => None)
          (fun _ => "2025-01-01T00:00:00.000Z") "page" "wcag111"))
  = 1.
Proof.
  cbv zeta. split; [vm_compute; reflexivity |].
  refine (proj1 (one_record_per_issue_id _ (fun _ => None) _ "page" "wcag111"
                   ProjectIssueLink FullUrlLink
                   [ "<a href=/project/drupal/issues/3001>Missing alt text</a>";
                     "/project/drupal/issues/3001"; "drupal"; "3001";
                     "Missing alt text" ]
                   [ "<a href=https://www.drupal.org/project/drupal/issues/3001>Missing alt text</a>";
                     "https://www.drupal.org/project/drupal/issues/3001"; "drupal";
                     "3001"; "Missing alt text" ]
                   "3001" _ _ _ _ _));
    [discriminate | now left | now left | reflexivity | reflexivity].
Defined.

(** ** The order of the parse result *)

(** The elements of a list in order of first occurrence, skipping those
    already seen. *)
Fixpoint firstOccurrences (seen l : list string) : list string :=
  match l with
  | [] => []
  | x :: rest =>
    if includes seen x then firstOccurrences seen rest
    else x :: firstOccurrences (seen ++ [x]) rest
  end.

Lemma firstOccurrences_app : forall a b seen,
  firstOccurrences seen (a ++ b)
  = (firstOccurrences seen a
     ++ firstOccurrences (seen ++ firstOccurrences seen a) b)%list.
Proof.
  induction a as [| x a IH]; intros b seen; simpl.
  - now rewrite app_nil_r.
  - destruct (includes seen x); [apply IH |].
    simpl. f_equal. rewrite IH. now rewrite <- app_assoc.
Qed.

Section OrderFacts.

Variable exec : pattern -> string -> list (list string).
Variable projectOfUrl : string -> option string.
Variable clock : nat -> string.
Variable code : string.

(** The ids of the matches the loop accepts, in match order. *)
Definition idsOf (ms : list (list string)) : list string :=
  flat_map (fun m => match matchedIssue projectOfUrl m with
                     | Some id => [id]
                     | None => []
                     end) ms.

Lemma onMatch_skips st m :
  matchedIssue projectOfUrl m = None -> onMatch projectOfUrl clock code st m = st.
Proof.
  destruct st as [found issues]. unfold matchedIssue, onMatch. intros H.
  destruct (truthyOpt (capIssueId _)) eqn:E1; [| reflexivity].
  destruct (truthyOpt (capTitle _)) eqn:E2; [| reflexivity].
  simpl in H. destruct (capIssueId _); discriminate.
Qed.

Lemma onMatch_found st m id :
  matchedIssue projectOfUrl m = Some id ->
  fst (onMatch projectOfUrl clock code st m)
  = if includes (fst st) id then fst st else (fst st ++ [id])%list.
Proof.
  destruct st as [found issues]. unfold matchedIssue, onMatch. intros H.
  destruct (truthyOpt (capIssueId _)) eqn:E1; [| discriminate].
  destruct (truthyOpt (capTitle _)) eqn:E2; [| discriminate].
  simpl in H. rewrite H. simpl.
  destruct (includes found id); reflexivity.
Qed.

Lemma matches_order ms : forall st,
  fst (fold_left (onMatch projectOfUrl clock code) ms st)
  = (fst st ++ firstOccurrences (fst st) (idsOf ms))%list.
Proof.
  induction ms as [| m ms IH]; intros st; simpl.
  - now rewrite app_nil_r.
  - rewrite IH. destruct (matchedIssue projectOfUrl m) as [id |] eqn:E.
    + rewrite (onMatch_found st m id E). simpl.
      destruct (includes (fst st) id); [reflexivity |].
      now rewrite <- app_assoc.
    + now rewrite (onMatch_skips st m E).
Qed.

Lemma patterns_order html ps : forall st,
  fst (overPatterns exec projectOfUrl clock code html ps st)
  = (fst st
     ++ firstOccurrences (fst st) (flat_map (fun p => idsOf (exec p html)) ps))%list.
Proof.
  induction ps as [| p ps IH]; intros st; simpl.
  - now rewrite app_nil_r.
  - change (overPatterns exec projectOfUrl clock code html (p :: ps) st)
      with (overPatterns exec projectOfUrl clock code html ps
              (fold_left (onMatch projectOfUrl clock code) (exec p html) st)).
    rewrite IH, matches_order.
    rewrite firstOccurrences_app. now rewrite <- app_assoc.
Qed.

(** Every record of the result carries an absolute address. *)
Lemma onMatch_absolute st m :
  Forall (fun r => startsWith (url r) "http" = true) (snd st) ->
  Forall (fun r => startsWith (url r) "http" = true)
    (snd (onMatch projectOfUrl clock code st m)).
Proof.
  destruct st as [found issues]. unfold onMatch. intros H.
  destruct (negb (truthyOpt _) || negb (truthyOpt _)); [exact H |].
  destruct (includes found _); [exact H |].
  simpl. apply Forall_app. split; [exact H |].
  constructor; [| constructor]. simpl.
  destruct (startsWith (keyOf (capUrl (destructure projectOfUrl m))) "http") eqn:E;
    [exact E | reflexivity].
Qed.

Lemma patterns_absolute html ps : forall st,
  Forall (fun r => startsWith (url r) "http" = true) (snd st) ->
  Forall (fun r => startsWith (url r) "http" = true)
    (snd (overPatterns exec projectOfUrl clock code html ps st)).
Proof.
  induction ps as [| p ps IH]; intros st H; [exact H |].
  change (overPatterns exec projectOfUrl clock code html (p :: ps) st)
    with (overPatterns exec projectOfUrl clock code html ps
            (fold_left (onMatch projectOfUrl clock code) (exec p html) st)).
  apply IH. clear IH. revert st H.
  induction (exec p html) as [| m ms IHm]; intros st H; simpl; [exact H |].
  apply IHm, onMatch_absolute, H.
Qed.

End OrderFacts.

(** X3. The ids of the parse result are the ids of the accepted matches
    in order of first occurrence, taking the four patterns in array order
    and the matches of each in page order; and every record carries an
    absolute address. *)
Theorem parse_result_in_first_match_order :
  forall (exec : pattern -> string -> list (list string))
         (projectOfUrl : string -> option string) (clock : nat -> string)
         (html code : string),
    map issueId (parseIssuesFromHTML exec projectOfUrl clock html code)
    = firstOccurrences []
        (flat_map (fun p => idsOf projectOfUrl (exec p html)) issuePatterns) /\
    (forall r, In r (parseIssuesFromHTML exec projectOfUrl clock html code) ->
               startsWith (url r) "http" = true).
Proof.
  intros exec projectOfUrl clock html code. split.
  - assert (C : consistent code (overPatterns exec projectOfUrl clock code html
                                   issuePatterns ([], []))).
    { apply patterns_consistent. repeat split; simpl; [constructor | tauto]. }
    destruct C as [Hmap _].
    change (parseIssuesFromHTML exec projectOfUrl clock html code)
      with (snd (overPatterns exec projectOfUrl clock code html issuePatterns ([], []))).
    rewrite Hmap, patterns_order. reflexivity.
  - apply Forall_forall.
    apply (patterns_absolute exec projectOfUrl clock code html issuePatterns ([], [])).
    constructor.
Qed.

End CollectorFacts.

(* ===================================================================== *)
(** * Properties of the Collector's run over one criterion *)
(* ===================================================================== *)

Module CollectorRunFacts.
Import JS JSFacts Runtime RuntimeFacts Csv Collector CollectorFacts CollectorRun.
Open Scope js_scope.

(** The world after a call of fetchWithTimeout whose first request was
    answered by [r]. *)
Definition replied (r : response) (w : world) : world :=
  snd (storeCookies r
         (mkWorld (net w) (S (sent w)) (pauses w ++ [mkPause 1000 2000])%list
            (clock w) (ticks w) (S (requestCount w)) (sessionCookies w))).

Lemma storeCookies_done r w : fst (storeCookies r w) = Done tt.
Proof.
  unfold storeCookies. destruct (setCookie r) as [c |]; [| reflexivity].
  destruct (truthy c); reflexivity.
Qed.

Lemma storeCookies_keeps r w :
  net (snd (storeCookies r w)) = net w /\
  sent (snd (storeCookies r w)) = sent w /\
  pauses (snd (storeCookies r w)) = pauses w /\
  clock (snd (storeCookies r w)) = clock w /\
  ticks (snd (storeCookies r w)) = ticks w /\
  requestCount (snd (storeCookies r w)) = requestCount w.
Proof.
  unfold storeCookies. destruct (setCookie r) as [c |]; [| repeat split].
  destruct (truthy c); repeat split.
Qed.

Lemma replied_keeps r w :
  net (replied r w) = net w /\
  sent (replied r w) = S (sent w) /\
  pauses (replied r w) = (pauses w ++ [mkPause 1000 2000])%list /\
  clock (replied r w) = clock w /\
  ticks (replied r w) = ticks w /\
  requestCount (replied r w) = S (requestCount w).
Proof.
  unfold replied.
  destruct (storeCookies_keeps r
              (mkWorld (net w) (S (sent w)) (pauses w ++ [mkPause 1000 2000])%list
                 (clock w) (ticks w) (S (requestCount w)) (sessionCookies w)))
    as (A & B & C & D & E & F).
  rewrite A, B, C, D, E, F. repeat split.
Qed.

Lemma fetchWithTimeout_replied url timeoutMs retries w r :
  1 <= retries ->
  net w (sent w) = Responded r ->
  fetchWithTimeout url timeoutMs retries w = (Done (Some r), replied r w).
Proof.
  intros Hr Hnet. destruct retries as [| n]; [lia |].
  unfold fetchWithTimeout, attempts, replied. simpl seq.
  unfold bind at 1. unfold nextFingerprint.
  unfold fetchWithTimeout_loop; fold fetchWithTimeout_loop.
  unfold bind, tryCatch, delay, request, ret. simpl.
  rewrite Hnet.
  set (w1 := mkWorld _ _ _ _ _ _ _).
  pose proof (storeCookies_done r w1) as Hd.
  destruct (storeCookies r w1) as [o w2]. simpl in Hd. subst o. reflexivity.
Qed.

(** The world after a call of fetchWithTimeout whose first request was
    rejected, when more than one attempt was asked for. *)
Definition rejected (w : world) : world :=
  mkWorld (net w) (S (sent w))
    (pauses w ++ [mkPause 1000 2000; mkPause 5000 3000])%list
    (clock w) (ticks w) (S (requestCount w)) (sessionCookies w).

Lemma fetchWithTimeout_rejected url timeoutMs retries w e :
  2 <= retries ->
  net w (sent w) = Rejected e ->
  fetchWithTimeout url timeoutMs retries w
  = (Threw (mkError "TypeError"
              "Cannot set property signal of #<AbortController> which has only a getter"),
     rejected w).
Proof.
  intros Hr Hnet. destruct retries as [| [| n]]; [lia | lia |].
  unfold fetchWithTimeout, attempts, rejected. simpl seq.
  unfold bind at 1. unfold nextFingerprint.
  rewrite (first_rejection_throws _ 1 (S (S n)) _ e); [| lia | exact Hnet].
  reflexivity.
Qed.

Lemma received_some {U} r (k : response -> M U) w :
  bind (received (Some r)) k w = k r w.
Proof. reflexivity. Qed.

(** fetchEnhancedMetadata never throws, sends one request and hands the
    issue back; it adds metadata only from a reply that was ok. *)
Lemma fetchEnhancedMetadata_once scrape i w :
  exists m w',
    fetchEnhancedMetadata scrape i w = (Done (i, m), w') /\
    net w' = net w /\ sent w' = S (sent w) /\
    clock w' = clock w /\ ticks w' = ticks w /\
    (m = None \/
     exists r, net w (sent w) = Responded r /\ ok r = true /\
               m = Some (scrape (text r))).
Proof.
  unfold fetchEnhancedMetadata, tryCatch.
  destruct (net w (sent w)) as [r | e] eqn:Hnet.
  - rewrite (bind_returns _ _ w (Some r) (replied r w));
      [| apply fetchWithTimeout_replied; [lia | exact Hnet]].
    destruct (replied_keeps r w) as (A & B & C & D & E & F).
    unfold received, bind, ret. destruct (ok r) eqn:Hok; simpl.
    + exists (Some (scrape (text r))). eexists. split; [reflexivity |].
      simpl. repeat split; try assumption. right. exists r. auto.
    + exists None, (replied r w). repeat split; try assumption. now left.
  - erewrite bind_throws;
      [| apply (fetchWithTimeout_rejected _ _ _ _ e); [lia | exact Hnet]].
    exists None, (rejected w). unfold ret. repeat split. now left.
Qed.

Lemma mapM_fetchEnhancedMetadata scrape : forall issues w,
  exists l w',
    mapM (fetchEnhancedMetadata scrape) issues w = (Done l, w') /\
    map fst l = issues /\
    net w' = net w /\ sent w' = sent w + List.length issues /\
    clock w' = clock w /\ ticks w' = ticks w.
Proof.
  induction issues as [| i issues IH]; intros w; simpl.
  - exists [], w. unfold ret. repeat split. lia.
  - destruct (fetchEnhancedMetadata_once scrape i w)
      as (m & w1 & E1 & N1 & S1 & C1 & T1 & _).
    destruct (IH w1) as (l & w2 & E2 & M2 & N2 & S2 & C2 & T2).
    exists ((i, m) :: l), w2.
    rewrite (bind_returns _ _ w _ w1 E1), (bind_returns _ _ w1 _ w2 E2).
    unfold ret. simpl. repeat split; try congruence. lia.
Qed.

(** ** The feed *)

Lemma issueIdMatch_shape : forall link g,
  issueIdMatch link = Some g ->
  truthy g = true /\ allDigits g = true /\
  exists before, link = before ++ String slash g.
Proof.
  induction link as [| c t IH]; intros g H; simpl in H; [discriminate |].
  destruct (Ascii.eqb c slash && truthy t && allDigits t) eqn:E.
  - injection H as H. subst g.
    apply andb_prop in E. destruct E as [E D].
    apply andb_prop in E. destruct E as [C T].
    apply Ascii.eqb_eq in C. subst c.
    repeat split; try assumption. exists EmptyString. reflexivity.
  - destruct (IH g H) as (T & D & before & B).
    repeat split; try assumption.
    exists (String c before). simpl. now rewrite B.
Qed.

(** What every record read off the feed satisfies. *)
Definition fromFeed (wcagCriteria criteriaName level : string) (c : collected) : Prop :=
  enhanced c = None /\
  Collector.wcagCriteria (basic c) = wcagCriteria /\
  wcagCriteriaName c = criteriaName /\
  conformanceLevel c = level /\
  truthy (issueId (basic c)) = true /\
  allDigits (issueId (basic c)) = true /\
  exists before, url (basic c) = before ++ String slash (issueId (basic c)).

(** A step that leaves the network alone. *)
Definition offline (w w' : world) : Prop :=
  net w' = net w /\ sent w' = sent w /\ pauses w' = pauses w.

Lemma offline_refl w : offline w w.
Proof. repeat split. Qed.

Lemma offline_trans w1 w2 w3 : offline w1 w2 -> offline w2 w3 -> offline w1 w3.
Proof.
  intros (A & B & C) (A' & B' & C'). repeat split; congruence.
Qed.

Lemma mapM_offline {S T} (f : S -> M T) (P : T -> Prop) :
  (forall x w, exists y w', f x w = (Done y, w') /\ offline w w' /\ P y) ->
  forall l w, exists ys w',
    mapM f l w = (Done ys, w') /\ offline w w' /\ Forall P ys /\
    List.length ys = List.length l.
Proof.
  intros Hf. induction l as [| x l IH]; intros w; simpl.
  - exists [], w. unfold ret. repeat split. constructor.
  - destruct (Hf x w) as (y & w1 & E1 & O1 & P1).
    destruct (IH w1) as (ys & w2 & E2 & O2 & P2 & L2).
    exists (y :: ys), w2.
    rewrite (bind_returns _ _ w _ w1 E1), (bind_returns _ _ w1 _ w2 E2).
    unfold ret. repeat split; try apply (offline_trans w w1 w2); try assumption.
    + now constructor.
    + simpl. now rewrite L2.
Qed.

Lemma rssItem_pushes code name level item w :
  exists l w',
    rssItem code name level item w = (Done l, w') /\ offline w w' /\
    (List.length l <= 1 /\ Forall (fromFeed code name level) l).
Proof.
  unfold rssItem.
  destruct (matchBetween "<title>" "</title>" item) as [t |];
    [| exists [], w; unfold ret; repeat split; auto].
  destruct (matchBetween "<link>" "</link>" item) as [u |];
    [| exists [], w; unfold ret; repeat split; auto].
  destruct (issueIdMatch u) as [g |] eqn:E;
    [| exists [], w; unfold ret; repeat split; auto].
  destruct (issueIdMatch_shape u g E) as (T & D & B).
  rewrite T. unfold bind, now, ret. simpl.
  eexists. eexists. split; [reflexivity |].
  split; [repeat split |]. split; [simpl; lia |].
  constructor; [| constructor]. repeat split; assumption.
Qed.

Lemma Forall_concat {T} (P : T -> Prop) (ls : list (list T)) :
  Forall (Forall P) ls -> Forall P (concat ls).
Proof.
  induction 1 as [| l ls H _ IH]; simpl; [constructor |].
  apply Forall_app. now split.
Qed.

Lemma length_concat_le {T} (ls : list (list T)) :
  Forall (fun l => List.length l <= 1) ls ->
  List.length (concat ls) <= List.length ls.
Proof.
  induction 1 as [| l ls H _ IH]; simpl; [lia |].
  rewrite length_app. lia.
Qed.

Lemma parseIssuesFromRSS_reads rssText code name level w :
  exists l w',
    parseIssuesFromRSS rssText code name level w = (Done l, w') /\ offline w w' /\
    (includesStr rssText "<rss" = false -> l = []) /\
    List.length l <= List.length (tl (splitOn "<item>" rssText)) /\
    Forall (fromFeed code name level) l.
Proof.
  unfold parseIssuesFromRSS.
  destruct (includesStr rssText "<rss") eqn:E; simpl.
  - destruct (mapM_offline (rssItem code name level)
                (fun l => List.length l <= 1 /\ Forall (fromFeed code name level) l)
                (rssItem_pushes code name level)
                (tl (splitOn "<item>" rssText)) w)
      as (ys & w1 & E1 & O1 & P1 & L1).
    exists (concat ys), w1.
    rewrite (bind_returns _ _ w _ w1 E1). unfold ret.
    split; [reflexivity |]. split; [exact O1 |].
    split; [discriminate |]. split.
    + rewrite <- L1. apply length_concat_le.
      eapply Forall_impl; [| exact P1]. now intros a [H _].
    + apply Forall_concat. eapply Forall_impl; [| exact P1]. now intros a [_ H].
  - exists [], w. unfold ret. repeat split; auto. simpl. lia.
Qed.

(** ** The paths through extractIssuesFromCriteria *)

Section RunFacts.

Variable exec : pattern -> string -> list (list string).
Variable scrape : string -> Meta.t.
Variables code name level : string.

(** The search page arrived: one record per parsed issue. *)
Lemma extractBody_page again a w r :
  net w (sent w) = Responded r -> ok r = true ->
  exists l w',
    extractBody exec scrape again code name level a w = (Done l, w') /\
    map basic l
    = parseIssuesFromHTML exec projectMatch (fun n => clock w (ticks w + n))
        (text r) code /\
    Forall (fun c => wcagCriteriaName c = name /\ conformanceLevel c = level) l /\
    net w' = net w /\ sent w' = S (sent w) + List.length l.
Proof.
  intros Hnet Hok. unfold extractBody, tryCatch.
  erewrite bind_returns; [| apply fetchWithTimeout_replied; [lia | exact Hnet]].
  destruct (replied_keeps r w) as (A & B & C & D & E & F).
  cbv beta. rewrite received_some, Hok. cbn [negb].
  erewrite bind_returns; [| reflexivity]. rewrite D, E.
  set (issues := parseIssuesFromHTML exec projectMatch
                   (fun n => clock w (ticks w + n)) (text r) code).
  set (w2 := mkWorld _ _ _ _ _ _ _).
  destruct (Nat.ltb 0 (List.length issues)) eqn:L.
  - destruct (mapM_fetchEnhancedMetadata scrape issues w2)
      as (l & w3 & E3 & M3 & N3 & S3 & _).
    rewrite (bind_returns _ _ w2 _ w3 E3). unfold ret.
    eexists. exists w3. split; [reflexivity |].
    split; [now rewrite map_map |]. split.
    + apply Forall_forall. intros c Hc. apply in_map_iff in Hc.
      destruct Hc as (e & <- & _). now split.
    + split; [rewrite N3; exact A |].
      rewrite S3, length_map. subst w2. simpl. rewrite B.
      f_equal. rewrite <- M3. now rewrite length_map.
  - exists [], w2. unfold ret. split; [reflexivity |].
    apply Nat.ltb_ge in L. destruct issues as [| x xs]; [| simpl in L; lia].
    repeat split; try constructor; subst w2; cbn [net sent List.length];
      [exact A | rewrite B; lia].
Qed.

(** The search request answered with an error other than 403. *)
Lemma extractBody_error again a w r :
  net w (sent w) = Responded r -> ok r = false -> status r <> 403 ->
  extractBody exec scrape again code name level a w = (Done [], replied r w).
Proof.
  intros Hnet Hok Hs. unfold extractBody, tryCatch.
  erewrite bind_returns; [| apply fetchWithTimeout_replied; [lia | exact Hnet]].
  cbv beta. rewrite received_some, Hok.
  apply Nat.eqb_neq in Hs. rewrite Hs. reflexivity.
Qed.

(** The search request rejected. *)
Lemma extractBody_rejected again a w e :
  net w (sent w) = Rejected e ->
  extractBody exec scrape again code name level a w = (Done [], rejected w).
Proof.
  intros Hnet. unfold extractBody, tryCatch.
  erewrite bind_throws;
    [| apply (fetchWithTimeout_rejected _ _ _ _ e); [lia | exact Hnet]].
  reflexivity.
Qed.

Lemma forbidden_not_ok r : status r = 403 -> ok r = false.
Proof. intros H. unfold ok. now rewrite H. Qed.

(** Search answered 403 and the feed arrived. *)
Lemma extractBody_feed again a w r1 r2 :
  net w (sent w) = Responded r1 -> status r1 = 403 ->
  net w (S (sent w)) = Responded r2 -> ok r2 = true ->
  extractBody exec scrape again code name level a w
  = parseIssuesFromRSS (text r2) code name level (replied r2 (replied r1 w)).
Proof.
  intros H1 S1 H2 O2. unfold extractBody, tryCatch.
  erewrite bind_returns; [| apply fetchWithTimeout_replied; [lia | exact H1]].
  destruct (replied_keeps r1 w) as (A & B & _).
  cbv beta. rewrite received_some, (forbidden_not_ok r1 S1), S1.
  cbn [negb]. rewrite Nat.eqb_refl.
  erewrite bind_returns;
    [| apply fetchWithTimeout_replied; [lia | rewrite A, B; exact H2]].
  cbv beta. rewrite received_some, O2.
  destruct (parseIssuesFromRSS_reads (text r2) code name level
              (replied r2 (replied r1 w))) as (l & w' & E & _).
  now rewrite E.
Qed.

(** Search answered 403 and the feed answered with an error. *)
Lemma extractBody_blocked again a w r1 r2 :
  net w (sent w) = Responded r1 -> status r1 = 403 ->
  net w (S (sent w)) = Responded r2 -> ok r2 = false ->
  extractBody exec scrape again code name level a w
  = tryCatch
      (if Nat.leb a 3
       then delay (mkPause (getRetryDelay a * 60 * 1000) 0) ;; again (S a)
       else ret [])
      (fun _ => ret []) (replied r2 (replied r1 w)).
Proof.
  intros H1 S1 H2 O2. unfold extractBody. unfold tryCatch at 1.
  erewrite bind_returns; [| apply fetchWithTimeout_replied; [lia | exact H1]].
  destruct (replied_keeps r1 w) as (A & B & _).
  cbv beta. rewrite received_some, (forbidden_not_ok r1 S1), S1.
  cbn [negb]. rewrite Nat.eqb_refl.
  erewrite bind_returns;
    [| apply fetchWithTimeout_replied; [lia | rewrite A, B; exact H2]].
  cbv beta. rewrite received_some, O2. reflexivity.
Qed.

End RunFacts.

Lemma extractIssues_fuel_body exec scrape fuel code name level a :
  extractIssues_fuel exec scrape fuel code name level a
  = extractBody exec scrape
      (fun next =>
         match fuel with
         | O => ret []
         | S fuel' => extractIssues_fuel exec scrape fuel' code name level next
         end)
      code name level a.
Proof. destruct fuel; reflexivity. Qed.

(** Two bodies agree when their self-calls agree wherever one is made. *)
Lemma extractBody_again exec scrape again1 again2 code name level a w :
  (a <= 3 -> forall w', again1 (S a) w' = again2 (S a) w') ->
  extractBody exec scrape again1 code name level a w
  = extractBody exec scrape again2 code name level a w.
Proof.
  intros H. unfold extractBody. apply tryCatch_ext.
  apply bind_ext. intros r w1. apply bind_ext. intros response w2.
  destruct (negb (ok response)); [| reflexivity].
  destruct (Nat.eqb (status response) 403); [| reflexivity].
  apply bind_ext. intros r' w3. apply bind_ext. intros rssResponse w4.
  destruct (ok rssResponse); [reflexivity |].
  destruct (Nat.leb a 3) eqn:L; [| reflexivity].
  apply Nat.leb_le in L. apply bind_ext. intros _ w5. exact (H L w5).
Qed.

Lemma fuel_is_enough exec scrape code name level : forall fuel a w,
  4 - a <= fuel ->
  extractIssues_fuel exec scrape fuel code name level a w
  = extractIssues_fuel exec scrape (4 - a) code name level a w.
Proof.
  induction fuel as [| fuel IH]; intros a w H.
  - replace (4 - a) with 0 by lia. reflexivity.
  - rewrite !extractIssues_fuel_body. apply extractBody_again.
    intros La w'. destruct (4 - a) as [| k] eqn:K; [lia |].
    rewrite (IH (S a) w') by lia.
    replace (4 - S a) with k by lia. reflexivity.
Qed.

(** Search answered 403 and the request for the feed was rejected. *)
Lemma extractBody_feed_rejected exec scrape again code name level a w r1 e :
  net w (sent w) = Responded r1 -> status r1 = 403 ->
  net w (S (sent w)) = Rejected e ->
  extractBody exec scrape again code name level a w
  = (Done [], rejected (replied r1 w)).
Proof.
  intros H1 S1 H2. unfold extractBody, tryCatch.
  erewrite bind_returns; [| apply fetchWithTimeout_replied; [lia | exact H1]].
  destruct (replied_keeps r1 w) as (A & B & _).
  cbv beta. rewrite received_some, (forbidden_not_ok r1 S1), S1.
  cbn [negb]. rewrite Nat.eqb_refl.
  erewrite bind_throws;
    [| apply (fetchWithTimeout_rejected _ _ _ _ e); [lia | rewrite A, B; exact H2]].
  reflexivity.
Qed.

(** What every record of a criterion carries. *)
Definition tagged (code name level : string) (c : collected) : Prop :=
  Collector.wcagCriteria (basic c) = code /\
  wcagCriteriaName c = name /\ conformanceLevel c = level.

Lemma parse_records_carry_code exec projectOfUrl clock html code r :
  In r (parseIssuesFromHTML exec projectOfUrl clock html code) ->
  Collector.wcagCriteria r = code.
Proof.
  assert (C : consistent code (overPatterns exec projectOfUrl clock code html
                                 issuePatterns ([], []))).
  { apply patterns_consistent. repeat split; simpl; [constructor | tauto]. }
  destruct C as (_ & _ & H). apply H.
Qed.

Lemma extractBody_tagged exec scrape again code name level :
  (forall n w, exists l w', again n w = (Done l, w') /\ Forall (tagged code name level) l) ->
  forall a w, exists l w',
    extractBody exec scrape again code name level a w = (Done l, w') /\
    Forall (tagged code name level) l.
Proof.
  intros Hagain a w.
  destruct (net w (sent w)) as [r1 | e] eqn:H1;
    [| exists [], (rejected w); split;
       [apply (extractBody_rejected _ _ _ _ _ _ _ _ e H1) | constructor]].
  destruct (ok r1) eqn:O1.
  - destruct (extractBody_page exec scrape code name level again a w r1 H1 O1)
      as (l & w' & E & Hmap & Hnl & _).
    exists l, w'. split; [exact E |].
    apply Forall_forall. intros c Hc. split.
    + apply (parse_records_carry_code exec projectMatch
               (fun n => clock w (ticks w + n)) (text r1) code).
      rewrite <- Hmap. now apply in_map.
    + rewrite Forall_forall in Hnl. now apply Hnl.
  - destruct (Nat.eq_dec (status r1) 403) as [S1 | S1];
      [| exists [], (replied r1 w); split;
         [now apply extractBody_error | constructor]].
    destruct (net w (S (sent w))) as [r2 | e] eqn:H2;
      [| exists [], (rejected (replied r1 w)); split;
         [now apply (extractBody_feed_rejected _ _ _ _ _ _ _ _ _ e) | constructor]].
    destruct (ok r2) eqn:O2.
    + rewrite (extractBody_feed exec scrape code name level again a w r1 r2 H1 S1 H2 O2).
      destruct (parseIssuesFromRSS_reads (text r2) code name level
                  (replied r2 (replied r1 w))) as (l & w' & E & _ & _ & _ & F).
      exists l, w'. split; [exact E |].
      eapply Forall_impl; [| exact F].
      intros c (_ & A & B & C & _). now repeat split.
    + rewrite (extractBody_blocked exec scrape code name level again a w r1 r2 H1 S1 H2 O2).
      unfold tryCatch. destruct (Nat.leb a 3).
      * unfold bind, delay.
        match goal with |- context [again (S a) ?w0] =>
          destruct (Hagain (S a) w0) as (l & w' & E & F) end.
        exists l, w'. now rewrite E.
      * eexists. eexists. split; [reflexivity | constructor].
Qed.

Lemma extractIssues_fuel_tagged exec scrape code name level : forall fuel a w,
  exists l w',
    extractIssues_fuel exec scrape fuel code name level a w = (Done l, w') /\
    Forall (tagged code name level) l.
Proof.
  induction fuel as [| fuel IH]; intros a w; rewrite extractIssues_fuel_body;
    apply extractBody_tagged; intros n w0.
  - exists [], w0. split; [reflexivity | constructor].
  - apply IH.
Qed.

(** ** The cooling periods *)

Definition beforeRequest : pause := mkPause 1000 2000.

(** The waits of a run in which both addresses keep answering 403, from
    attempt [a] on, with [rounds] cooling periods still to come. *)
Fixpoint blockedPauses (rounds a : nat) : list pause :=
  beforeRequest :: beforeRequest ::
  match rounds with
  | O => []
  | S k => mkPause (getRetryDelay a * 60 * 1000) 0 :: blockedPauses k (S a)
  end.

Lemma blocked_rounds exec scrape code name level : forall fuel a w,
  fuel = 4 - a ->
  (forall n, exists r, net w n = Responded r /\ status r = 403) ->
  exists w',
    extractIssues_fuel exec scrape fuel code name level a w = (Done [], w') /\
    sent w' = sent w + 2 * S fuel /\
    pauses w' = (pauses w ++ blockedPauses fuel a)%list.
Proof.
  induction fuel as [| fuel IH]; intros a w Hf Hnet;
    destruct (Hnet (sent w)) as (r1 & H1 & S1);
    destruct (Hnet (S (sent w))) as (r2 & H2 & S2);
    rewrite extractIssues_fuel_body;
    rewrite (extractBody_blocked exec scrape code name level _ a w r1 r2 H1 S1 H2
               (forbidden_not_ok r2 S2));
    destruct (replied_keeps r1 w) as (A1 & B1 & C1 & _);
    destruct (replied_keeps r2 (replied r1 w)) as (A2 & B2 & C2 & _).
  - replace (Nat.leb a 3) with false by (symmetry; apply Nat.leb_gt; lia).
    exists (replied r2 (replied r1 w)). split; [reflexivity |].
    rewrite B2, B1, C2, C1, <- app_assoc. split; [lia | reflexivity].
  - replace (Nat.leb a 3) with true by (symmetry; apply Nat.leb_le; lia).
    unfold tryCatch, bind, delay.
    match goal with |- context [extractIssues_fuel _ _ _ _ _ _ _ ?w0] =>
      destruct (IH (S a) w0) as (w' & E & Hs & Hp);
        [lia | cbn [net]; rewrite A2, A1; exact Hnet |] end.
    exists w'. rewrite E. split; [reflexivity |].
    cbn [sent pauses] in Hs, Hp. rewrite Hs, Hp, B2, B1, C2, C1.
    split; [lia |].
    cbn [blockedPauses]. rewrite <- !app_assoc. reflexivity.
Qed.

(** ** Worlds and pages used as concrete inputs *)

Definition reply (code : nat) (body : string) : response :=
  mkResponse code "reply" None body NoCandidate.

Definition answering (r : response) : world :=
  mkWorld (fun _ => Responded r) 0 [] (fun _ => "2025-05-13T20:58:00.000Z") 0 0
    EmptyString.

Definition unreachable : world :=
  mkWorld (fun _ => Rejected (mkError "TypeError" "fetch failed")) 0 []
    (fun _ => "2025-05-13T20:58:00.000Z") 0 0 EmptyString.

(** An engine that finds one project issue link on every page. *)
Definition oneLink (p : pattern) (html : string) : list (list string) :=
  match p with
  | ProjectIssueLink =>
    [ [ html; "/project/drupal/issues/3001"; "drupal"; "3001"; "Missing alt text" ] ]
  | _ => []
  end.

Definition noMetadata (html : string) : Meta.t :=
  Meta.mk EmptyString EmptyString EmptyString EmptyString EmptyString EmptyString
    EmptyString "0" "No" EmptyString.

(** X4. fetchWithTimeout returns the reply to its first request as it is,
    whatever the status: it sends one request, waits once before it and
    counts one more call; no status code makes it try again. *)
Theorem first_reply_returned_as_is :
  forall (address : string) (timeoutMs : Z) (retries : nat) (w : world)
         (r : response),
    1 <= retries ->
    net w (sent w) = Responded r ->
    exists w',
      fetchWithTimeout address timeoutMs retries w = (Done (Some r), w') /\
      sent w' = S (sent w) /\
      pauses w' = (pauses w ++ [mkPause 1000 2000])%list /\
      requestCount w' = S (requestCount w).
Proof.
  intros address timeoutMs retries w r Hr Hnet.
  exists (replied r w). split; [now apply fetchWithTimeout_replied |].
  destruct (replied_keeps r w) as (_ & B & C & _ & _ & F). now repeat split.
Qed.

Lemma first_reply_returned_as_is_witness :
  exists w',
    fetchWithTimeout "https://www.drupal.org/" 10000 1 (answering (reply 503 "busy"))
    = (Done (Some (reply 503 "busy")), w') /\
    sent w' = 1 /\
    pauses w' = [mkPause 1000 2000] /\
    requestCount w' = 1.
Proof.
  apply (first_reply_returned_as_is "https://www.drupal.org/" 10000 1
           (answering (reply 503 "busy")) (reply 503 "busy"));
    [lia | reflexivity].
Defined.

(** X5. fetchEnhancedMetadata never throws: whatever the network does it
    sends exactly one request and returns the issue it was given, with
    metadata only when that request was answered with an ok status, and
    then the metadata read off that reply's body. *)
Theorem metadata_fetch_returns_the_issue :
  forall (scrape : string -> Meta.t) (i : issue) (w : world),
    exists m w',
      fetchEnhancedMetadata scrape i w = (Done (i, m), w') /\
      sent w' = S (sent w) /\
      (m = None \/
       exists r, net w (sent w) = Responded r /\ ok r = true /\
                 m = Some (scrape (text r))).
Proof.
  intros scrape i w.
  destruct (fetchEnhancedMetadata_once scrape i w)
    as (m & w' & E & _ & S1 & _ & _ & H).
  exists m, w'. now repeat split.
Qed.

(** X6. When the search request is answered with an ok status,
    extractIssuesFromCriteria returns one record per issue parsed off the
    page, in page order, each with the name and level of the criterion,
    and it has sent one request for the page and one per issue, whether
    or not the issue pages could be read. *)
Theorem search_page_one_record_per_issue :
  forall (exec : pattern -> string -> list (list string))
         (scrape : string -> Meta.t) (code name level : string)
         (attemptNumber : nat) (w : world) (r : response),
    net w (sent w) = Responded r ->
    ok r = true ->
    exists l w',
      extractIssuesFromCriteria exec scrape code name level attemptNumber w
      = (Done l, w') /\
      map basic l
      = parseIssuesFromHTML exec projectMatch (fun n => clock w (ticks w + n))
          (text r) code /\
      (forall c, In c l -> wcagCriteriaName c = name /\ conformanceLevel c = level) /\
      sent w' = S (sent w) + List.length l.
Proof.
  intros exec scrape code name level a w r Hnet Hok.
  unfold extractIssuesFromCriteria. rewrite extractIssues_fuel_body.
  destruct (extractBody_page exec scrape code name level
              (fun next =>
                 match 4 - a with
                 | O => ret []
                 | S fuel' => extractIssues_fuel exec scrape fuel' code name level next
                 end) a w r Hnet Hok)
    as (l & w' & E & Hmap & Hnl & _ & Hs).
  exists l, w'. repeat split; try assumption;
    rewrite Forall_forall in Hnl; now apply Hnl.
Qed.

Lemma search_page_one_record_per_issue_witness :
  exists l w',
    extractIssuesFromCriteria oneLink noMetadata "1.1.1" "Non-text Content" "A" 1
      (answering (reply 200 "page"))
    = (Done l, w') /\
    map basic l
    = parseIssuesFromHTML oneLink projectMatch
        (fun n => clock (answering (reply 200 "page")) (0 + n)) "page" "1.1.1" /\
    (forall c, In c l ->
               wcagCriteriaName c = "Non-text Content" /\ conformanceLevel c = "A") /\
    sent w' = 1 + List.length l.
Proof.
  apply (search_page_one_record_per_issue oneLink noMetadata "1.1.1"
           "Non-text Content" "A" 1 (answering (reply 200 "page"))
           (reply 200 "page")); reflexivity.
Defined.

(** X7. A search request answered with an error status other than 403
    ends the criterion at once: the result is empty after that single
    request, with no fallback to the feed and no cooling period. *)
Theorem search_error_ends_criterion :
  forall (exec : pattern -> string -> list (list string))
         (scrape : string -> Meta.t) (code name level : string)
         (attemptNumber : nat) (w : world) (r : response),
    net w (sent w) = Responded r ->
    ok r = false ->
    status r <> 403 ->
    exists w',
      extractIssuesFromCriteria exec scrape code name level attemptNumber w
      = (Done [], w') /\
      sent w' = S (sent w) /\
      pauses w' = (pauses w ++ [mkPause 1000 2000])%list.
Proof.
  intros exec scrape code name level a w r Hnet Hok Hs.
  unfold extractIssuesFromCriteria. rewrite extractIssues_fuel_body.
  rewrite (extractBody_error exec scrape code name level _ a w r Hnet Hok Hs).
  exists (replied r w). destruct (replied_keeps r w) as (_ & B & C & _).
  now repeat split.
Qed.

Lemma search_error_ends_criterion_witness :
  exists w',
    extractIssuesFromCriteria oneLink noMetadata "1.1.1" "Non-text Content" "A" 1
      (answering (reply 500 "down"))
    = (Done [], w') /\
    sent w' = 1 /\
    pauses w' = [mkPause 1000 2000].
Proof.
  apply (search_error_ends_criterion oneLink noMetadata "1.1.1" "Non-text Content"
           "A" 1 (answering (reply 500 "down")) (reply 500 "down"));
    [reflexivity | reflexivity | discriminate].
Defined.

(** X8. A search request that is rejected (connection failure, timeout)
    ends the criterion with an empty result after that single request and
    the first back-off wait, although three attempts are asked for. *)
Theorem rejected_search_ends_criterion :
  forall (exec : pattern -> string -> list (list string))
         (scrape : string -> Meta.t) (code name level : string)
         (attemptNumber : nat) (w : world) (e : error),
    net w (sent w) = Rejected e ->
    exists w',
      extractIssuesFromCriteria exec scrape code name level attemptNumber w
      = (Done [], w') /\
      sent w' = S (sent w) /\
      pauses w' = (pauses w ++ [mkPause 1000 2000; mkPause 5000 3000])%list.
Proof.
  intros exec scrape code name level a w e Hnet.
  unfold extractIssuesFromCriteria. rewrite extractIssues_fuel_body.
  rewrite (extractBody_rejected exec scrape code name level _ a w e Hnet).
  exists (rejected w). now repeat split.
Qed.

Lemma rejected_search_ends_criterion_witness :
  exists w',
    extractIssuesFromCriteria oneLink noMetadata "1.1.1" "Non-text Content" "A" 1
      unreachable
    = (Done [], w') /\
    sent w' = 1 /\
    pauses w' = [mkPause 1000 2000; mkPause 5000 3000].
Proof.
  apply (rejected_search_ends_criterion oneLink noMetadata "1.1.1"
           "Non-text Content" "A" 1 unreachable (mkError "TypeError" "fetch failed")).
  reflexivity.
Defined.

(** X9. parseIssuesFromRSS never throws and sends nothing.  A text
    without the rss tag gives no record; otherwise there is at most one
    record per item, none carries page metadata, and each has the
    criterion's code, name and level, a non-empty id made of digits, and
    an address that ends with a slash followed by that id. *)
Theorem feed_records_well_formed :
  forall (rssText code name level : string) (w : world),
    exists l w',
      parseIssuesFromRSS rssText code name level w = (Done l, w') /\
      sent w' = sent w /\
      (includesStr rssText "<rss" = false -> l = []) /\
      List.length l <= List.length (tl (splitOn "<item>" rssText)) /\
      (forall c, In c l ->
         enhanced c = None /\
         Collector.wcagCriteria (basic c) = code /\
         wcagCriteriaName c = name /\
         conformanceLevel c = level /\
         truthy (issueId (basic c)) = true /\
         allDigits (issueId (basic c)) = true /\
         exists before, url (basic c) = before ++ String slash (issueId (basic c))).
Proof.
  intros rssText code name level w.
  destruct (parseIssuesFromRSS_reads rssText code name level w)
    as (l & w' & E & (_ & S1 & _) & H0 & L & F).
  exists l, w'. repeat split; try assumption;
    rewrite Forall_forall in F; now apply F.
Qed.

(** X10. When the search request is answered 403 and the feed request
    with an ok status, the result is what parseIssuesFromRSS reads off
    the feed: two requests are sent and no issue page is requested. *)
Theorem forbidden_search_reads_feed :
  forall (exec : pattern -> string -> list (list string))
         (scrape : string -> Meta.t) (code name level : string)
         (attemptNumber : nat) (w : world) (r1 r2 : response),
    net w (sent w) = Responded r1 ->
    status r1 = 403 ->
    net w (S (sent w)) = Responded r2 ->
    ok r2 = true ->
    exists l w1 w',
      extractIssuesFromCriteria exec scrape code name level attemptNumber w
      = (Done l, w') /\
      parseIssuesFromRSS (text r2) code name level w1 = (Done l, w') /\
      sent w1 = sent w + 2 /\
      sent w' = sent w + 2.
Proof.
  intros exec scrape code name level a w r1 r2 H1 S1 H2 O2.
  unfold extractIssuesFromCriteria. rewrite extractIssues_fuel_body.
  rewrite (extractBody_feed exec scrape code name level _ a w r1 r2 H1 S1 H2 O2).
  destruct (parseIssuesFromRSS_reads (text r2) code name level
              (replied r2 (replied r1 w))) as (l & w' & E & (_ & S2 & _) & _).
  destruct (replied_keeps r1 w) as (_ & B1 & _).
  destruct (replied_keeps r2 (replied r1 w)) as (_ & B2 & _).
  exists l, (replied r2 (replied r1 w)), w'.
  repeat split; try assumption; rewrite ?S2, B2, B1; lia.
Qed.

Definition feedText : string :=
  "<rss><channel><title>Issues</title><item><title>Alt text &amp; captions</title><link>https://www.drupal.org/project/drupal/issues/3001</link></item></channel></rss>".

Definition forbiddenThenFeed : world :=
  mkWorld (fun n => match n with
                    | O => Responded (reply 403 "denied")
                    | S _ => Responded (reply 200 feedText)
                    end)
    0 [] (fun _ => "2025-05-13T20:58:00.000Z") 0 0 EmptyString.

Lemma forbidden_search_reads_feed_witness :
  exists l w1 w',
    extractIssuesFromCriteria oneLink noMetadata "1.1.1" "Non-text Content" "A" 1
      forbiddenThenFeed
    = (Done l, w') /\
    parseIssuesFromRSS feedText "1.1.1" "Non-text Content" "A" w1 = (Done l, w') /\
    sent w1 = 2 /\
    sent w' = 2.
Proof.
  apply (forbidden_search_reads_feed oneLink noMetadata "1.1.1" "Non-text Content"
           "A" 1 forbiddenThenFeed (reply 403 "denied") (reply 200 feedText));
    reflexivity.
Defined.

(** X11. When every request is answered 403, a criterion started at
    attempt 1 ends with an empty result after eight requests, two per
    round, and three cooling periods of 2, 5 and 20 minutes between the
    four rounds. *)
Theorem persistent_403_three_cooldowns :
  forall (exec : pattern -> string -> list (list string))
         (scrape : string -> Meta.t) (code name level : string) (w : world),
    (forall n, exists r, net w n = Responded r /\ status r = 403) ->
    exists w',
      extractIssuesFromCriteria exec scrape code name level 1 w = (Done [], w') /\
      sent w' = sent w + 8 /\
      pauses w'
      = (pauses w
         ++ [ mkPause 1000 2000; mkPause 1000 2000; mkPause 120000 0;
              mkPause 1000 2000; mkPause 1000 2000; mkPause 300000 0;
              mkPause 1000 2000; mkPause 1000 2000; mkPause 1200000 0;
              mkPause 1000 2000; mkPause 1000 2000 ])%list.
Proof.
  intros exec scrape code name level w Hnet.
  destruct (blocked_rounds exec scrape code name level 3 1 w eq_refl Hnet)
    as (w' & E & Hs & Hp).
  exists w'. split; [exact E |]. split; [exact Hs | exact Hp].
Qed.

Lemma persistent_403_three_cooldowns_witness :
  exists w',
    extractIssuesFromCriteria oneLink noMetadata "1.1.1" "Non-text Content" "A" 1
      (answering (reply 403 "denied"))
    = (Done [], w') /\
    sent w' = 8 /\
    pauses w'
    = [ mkPause 1000 2000; mkPause 1000 2000; mkPause 120000 0;
        mkPause 1000 2000; mkPause 1000 2000; mkPause 300000 0;
        mkPause 1000 2000; mkPause 1000 2000; mkPause 1200000 0;
        mkPause 1000 2000; mkPause 1000 2000 ].
Proof.
  apply (persistent_403_three_cooldowns oneLink noMetadata "1.1.1"
           "Non-text Content" "A" (answering (reply 403 "denied"))).
  intros n. exists (reply 403 "denied"). split; reflexivity.
Defined.

(** X12. extractIssuesFromCriteria never throws, whatever the network
    does and at whatever attempt it starts, and every record it returns
    carries the code, the name and the level of the criterion it was
    called for. *)
Theorem every_record_carries_its_criterion :
  forall (exec : pattern -> string -> list (list string))
         (scrape : string -> Meta.t) (code name level : string)
         (attemptNumber : nat) (w : world),
    exists l w',
      extractIssuesFromCriteria exec scrape code name level attemptNumber w
      = (Done l, w') /\
      forall c, In c l ->
        Collector.wcagCriteria (basic c) = code /\
        wcagCriteriaName c = name /\
        conformanceLevel c = level.
Proof.
  intros exec scrape code name level a w.
  destruct (extractIssues_fuel_tagged exec scrape code name level (4 - a) a w)
    as (l & w' & E & F).
  exists l, w'. split; [exact E |].
  rewrite Forall_forall in F. exact F.
Qed.

(** X13. extractIssuesFromCriteria calls itself at most 4 - attemptNumber
    deep: allowing it more nested calls than that changes neither its
    result nor what it does to the world. *)
Theorem self_calls_are_bounded :
  forall (exec : pattern -> string -> list (list string))
         (scrape : string -> Meta.t) (code name level : string)
         (fuel attemptNumber : nat) (w : world),
    4 - attemptNumber <= fuel ->
    extractIssues_fuel exec scrape fuel code name level attemptNumber w
    = extractIssuesFromCriteria exec scrape code name level attemptNumber w.
Proof.
  intros exec scrape code name level fuel a w H.
  unfold extractIssuesFromCriteria. now apply fuel_is_enough.
Qed.

Lemma self_calls_are_bounded_witness :
  extractIssues_fuel oneLink noMetadata 9 "1.1.1" "Non-text Content" "A" 1
    (answering (reply 403 "denied"))
  = extractIssuesFromCriteria oneLink noMetadata "1.1.1" "Non-text Content" "A" 1
      (answering (reply 403 "denied")).
Proof.
  apply (self_calls_are_bounded oneLink noMetadata "1.1.1" "Non-text Content" "A"
           9 1 (answering (reply 403 "denied"))).
  simpl. lia.
Defined.

(** ** The main loop *)

(** A record collected for one of the criteria of a table. *)
Definition fromTable (table : list Table.entry) (c : collected) : Prop :=
  exists e, In e table /\
    tagged (Table.code e) (Table.name e) (Table.level e) c.

Lemma criteriaStep_counts exec scrape table total st i e w :
  In e table ->
  Forall (fromTable table) (allIssues st) ->
  exists st' w',
    criteriaStep exec scrape total st (i, e) w = (Done st', w') /\
    Forall (fromTable table) (allIssues st') /\
    processedCount st' = S (processedCount st) /\
    blockedCount st' = blockedCount st /\
    successCount st <= successCount st' <= S (successCount st).
Proof.
  intros He Hst. unfold criteriaStep.
  destruct (extractIssues_fuel_tagged exec scrape (Table.code e) (Table.name e)
              (Table.level e) 3 1 w) as (l & w1 & E & F).
  change (extractIssues_fuel exec scrape 3 (Table.code e) (Table.name e)
            (Table.level e) 1)
    with (extractIssuesFromCriteria exec scrape (Table.code e) (Table.name e)
            (Table.level e) 1) in E.
  erewrite bind_returns.
  2:{ apply tryCatch_returns. rewrite (bind_returns _ _ w _ w1 E). reflexivity. }
  set (st' := if Nat.ltb 0 (List.length l) then _ else _).
  assert (H : Forall (fromTable table) (allIssues st') /\
              processedCount st' = S (processedCount st) /\
              blockedCount st' = blockedCount st /\
              successCount st <= successCount st' <= S (successCount st)).
  { subst st'. destruct (Nat.ltb 0 (List.length l)); cbn; repeat split; try lia;
      try assumption.
    apply Forall_app. split; [exact Hst |].
    eapply Forall_impl; [| exact F]. intros c Hc. now exists e. }
  unfold bind, delay, ret.
  destruct (Nat.ltb i (total - 1)); [| now exists st', w1].
  destruct (Nat.ltb 0 (successCount st') && Nat.eqb (successCount st' mod 5) 0);
    eexists; eexists; (split; [reflexivity | exact H]).
Qed.

Lemma foldM_criteriaStep exec scrape table total : forall indexed st w,
  Forall (fun ie => In (snd ie) table) indexed ->
  Forall (fromTable table) (allIssues st) ->
  exists st' w',
    foldM (criteriaStep exec scrape total) indexed st w = (Done st', w') /\
    Forall (fromTable table) (allIssues st') /\
    processedCount st' = processedCount st + List.length indexed /\
    blockedCount st' = blockedCount st /\
    successCount st' <= successCount st + List.length indexed.
Proof.
  induction indexed as [| [i e] indexed IH]; intros st w Hin Hst.
  - exists st, w. cbn. repeat split; try lia. exact Hst.
  - inversion Hin as [| ? ? He Hin']; subst. cbn [snd] in He.
    destruct (criteriaStep_counts exec scrape table total st i e w He Hst)
      as (st1 & w1 & E1 & F1 & P1 & B1 & S1).
    destruct (IH st1 w1 Hin' F1) as (st2 & w2 & E2 & F2 & P2 & B2 & S2).
    exists st2, w2. cbn [foldM]. rewrite (bind_returns _ _ w _ w1 E1).
    split; [exact E2 |]. cbn [List.length]. repeat split; try lia. exact F2.
Qed.

Lemma warmUp_returns w : exists w', warmUp w = (Done tt, w').
Proof.
  unfold warmUp, tryCatch, bind.
  destruct (fetchWithTimeout "https://www.drupal.org/" 10000 1 w) as [[[r |] | e] w1];
    unfold received, ret, throw, delay; [| eauto | eauto].
  destruct (ok r); eauto.
Qed.

(** X29. generateDetailedIssuesList never throws and never counts a
    criterion as blocked: extractIssuesFromCriteria swallows every error,
    so whatever the network does the loop ends with blockedCount 0 and
    processedCount equal to the number of criteria of the table, and
    every issue collected carries the code, name and level of one of the
    criteria of the table. *)
Theorem no_criterion_is_counted_blocked :
  forall (exec : pattern -> string -> list (list string))
         (scrape : string -> Meta.t) (w : world),
    exists t w',
      generateDetailedIssuesList exec scrape w = (Done t, w') /\
      blockedCount t = 0 /\
      processedCount t = List.length Table.wcagCriteria /\
      successCount t <= processedCount t /\
      forall c, In c (allIssues t) ->
        exists e, In e Table.wcagCriteria /\
          Collector.wcagCriteria (basic c) = Table.code e /\
          wcagCriteriaName c = Table.name e /\
          conformanceLevel c = Table.level e.
Proof.
  intros exec scrape w. unfold generateDetailedIssuesList.
  destruct (warmUp_returns w) as (w0 & E0).
  rewrite (bind_returns _ _ w tt w0 E0). unfold runCriteria.
  destruct (foldM_criteriaStep exec scrape Table.wcagCriteria
              (List.length Table.wcagCriteria)
              (combine (seq 0 (List.length Table.wcagCriteria)) Table.wcagCriteria)
              (mkTally [] 0 0 0) w0)
    as (t & w' & E & F & P & B & S).
  - apply Forall_forall. intros [i e] H. now apply in_combine_r in H.
  - constructor.
  - exists t, w'. split; [exact E |].
    rewrite length_combine, length_seq, Nat.min_id in P, S.
    cbn [processedCount blockedCount successCount Nat.add] in P, B, S.
    repeat split; try lia.
    intros c Hc. rewrite Forall_forall in F.
    destruct (F c Hc) as (e & He & T1 & T2 & T3).
    exists e. split; [exact He |]. split; [exact T1 |]. split; [exact T2 | exact T3].
Qed.

End CollectorRunFacts.

(* ===================================================================== *)
(** * Properties of the Collector's detailed report *)
(* ===================================================================== *)

Module CollectorReportFacts.
Import JS JSFacts Runtime Csv CsvFacts CsvRoundTrip Collector CollectorRun.

Lemma detailedHeaders_NoDup : NoDup detailedHeaders.
Proof.
  unfold detailedHeaders.
  repeat (constructor; [simpl; intuition discriminate |]). constructor.
Qed.

Section ReportFacts.

Variable localeCompare : string -> string -> Z.

Lemma insertIssue_perm c : forall l,
  Permutation (c :: l) (insertIssue localeCompare c l).
Proof.
  induction l as [| x l IH]; simpl; [apply Permutation_refl |].
  destruct (compareIssues localeCompare x c <=? 0)%Z.
  - eapply Permutation_trans; [apply perm_swap |]. now apply perm_skip.
  - apply Permutation_refl.
Qed.

Lemma sortIssues_perm_from l : forall acc,
  Permutation (l ++ acc)
    (fold_left (fun sorted c => insertIssue localeCompare c sorted) l acc).
Proof.
  induction l as [| c l IH]; intros acc; simpl; [apply Permutation_refl |].
  eapply Permutation_trans; [| apply IH].
  eapply Permutation_trans; [apply Permutation_middle |].
  apply Permutation_app_head, insertIssue_perm.
Qed.

Lemma sortIssues_perm l : Permutation l (sortIssues localeCompare l).
Proof.
  unfold sortIssues. rewrite <- (app_nil_r l) at 1. apply sortIssues_perm_from.
Qed.

End ReportFacts.

(** X14. The detailed report written by generateDetailedCSV is read back
    by parseCSV as one row per collected issue: the rows are those of the
    issues in sorted order, each pairing the sixteen column names with the
    trimmed fields, where a record without page metadata has empty text
    in the metadata columns, 0 comments and No fork; no issue is lost or
    added by the sort.  This holds when no field contains a line feed. *)
Theorem detailed_report_read_back :
  forall (localeCompare : string -> string -> Z) (allIssues : list collected),
    (forall c f, In c allIssues -> In f (detailedRow c) ->
                 hasChar lineFeed f = false) ->
    parseCSV (generateDetailedCSV localeCompare allIssues)
    = Done (map (fun c => combine detailedHeaders (map trim (detailedRow c)))
              (sortIssues localeCompare allIssues)) /\
    Permutation allIssues (sortIssues localeCompare allIssues).
Proof.
  intros localeCompare allIssues Hlf.
  split; [| apply sortIssues_perm].
  assert (Hin : forall c, In c (sortIssues localeCompare allIssues) -> In c allIssues).
  { intros c H. eapply Permutation_in; [| exact H].
    apply Permutation_sym, sortIssues_perm. }
  unfold generateDetailedCSV, parseCSV.
  rewrite <- (map_map detailedRow writeLine).
  rewrite nonBlank_written; [| reflexivity | reflexivity |].
  - rewrite parseCSV_loop_filter. cbn [app]. f_equal.
    rewrite written_records_parse;
      [| apply headerFields_not_nil
       | intros r Hr; apply in_map_iff in Hr; destruct Hr as (c & <- & _);
         reflexivity].
    rewrite map_map. apply map_ext. intros c.
    change (headerFields (String.concat "," detailedHeaders)) with detailedHeaders.
    apply mkRow_combine; [apply detailedHeaders_NoDup |].
    now rewrite length_map.
  - intros r Hr. apply in_map_iff in Hr. destruct Hr as (c & <- & Hc). split.
    + intros f Hf. apply (Hlf c f); [now apply Hin | exact Hf].
    + apply written_not_blank. simpl. lia.
Qed.

(** A collation by code units, and two collected issues, as concrete
    input. *)
Definition byCodeUnits (a b : string) : Z :=
  match String.compare a b with
  | Lt => (-1)%Z
  | Eq => 0%Z
  | Gt => 1%Z
  end.

Definition sampleIssues : list collected :=
  [ mkCollected
      (mkIssue "1.4.3" "3002" "Low contrast, in Claro" 
         "https://www.drupal.org/project/drupal/issues/3002" "drupal"
         "2025-05-13T20:58:00.000Z")
      "Contrast (Minimum)" "AA" None;
    mkCollected
      (mkIssue "1.1.1" "3001" "Missing alt text"
         "https://www.drupal.org/project/drupal/issues/3001" "drupal"
         "2025-05-13T20:58:00.000Z")
      "Non-text Content" "A"
      (Some (Meta.mk "Active" "Normal" "media system" "11.x-dev" "someone"
               "2019-10-12" "2025-05-13" "4" "Yes" "someone else")) ].

Lemma detailed_report_read_back_witness :
  parseCSV (generateDetailedCSV byCodeUnits sampleIssues)
  = Done (map (fun c => combine detailedHeaders (map trim (detailedRow c)))
            (sortIssues byCodeUnits sampleIssues)) /\
  Permutation sampleIssues (sortIssues byCodeUnits sampleIssues).
Proof.
  apply (detailed_report_read_back byCodeUnits sampleIssues).
  intros c f [<- | [<- | []]] Hf; simpl in Hf;
    repeat (destruct Hf as [<- | Hf]; [reflexivity |]); destruct Hf.
Defined.

End CollectorReportFacts.

(* ===================================================================== *)
(** * Properties of the Summarizer *)
(* ===================================================================== *)

Module SummarizerFacts.
Import JS JSFacts Regex RegexFacts Runtime Summarizer.
Open Scope js_scope.

(** A reply with an ok status at the first attempt is parsed, and the
    parse is what the call returns. *)
Lemma generateSummaries_parses key w r responseText :
  truthyOpt key = true ->
  net w (sent w) = Responded r -> ok r = true ->
  json r = CandidateText responseText ->
  fst (generateSummaries key w) = Done (parseResponseText responseText).
Proof.
  intros Hkey Hnet Hok Hjson.
  unfold generateSummaries. rewrite Hkey. cbn [negb].
  unfold tryCatch, bind, fetchWithRetry.
  cbn [attempts seq fetchWithRetry_loop refusal].
  unfold tryCatch, bind, request. rewrite Hnet, Hok.
  unfold ret. cbn [json]. rewrite Hjson. reflexivity.
Qed.

(** C8. For every response text, each of the four fields holds the section
    of its label: the text after the leftmost label up to the next label
    or the end of the text, trimmed; and when the label is absent the field
    is the fixed placeholder, so a text without DEVELOPER_NOTE: gives
    Unable to generate developer note.  The parse is a total function of
    the text, and a call whose reply carries the text returns the parse:
    no text makes it throw. *)
Theorem sections_extracted_or_placeholder :
  forall responseText : string,
    extracted "ACR_NOTE:" (Some "DEVELOPER_NOTE:") "Unable to generate ACR note"
      responseText (acrNote (parseResponseText responseText)) /\
    extracted "DEVELOPER_NOTE:" (Some "TITLE_ASSESSMENT:")
      "Unable to generate developer note"
      responseText (developerNote (parseResponseText responseText)) /\
    extracted "TITLE_ASSESSMENT:" (Some "WCAG_ASSESSMENT:") "Unable to assess title"
      responseText (titleAssessment (parseResponseText responseText)) /\
    (exists field,
       wcagAssessment (parseResponseText responseText) = Some field /\
       extracted "WCAG_ASSESSMENT:" None "Unable to assess WCAG classification"
         responseText field) /\
    (~ occurs "DEVELOPER_NOTE:" responseText ->
     developerNote (parseResponseText responseText)
     = "Unable to generate developer note") /\
    (forall key w r,
       truthyOpt key = true ->
       net w (sent w) = Responded r -> ok r = true ->
       json r = CandidateText responseText ->
       fst (generateSummaries key w) = Done (parseResponseText responseText)).
Proof.
  intros txt. unfold parseResponseText at 1 2 3 4 5.
  cbn [acrNote developerNote titleAssessment wcagAssessment].
  assert (D : extracted "DEVELOPER_NOTE:" (Some "TITLE_ASSESSMENT:")
                "Unable to generate developer note" txt
                (fieldOf (matchSection "DEVELOPER_NOTE:" (Some "TITLE_ASSESSMENT:") txt)
                   "Unable to generate developer note"))
    by (apply matchSection_extracted_next; reflexivity).
  split; [apply matchSection_extracted_next; reflexivity |].
  split; [exact D |].
  split; [apply matchSection_extracted_next; reflexivity |].
  split; [eexists; split; [reflexivity | apply matchSection_extracted] |].
  split; [apply D |].
  intros key w r. apply generateSummaries_parses.
Qed.

(** A reply without the developer section, parsed. *)
Example reply_without_developer_note :
  parseResponseText
    ("ACR_NOTE: Affects people without vision. "
     ++ "TITLE_ASSESSMENT: TITLE_OK: Current title accurately reflects the issue "
     ++ "WCAG_ASSESSMENT: WCAG_AGREE: wcag111")
  = mkSummaries
      ("Affects people without vision. "
       ++ "TITLE_ASSESSMENT: TITLE_OK: Current title accurately reflects the issue "
       ++ "WCAG_ASSESSMENT: WCAG_AGREE: wcag111")
      "Unable to generate developer note"
      "TITLE_OK: Current title accurately reflects the issue"
      (Some "WCAG_AGREE: wcag111").
Proof. vm_compute. reflexivity. Qed.

End SummarizerFacts.

(* ===================================================================== *)
(** * Properties of the Summarizer's run over the issues *)
(* ===================================================================== *)

Module SummarizerRunFacts.
Import JS JSFacts Runtime RuntimeFacts Csv CsvFacts CsvRoundTrip Summarizer
  SummarizerRun.
Open Scope js_scope.

(** [w'] is [w] after [n] more requests; network and clock are the same. *)
Definition later (n : nat) (w w' : world) : Prop :=
  net w' = net w /\ sent w' = sent w + n /\
  clock w' = clock w /\ ticks w' = ticks w.

Lemma later_trans n m w1 w2 w3 :
  later n w1 w2 -> later m w2 w3 -> later (n + m) w1 w3.
Proof.
  intros (A & B & C & D) (A' & B' & C' & D').
  repeat split; try congruence. lia.
Qed.

(** One pass through the loop of fetchWithRetry. *)
Definition attemptOnce (target : address) (attempt retries : nat)
    : M (flow (option response)) :=
  tryCatch
    (response <-
       match refusal target with
       | Some refused => throw refused
       | None => request
       end ;;
     if ok response then ret (Return (Some response))
     else if Nat.eqb (status response) 429 then
       delay (mkPause (2 ^ Z.of_nat attempt * 1000) 0) ;;
       ret Continue
     else if Nat.leb 400 (status response) then
       throw (mkError "Error"
                ("HTTP " ++ decimal (status response) ++ ": " ++ text response))
     else ret Continue)
    (fun error =>
       if Nat.eqb attempt retries then throw error
       else
         delay (mkPause (1000 * Z.of_nat attempt) 0) ;;
         ret Continue).

Lemma fetchWithRetry_loop_cons target attempt rest retries :
  fetchWithRetry_loop target (attempt :: rest) retries
  = (step <- attemptOnce target attempt retries ;;
     match step with
     | Return v => ret v
     | Continue => fetchWithRetry_loop target rest retries
     end).
Proof. reflexivity. Qed.

(** With an address that is accepted, a pass sends one request, and leaves the
    loop with a reply only when that reply is ok. *)
Lemma attemptOnce_sends attempt retries w :
  exists o w',
    attemptOnce Reachable attempt retries w = (o, w') /\ later 1 w w' /\
    forall v, o = Done (Return v) ->
      exists r, v = Some r /\ ok r = true /\ net w (sent w) = Responded r.
Proof.
  unfold attemptOnce, refusal, tryCatch, bind, request.
  destruct (net w (sent w)) as [r | e] eqn:Hnet.
  - destruct (ok r) eqn:Hok.
    + eexists. eexists. split; [reflexivity |]. split.
      * repeat split. simpl. lia.
      * intros v H. injection H as <-. now exists r.
    + destruct (Nat.eqb (status r) 429).
      * eexists. eexists. split; [reflexivity |]. split.
        -- repeat split. simpl. lia.
        -- discriminate.
      * destruct (Nat.leb 400 (status r)).
        -- unfold throw. destruct (Nat.eqb attempt retries);
             (eexists; eexists; split; [reflexivity |]; split;
              [repeat split; simpl; lia | discriminate]).
        -- eexists. eexists. split; [reflexivity |]. split.
           ++ repeat split. simpl. lia.
           ++ discriminate.
  - destruct (Nat.eqb attempt retries);
      (eexists; eexists; split; [reflexivity |]; split;
       [repeat split; simpl; lia | discriminate]).
Qed.

(** With an address that is accepted, the loop sends at most one request per
    attempt, at least one when an attempt is allowed, and returns a reply
    only when it is ok. *)
Lemma fetchWithRetry_loop_sends retries : forall todo w,
  exists o w' n,
    fetchWithRetry_loop Reachable todo retries w = (o, w') /\ later n w w' /\
    n <= List.length todo /\ (todo <> [] -> 1 <= n) /\
    forall r, o = Done (Some r) ->
      ok r = true /\ exists k, k < n /\ net w (sent w + k) = Responded r.
Proof.
  induction todo as [| attempt rest IH]; intros w.
  - exists (Done None), w, 0. split; [reflexivity |].
    split; [repeat split; lia |]. split; [simpl; lia |].
    split; [congruence | discriminate].
  - rewrite fetchWithRetry_loop_cons.
    destruct (attemptOnce_sends attempt retries w) as (o & w1 & E1 & L1 & H1).
    destruct o as [[v |] | e].
    + rewrite (bind_returns _ _ w _ w1 E1).
      exists (Done v), w1, 1. split; [reflexivity |]. split; [exact L1 |].
      split; [simpl; lia |]. split; [lia |].
      intros r Hr. injection Hr as ->.
      destruct (H1 (Some r) eq_refl) as (r' & Hv & Hok & Hnet).
      injection Hv as <-. split; [exact Hok |].
      exists 0. split; [lia |]. now rewrite Nat.add_0_r.
    + rewrite (bind_returns _ _ w _ w1 E1).
      destruct (IH w1) as (o & w2 & n & E2 & L2 & Hn & _ & H2).
      exists o, w2, (1 + n). split; [exact E2 |].
      split; [now apply (later_trans 1 n w w1 w2) |].
      split; [simpl; lia |]. split; [lia |].
      intros r Hr. destruct (H2 r Hr) as (Hok & k & Hk & Hnet).
      split; [exact Hok |]. exists (S k). split; [lia |].
      destruct L1 as (A & B & _). rewrite A, B in Hnet.
      now replace (sent w + S k) with (sent w + 1 + k) by lia.
    + rewrite (bind_throws _ _ w _ w1 E1).
      exists (Threw e), w1, 1. split; [reflexivity |]. split; [exact L1 |].
      split; [simpl; lia |]. split; [lia | discriminate].
Qed.

Lemma length_attempts retries : List.length (attempts retries) = retries.
Proof. apply length_seq. Qed.

Lemma fetchWithRetry_valid retries w :
  1 <= retries ->
  exists o w' n,
    fetchWithRetry Reachable retries w = (o, w') /\ later n w w' /\
    1 <= n <= retries /\
    forall r, o = Done (Some r) ->
      ok r = true /\ exists k, k < n /\ net w (sent w + k) = Responded r.
Proof.
  intros Hr. unfold fetchWithRetry.
  destruct (fetchWithRetry_loop_sends retries (attempts retries) w)
    as (o & w' & n & E & L & Hn & H1 & H).
  rewrite length_attempts in Hn.
  exists o, w', n. split; [exact E |]. split; [exact L |]. split; [| exact H].
  split; [| exact Hn]. apply H1. intros H0.
  apply (f_equal (@List.length nat)) in H0. rewrite length_attempts in H0.
  simpl in H0. lia.
Qed.

(** ** An address that is refused *)

Definition waitAfter (attempt : nat) : pause := mkPause (1000 * Z.of_nat attempt) 0.

Lemma refusal_none target : refusal target = None -> target = Reachable.
Proof. destruct target; [discriminate | discriminate | reflexivity]. Qed.

(** Every attempt throws before its request; all but the last wait, the
    last one throws the error on. *)
Lemma loop_refused target refused :
  refusal target = Some refused ->
  forall k a w,
    fetchWithRetry_loop target (seq a (S k)) (a + k) w
    = (Threw refused,
       mkWorld (net w) (sent w) (pauses w ++ map waitAfter (seq a k))%list
         (clock w) (ticks w) (requestCount w) (sessionCookies w)).
Proof.
  intros Href. induction k as [| k IH]; intros a w.
  - cbn [seq]. rewrite fetchWithRetry_loop_cons.
    erewrite bind_throws.
    2:{ unfold attemptOnce, tryCatch, bind. rewrite Href. unfold throw.
        rewrite Nat.add_0_r, Nat.eqb_refl. reflexivity. }
    cbn [map]. rewrite app_nil_r. now destruct w.
  - change (seq a (S (S k))) with (a :: seq (S a) (S k)).
    rewrite fetchWithRetry_loop_cons.
    erewrite bind_returns.
    2:{ unfold attemptOnce, tryCatch, bind. rewrite Href.
        unfold throw, delay, ret.
        replace (Nat.eqb a (a + S k)) with false
          by (symmetry; apply Nat.eqb_neq; lia).
        reflexivity. }
    cbv iota. replace (a + S k) with (S a + k) by lia. rewrite IH.
    cbn [net sent pauses clock ticks requestCount sessionCookies seq map].
    now rewrite <- app_assoc.
Qed.

Lemma fetchWithRetry_refused target refused retries w :
  refusal target = Some refused ->
  1 <= retries ->
  fetchWithRetry target retries w
  = (Threw refused,
     mkWorld (net w) (sent w)
       (pauses w ++ map waitAfter (seq 1 (retries - 1)))%list
       (clock w) (ticks w) (requestCount w) (sessionCookies w)).
Proof.
  intros Href Hr. unfold fetchWithRetry, attempts.
  destruct retries as [| k]; [lia |].
  replace (S k - 1) with k by lia.
  change (S k) with (1 + k) at 2. now apply loop_refused.
Qed.

(** Whatever the address, the loop sends at most one request per attempt
    and returns a reply only when it is ok. *)
Lemma fetchWithRetry_sends target retries w :
  1 <= retries ->
  exists o w' n,
    fetchWithRetry target retries w = (o, w') /\ later n w w' /\ n <= retries /\
    (target = Reachable -> 1 <= n) /\
    forall r, o = Done (Some r) ->
      ok r = true /\ exists k, k < n /\ net w (sent w + k) = Responded r.
Proof.
  intros Hr. destruct (refusal target) as [refused |] eqn:Href.
  - rewrite (fetchWithRetry_refused target refused retries w Href Hr).
    eexists. eexists. exists 0. split; [reflexivity |].
    split; [repeat split; cbn; lia |]. split; [lia |].
    split; [| discriminate].
    intros ->. discriminate Href.
  - apply refusal_none in Href. subst target.
    destruct (fetchWithRetry_valid retries w Hr) as (o & w' & n & E & L & Hn & H).
    exists o, w', n. split; [exact E |]. split; [exact L |]. split; [lia |].
    split; [intros _; lia | exact H].
Qed.

(** fetchIssueContent never throws: it returns what is read off an ok
    reply, or the fallback object. *)
Lemma fetchIssueContent_returns parseAddress scrape issueUrl w :
  exists c w' n,
    fetchIssueContent parseAddress scrape issueUrl w = (Done c, w') /\
    later n w w' /\ n <= 3 /\
    (c = fallbackContent \/
     exists r k, k < n /\ net w (sent w + k) = Responded r /\ ok r = true /\
                 c = ofPage (scrape (text r))).
Proof.
  unfold fetchIssueContent, tryCatch.
  destruct (fetchWithRetry_sends (addressOf parseAddress issueUrl) 3 w)
    as (o & w1 & n & E & L & Hn & _ & H); [lia |].
  unfold bind. rewrite E. destruct o as [[r |] | e].
  - destruct (H r eq_refl) as (Hok & k & Hk & Hnet). rewrite Hok. simpl.
    exists (ofPage (scrape (text r))), w1, n. unfold ret.
    repeat split; try apply L; try lia. right. now exists r, k.
  - exists fallbackContent, w1, n. unfold ret, throw.
    repeat split; try apply L; try lia. now left.
  - exists fallbackContent, w1, n. unfold ret.
    repeat split; try apply L; try lia. now left.
Qed.

Lemma generateSummaries_after key w o w1 :
  truthyOpt key = true ->
  fetchWithRetry Reachable 3 w = (o, w1) ->
  exists s w',
    generateSummaries key w = (Done s, w') /\ later 0 w1 w'.
Proof.
  intros Hkey E. unfold generateSummaries. rewrite Hkey. cbn [negb].
  unfold tryCatch. unfold bind at 1. rewrite E.
  assert (L : later 0 w1 w1) by (repeat split; lia).
  destruct o as [[r |] | e].
  - destruct (json r) as [e | | responseText].
    + eexists. exists w1. unfold throw, ret. now split.
    + eexists. exists w1. unfold throw, ret. now split.
    + eexists. eexists. unfold bind, delay, ret.
      split; [reflexivity |]. repeat split; cbn; lia.
  - eexists. exists w1. unfold throw, ret. now split.
  - eexists. exists w1. unfold ret. now split.
Qed.

(** With a key, generateSummaries never throws and sends between one and
    three requests. *)
Lemma generateSummaries_returns key w :
  truthyOpt key = true ->
  exists s w' n,
    generateSummaries key w = (Done s, w') /\ later n w w' /\ 1 <= n <= 3.
Proof.
  intros Hkey.
  destruct (fetchWithRetry_valid 3 w) as (o & w1 & n & E & L & Hn & _); [lia |].
  destruct (generateSummaries_after key w o w1 Hkey E) as (s & w' & E' & L').
  exists s, w', n. split; [exact E' |]. split; [| exact Hn].
  replace n with (n + 0) by lia. now apply (later_trans n 0 w w1 w').
Qed.

(** A first reply that is not ok is followed by a second request: the
    first of three attempts can neither return nor throw the error on. *)
Lemma attemptOnce_goes_on attempt retries w :
  attempt <> retries ->
  (forall r, net w (sent w) = Responded r -> ok r = false) ->
  exists w',
    attemptOnce Reachable attempt retries w = (Done Continue, w') /\ later 1 w w'.
Proof.
  intros Hne Hnot. apply Nat.eqb_neq in Hne.
  unfold attemptOnce, refusal, tryCatch, bind, request.
  destruct (net w (sent w)) as [r | e] eqn:Hnet.
  - rewrite (Hnot r eq_refl).
    destruct (Nat.eqb (status r) 429).
    + eexists. split; [reflexivity |]. repeat split. cbn. lia.
    + destruct (Nat.leb 400 (status r)).
      * unfold throw. rewrite Hne. eexists. split; [reflexivity |].
        repeat split. cbn. lia.
      * eexists. split; [reflexivity |]. repeat split. cbn. lia.
  - rewrite Hne. eexists. split; [reflexivity |]. repeat split. cbn. lia.
Qed.

Lemma generateSummaries_tries_again key w :
  truthyOpt key = true ->
  (forall r, net w (sent w) = Responded r -> ok r = false) ->
  exists s w' n,
    generateSummaries key w = (Done s, w') /\ later n w w' /\ 2 <= n <= 3.
Proof.
  intros Hkey Hnot.
  destruct (attemptOnce_goes_on 1 3 w) as (w1 & E1 & L1); [lia | exact Hnot |].
  destruct (fetchWithRetry_loop_sends 3 [2; 3] w1)
    as (o & w2 & n & E2 & L2 & Hn & H1 & _).
  assert (E : fetchWithRetry Reachable 3 w = (o, w2)).
  { unfold fetchWithRetry, attempts. cbn [seq].
    rewrite fetchWithRetry_loop_cons, (bind_returns _ _ w _ w1 E1). exact E2. }
  destruct (generateSummaries_after key w o w2 Hkey E) as (s & w' & E' & L').
  exists s, w', (1 + n). split; [exact E' |]. split.
  - replace (1 + n) with (1 + n + 0) by lia.
    apply (later_trans (1 + n) 0 w w2 w'); [| exact L'].
    now apply (later_trans 1 n w w1 w2).
  - cbn [List.length] in Hn. assert (1 <= n) by (apply H1; discriminate). lia.
Qed.

(** ** One issue *)

Definition joinError : string :=
  "Error: Cannot read properties of undefined (reading 'join')".

(** The entry pushed for an issue, from its page content, its summaries
    and the time read. *)
Definition rowFor (issue : row) (c : issueContent) (s : summaries) (time : string)
    : Row.t :=
  match userAliases c with
  | Some aliases =>
    Row.mk (lookup "Issue ID" issue) (acrNote s) (developerNote s)
      (titleAssessment s) (wcagAssessment s) (String.concat ", " aliases) time
  | None =>
    Row.mk (lookup "Issue ID" issue) joinError joinError joinError (Some joinError)
      EmptyString time
  end.

Definition countersFor (c : issueContent) (processedCount errorCount : nat)
    : nat * nat :=
  match userAliases c with
  | Some _ => (S processedCount, errorCount)
  | None => (processedCount, S errorCount)
  end.

Lemma processIssue_row parseAddress scrape key total results pc ec issue w c w1 s w2 :
  fetchIssueContent parseAddress scrape (lookup "Issue URL" issue) w = (Done c, w1) ->
  generateSummaries key w1 = (Done s, w2) ->
  exists w',
    processIssue parseAddress scrape key total (results, pc, ec) issue w
    = (Done ((results ++ [rowFor issue c s (clock w2 (ticks w2))])%list,
             fst (countersFor c pc ec), snd (countersFor c pc ec)), w') /\
    net w' = net w2 /\ sent w' = sent w2.
Proof.
  intros E1 E2. unfold processIssue.
  unfold rowFor, countersFor, joinAliases.
  destruct (userAliases c) as [aliases |] eqn:Ha.
  - erewrite bind_returns.
    2:{ apply tryCatch_returns.
        rewrite (bind_returns _ _ w _ w1 E1), (bind_returns _ _ w1 _ w2 E2).
        unfold joinAliases. rewrite Ha. reflexivity. }
    cbn [fst snd]. unfold bind, delay, ret.
    destruct (Nat.ltb (S pc) total); eexists; (split; [reflexivity |]); now split.
  - erewrite bind_returns.
    2:{ erewrite tryCatch_throws.
        2:{ rewrite (bind_returns _ _ w _ w1 E1), (bind_returns _ _ w1 _ w2 E2).
            unfold joinAliases. rewrite Ha. reflexivity. }
        reflexivity. }
    cbn [fst snd]. unfold bind, delay, ret.
    destruct (Nat.ltb pc total); eexists; (split; [reflexivity |]); now split.
Qed.

(** With a key, the body of the loop never throws: it pushes one entry
    with the id of the issue and counts the issue once. *)
Lemma processIssue_pushes parseAddress scrape key total results pc ec issue w :
  truthyOpt key = true ->
  exists entry pc' ec' w',
    processIssue parseAddress scrape key total (results, pc, ec) issue w
    = (Done ((results ++ [entry])%list, pc', ec'), w') /\
    Row.issueId entry = lookup "Issue ID" issue /\
    pc' + ec' = S (pc + ec) /\
    net w' = net w /\ sent w + 1 <= sent w' <= sent w + 6.
Proof.
  intros Hkey.
  destruct (fetchIssueContent_returns parseAddress scrape (lookup "Issue URL" issue) w)
    as (c & w1 & n1 & E1 & (N1 & S1 & _) & Hn1 & _).
  destruct (generateSummaries_returns key w1 Hkey)
    as (s & w2 & n2 & E2 & (N2 & S2 & _) & Hn2).
  destruct (processIssue_row parseAddress scrape key total results pc ec issue w c w1
              s w2 E1 E2)
    as (w' & E & N & S).
  eexists. eexists. eexists. exists w'. split; [exact E |].
  unfold rowFor, countersFor.
  destruct (userAliases c); cbn [fst snd Row.issueId];
    (split; [reflexivity |]); (split; [lia |]);
    (split; [congruence |]); rewrite S, S2, S1; lia.
Qed.

Lemma forOfM_processIssue parseAddress scrape key total :
  forall issues results pc ec w,
  truthyOpt key = true ->
  exists entries pc' ec' w',
    forOfM (processIssue parseAddress scrape key total) issues (results, pc, ec) w
    = (Done ((results ++ entries)%list, pc', ec'), w') /\
    map Row.issueId entries = map (lookup "Issue ID") issues /\
    pc' + ec' = pc + ec + List.length issues.
Proof.
  induction issues as [| issue issues IH]; intros results pc ec w Hkey.
  - exists [], pc, ec, w. simpl. unfold ret. rewrite app_nil_r.
    repeat split. lia.
  - destruct (processIssue_pushes parseAddress scrape key total results pc ec issue w
                Hkey)
      as (entry & pc1 & ec1 & w1 & E1 & Hid & Hc & _).
    destruct (IH (results ++ [entry])%list pc1 ec1 w1 Hkey)
      as (entries & pc2 & ec2 & w2 & E2 & Hids & Hc2).
    exists (entry :: entries), pc2, ec2, w2. cbn [forOfM].
    rewrite (bind_returns _ _ w _ w1 E1), E2, <- app_assoc.
    split; [reflexivity |]. split; [simpl; now rewrite Hid, Hids |].
    simpl. lia.
Qed.

(** X15. With an API key and a readable input file, processIssues never
    throws, whatever the network does and whatever addresses the file
    holds: it returns one entry per issue of the file, in file order,
    each with the Issue ID of its issue. *)
Theorem one_summary_row_per_issue :
  forall (parseAddress : string -> address) (scrape : string -> page)
         (key : option string) (csvContent : string) (issues : list row)
         (w : world),
    truthyOpt key = true ->
    parseCSV csvContent = Done issues ->
    exists results w',
      processIssues parseAddress scrape key csvContent w = (Done (Some results), w') /\
      map Row.issueId results = map (lookup "Issue ID") issues.
Proof.
  intros parseAddress scrape key csvContent issues w Hkey Hcsv.
  unfold processIssues. rewrite Hkey, Hcsv. cbn [negb].
  destruct (forOfM_processIssue parseAddress scrape key (List.length issues) issues
              [] 0 0 w Hkey)
    as (entries & pc & ec & w' & E & Hids & _).
  exists entries, w'. rewrite (bind_returns _ _ w _ w' E). now split.
Qed.

(** X16. When none of the first three requests is answered with an ok
    status, the entry of that issue is an error entry whose notes all
    read Error: Cannot read properties of undefined (reading 'join'),
    with no user aliases, and the issue counts as an error; the request
    to the AI service has been sent all the same and its summaries are
    dropped.  This holds whatever the address of the page: with an
    address that is refused no page request is made, the
    fallback object is returned just the same, and the requests are those
    to the AI service. *)
Theorem unread_page_drops_the_summaries :
  forall (parseAddress : string -> address) (scrape : string -> page)
         (key : option string) (total : nat) (results : list Row.t)
         (processedCount errorCount : nat) (issue : row) (w : world),
    truthyOpt key = true ->
    (forall k r, k < 3 -> net w (sent w + k) = Responded r -> ok r = false) ->
    exists processedAt w',
      processIssue parseAddress scrape key total
        (results, processedCount, errorCount) issue w
      = (Done ((results
                ++ [ Row.mk (lookup "Issue ID" issue) joinError joinError joinError
                       (Some joinError) EmptyString processedAt ])%list,
               processedCount, S errorCount), w') /\
      sent w + 2 <= sent w'.
Proof.
  intros parseAddress scrape key total results pc ec issue w Hkey Hnet.
  destruct (fetchIssueContent_returns parseAddress scrape (lookup "Issue URL" issue) w)
    as (c & w1 & n1 & E1 & (N1 & S1 & _) & Hn1 & Hc).
  assert (Hfb : c = fallbackContent).
  { destruct Hc as [Hc | (r & k & Hk & Hr & Hok & _)]; [exact Hc |].
    rewrite (Hnet k r) in Hok; [discriminate | lia | exact Hr]. }
  subst c.
  assert (G : exists s w2 n2,
             generateSummaries key w1 = (Done s, w2) /\ later n2 w1 w2 /\
             2 <= n1 + n2).
  { destruct n1 as [| n1].
    - destruct (generateSummaries_tries_again key w1 Hkey)
        as (s & w2 & n2 & E2 & L2 & Hn2).
      + intros r Hr. rewrite N1, S1, Nat.add_0_r in Hr.
        apply (Hnet 0 r); [lia | now rewrite Nat.add_0_r].
      + exists s, w2, n2. split; [exact E2 |]. split; [exact L2 | lia].
    - destruct (generateSummaries_returns key w1 Hkey)
        as (s & w2 & n2 & E2 & L2 & Hn2).
      exists s, w2, n2. split; [exact E2 |]. split; [exact L2 | lia]. }
  destruct G as (s & w2 & n2 & E2 & (N2 & S2 & _) & Hn).
  destruct (processIssue_row parseAddress scrape key total results pc ec issue w _ w1
              s w2 E1 E2)
    as (w' & E & N & S).
  exists (clock w2 (ticks w2)), w'. split; [exact E |].
  rewrite S, S2, S1. lia.
Qed.

(** ** Concrete inputs *)

Definition replying (r : response) : world :=
  mkWorld (fun _ => Responded r) 0 [] (fun _ => "2025-05-13T20:58:00.000Z") 0 0
    EmptyString.

Definition notFound : response := mkResponse 404 "Not Found" None "gone" NoCandidate.

Definition tooMany : response :=
  mkResponse 429 "Too Many Requests" None "slow down" NoCandidate.

Definition blankPage (html : string) : page :=
  mkPage "Unknown Title" EmptyString [] [].

(** A stand-in for the address parser: it accepts what starts with the
    https scheme, takes what starts with http for an address with that
    protocol, and rejects the rest. *)
Definition webAddress (cell : string) : address :=
  if startsWith cell "https://" then Reachable
  else if startsWith cell "http://" then Unsupported "http:"
  else Unparsable.

Definition twoColumns : string :=
  "Issue ID,Issue URL" ++ String lineFeed "3001,https://www.drupal.org/node/3001".

Lemma one_summary_row_per_issue_witness :
  exists results w',
    processIssues webAddress blankPage (Some "key") twoColumns (replying notFound)
    = (Done (Some results), w') /\
    map Row.issueId results
    = map (lookup "Issue ID")
        [ [ ("Issue ID", "3001"); ("Issue URL", "https://www.drupal.org/node/3001") ] ].
Proof.
  apply (one_summary_row_per_issue webAddress blankPage (Some "key") twoColumns
           [ [ ("Issue ID", "3001");
               ("Issue URL", "https://www.drupal.org/node/3001") ] ]
           (replying notFound)); reflexivity.
Defined.

Lemma unread_page_drops_the_summaries_witness :
  exists processedAt w',
    processIssue webAddress blankPage (Some "key") 1 ([], 0, 0)
      [ ("Issue ID", "3001"); ("Issue URL", "https://www.drupal.org/node/3001") ]
      (replying notFound)
    = (Done ([ Row.mk (Some "3001") joinError joinError joinError (Some joinError)
                 EmptyString processedAt ], 0, 1), w') /\
    2 <= sent w'.
Proof.
  apply (unread_page_drops_the_summaries webAddress blankPage (Some "key") 1 [] 0 0
           [ ("Issue ID", "3001"); ("Issue URL", "https://www.drupal.org/node/3001") ]
           (replying notFound)); [reflexivity |].
  intros k r _ H. injection H as <-. reflexivity.
Defined.

(** X17. The Summarizer's fetchWithRetry, allowed at least one attempt,
    sends at most one request per attempt, and when it returns a reply,
    that reply has an ok status and is the answer to one of those
    requests: a reply with an error status is never returned.  With an
    address that is accepted it sends at least one request.  With an
    address that is refused it sends none: every attempt throws before
    its request, the attempts before the last wait one second times their
    number, and the last throws the error on, which for a text that is no
    absolute address is the TypeError Invalid URL. *)
Theorem fetchWithRetry_returns_only_ok_replies :
  forall (target : address) (retries : nat) (w : world),
    1 <= retries ->
    exists o w',
      fetchWithRetry target retries w = (o, w') /\
      sent w' <= sent w + retries /\
      (target = Reachable -> sent w + 1 <= sent w') /\
      (forall refused, refusal target = Some refused ->
       o = Threw refused /\
       sent w' = sent w /\
       pauses w'
       = (pauses w
          ++ map (fun attempt => mkPause (1000 * Z.of_nat attempt) 0)
               (seq 1 (retries - 1)))%list) /\
      (target = Unparsable -> o = Threw (mkError "TypeError" "Invalid URL")) /\
      forall r, o = Done (Some r) ->
        ok r = true /\
        exists k, sent w + k < sent w' /\ net w (sent w + k) = Responded r.
Proof.
  intros target retries w Hr. destruct (refusal target) as [refused |] eqn:Href.
  - rewrite (fetchWithRetry_refused target refused retries w Href Hr).
    eexists. eexists. split; [reflexivity |]. cbn [sent pauses].
    split; [lia |]. split; [intros ->; discriminate Href |].
    split; [intros e He; injection He as <-; repeat split |].
    split; [| discriminate].
    intros ->. injection Href as <-. reflexivity.
  - apply refusal_none in Href. subst target.
    destruct (fetchWithRetry_valid retries w Hr)
      as (o & w' & n & E & (_ & S & _) & Hn & H).
    exists o, w'. split; [exact E |]. split; [lia |]. split; [intros _; lia |].
    split; [discriminate |]. split; [discriminate |].
    intros r Ho. destruct (H r Ho) as (Hok & k & Hk & Hnet).
    split; [exact Hok |]. exists k. split; [lia | exact Hnet].
Qed.

Lemma fetchWithRetry_returns_only_ok_replies_witness :
  exists o w',
    fetchWithRetry Unparsable 3 (replying notFound) = (o, w') /\
    sent w' <= 0 + 3 /\
    (Unparsable = Reachable -> 0 + 1 <= sent w') /\
    (forall refused, refusal Unparsable = Some refused ->
     o = Threw refused /\
     sent w' = 0 /\
     pauses w' = [mkPause 1000 0; mkPause 2000 0]) /\
    (Unparsable = Unparsable -> o = Threw (mkError "TypeError" "Invalid URL")) /\
    forall r, o = Done (Some r) ->
      ok r = true /\
      exists k, 0 + k < sent w' /\ net (replying notFound) (0 + k) = Responded r.
Proof.
  apply (fetchWithRetry_returns_only_ok_replies Unparsable 3 (replying notFound)).
  lia.
Defined.

(** ** A service that keeps answering 429 *)

Definition wait429 (attempt : nat) : pause :=
  mkPause (2 ^ Z.of_nat attempt * 1000) 0.

Lemma loop_all_429 retries : forall todo w,
  (forall n, exists r, net w n = Responded r /\ status r = 429) ->
  fetchWithRetry_loop Reachable todo retries w
  = (Done None,
     mkWorld (net w) (sent w + List.length todo)
       (pauses w ++ map wait429 todo)%list
       (clock w) (ticks w) (requestCount w) (sessionCookies w)).
Proof.
  induction todo as [| attempt rest IH]; intros w Hnet.
  - simpl. unfold ret. rewrite Nat.add_0_r, app_nil_r. now destruct w.
  - rewrite fetchWithRetry_loop_cons.
    destruct (Hnet (sent w)) as (r & Hr & Hs).
    erewrite bind_returns.
    2:{ unfold attemptOnce, refusal, tryCatch, bind, request. rewrite Hr.
        unfold ok. rewrite Hs. cbn. reflexivity. }
    cbv iota. rewrite IH; [| exact Hnet]. cbn [net sent pauses clock ticks
      requestCount sessionCookies List.length map].
    rewrite <- app_assoc. cbn [app].
    now replace (S (sent w) + List.length rest) with (sent w + S (List.length rest))
      by lia.
Qed.

(** X18. When the AI service answers every request with 429,
    generateSummaries sends three requests, waiting 2, 4 and 8 seconds
    after them, and then returns the three error notes built from the
    TypeError raised on reading the reply that fetchWithRetry did not
    return; the result has no WCAG assessment. *)
Theorem rate_limited_summaries_are_error_notes :
  forall (key : option string) (w : world),
    truthyOpt key = true ->
    (forall n, exists r, net w n = Responded r /\ status r = 429) ->
    exists w',
      generateSummaries key w
      = (Done (mkSummaries
                 "Error generating ACR note: Cannot read properties of undefined (reading 'json')"
                 "Error generating developer note: Cannot read properties of undefined (reading 'json')"
                 "Error assessing title: Cannot read properties of undefined (reading 'json')"
                 None), w') /\
      sent w' = sent w + 3 /\
      pauses w' = (pauses w ++ [mkPause 2000 0; mkPause 4000 0; mkPause 8000 0])%list.
Proof.
  intros key w Hkey Hnet. unfold generateSummaries. rewrite Hkey. cbn [negb].
  erewrite tryCatch_throws.
  2:{ erewrite bind_returns; [| apply (loop_all_429 3 (attempts 3) w Hnet)].
      reflexivity. }
  eexists. split; [reflexivity |]. split; reflexivity.
Qed.

Lemma rate_limited_summaries_are_error_notes_witness :
  exists w',
    generateSummaries (Some "key") (replying tooMany)
    = (Done (mkSummaries
               "Error generating ACR note: Cannot read properties of undefined (reading 'json')"
               "Error generating developer note: Cannot read properties of undefined (reading 'json')"
               "Error assessing title: Cannot read properties of undefined (reading 'json')"
               None), w') /\
    sent w' = 3 /\
    pauses w' = [mkPause 2000 0; mkPause 4000 0; mkPause 8000 0].
Proof.
  apply (rate_limited_summaries_are_error_notes (Some "key") (replying tooMany));
    [reflexivity |].
  intros n. exists tooMany. split; reflexivity.
Defined.

(** ** The summary file *)

Lemma csvHeaders_NoDup : NoDup csvHeaders.
Proof.
  unfold csvHeaders.
  repeat (constructor; [simpl; intuition discriminate |]). constructor.
Qed.

(** X19. The summary file written by processIssues is read back by
    parseCSV as one row per entry, in the same order, each pairing the
    seven column names with the trimmed fields, an entry without WCAG
    assessment or without Issue ID giving empty text there.  This holds
    when no field contains a line feed. *)
Theorem summary_file_read_back :
  forall results : list Row.t,
    (forall r f, In r results -> In f (summaryRow r) -> hasChar lineFeed f = false) ->
    parseCSV (csvOutput results)
    = Done (map (fun r => combine csvHeaders (map trim (summaryRow r))) results).
Proof.
  intros results Hlf. unfold csvOutput, parseCSV.
  rewrite <- (map_map summaryRow writeLine).
  rewrite nonBlank_written; [| reflexivity | reflexivity |].
  - rewrite parseCSV_loop_filter. cbn [app]. f_equal.
    rewrite written_records_parse;
      [| apply headerFields_not_nil
       | intros x Hx; apply in_map_iff in Hx; destruct Hx as (r & <- & _);
         reflexivity].
    rewrite map_map. apply map_ext. intros r.
    change (headerFields (String.concat "," csvHeaders)) with csvHeaders.
    apply mkRow_combine; [apply csvHeaders_NoDup |].
    now rewrite length_map.
  - intros x Hx. apply in_map_iff in Hx. destruct Hx as (r & <- & Hr). split.
    + intros f Hf. now apply (Hlf r f).
    + apply written_not_blank. simpl. lia.
Qed.

Lemma summary_file_read_back_witness :
  parseCSV
    (csvOutput
       [ Row.mk (Some "3001") "Affects people without vision, in every theme."
           "No current patches." "TITLE_OK: Current title accurately reflects the issue"
           None "alice, bob" "2025-05-13T20:58:00.000Z" ])
  = Done
      (map (fun r => combine csvHeaders (map trim (summaryRow r)))
         [ Row.mk (Some "3001") "Affects people without vision, in every theme."
             "No current patches."
             "TITLE_OK: Current title accurately reflects the issue"
             None "alice, bob" "2025-05-13T20:58:00.000Z" ]).
Proof.
  apply summary_file_read_back.
  intros r f [<- | []] Hf; simpl in Hf;
    repeat (destruct Hf as [<- | Hf]; [reflexivity |]); destruct Hf.
Defined.

End SummarizerRunFacts.

(* ===================================================================== *)
(** * Properties of the Aggregator *)
(* ===================================================================== *)

Module AggregatorFacts.
Import JS JSFacts Runtime Aggregator.
Open Scope js_scope.

(** ** Running a sequence *)

Lemma bind_Done {T U} (c : M T) (k : T -> M U) (w w' : world) (v : T) :
  c w = (Done v, w') -> bind c k w = k v w'.
Proof. intros H. unfold bind. now rewrite H. Qed.

(** ** Keys of a Map *)

Lemma mapGet_In {V} (k : string) (m : list (string * V)) (x : V) :
  mapGet k m = Some x -> In k (map fst m).
Proof.
  induction m as [| [k0 y] m IH]; simpl; [discriminate |].
  destruct (String.eqb_spec k0 k) as [-> | N]; [now left | intros H; right; auto].
Qed.

Lemma mapGet_not_In {V} (k : string) (m : list (string * V)) :
  mapGet k m = None -> ~ In k (map fst m).
Proof.
  induction m as [| [k0 y] m IH]; simpl; [tauto |].
  destruct (String.eqb_spec k0 k) as [-> | N]; [discriminate |].
  intros H [E | Hin]; [congruence | now apply IH].
Qed.

Lemma keys_mapSet_present {V} (k : string) (v x : V) (m : list (string * V)) :
  mapGet k m = Some x -> map fst (mapSet k v m) = map fst m.
Proof.
  induction m as [| [k0 y] m IH]; simpl; [discriminate |].
  destruct (String.eqb_spec k0 k) as [-> | N]; simpl; [reflexivity |].
  intros H. f_equal. auto.
Qed.

Lemma keys_mapSet_absent {V} (k : string) (v : V) (m : list (string * V)) :
  mapGet k m = None -> map fst (mapSet k v m) = (map fst m ++ [k])%list.
Proof.
  induction m as [| [k0 y] m IH]; simpl; [reflexivity |].
  destruct (String.eqb_spec k0 k) as [-> | N]; simpl; [discriminate |].
  intros H. f_equal. auto.
Qed.

Lemma mapGet_mapSet {V} (k : string) (v : V) (m : list (string * V)) :
  mapGet k (mapSet k v m) = Some v.
Proof.
  induction m as [| [k0 y] m IH]; simpl; [now rewrite String.eqb_refl |].
  destruct (String.eqb_spec k0 k) as [-> | N]; simpl.
  - now rewrite String.eqb_refl.
  - destruct (String.eqb_spec k0 k); [contradiction | exact IH].
Qed.

(** The keys of wcagGroups grow by the codes not yet seen. *)
Definition addKey (keys : list string) (k : string) : list string :=
  if includes keys k then keys else (keys ++ [k])%list.

Lemma keys_groupStep summaryMap groups issue :
  map fst (groupStep summaryMap groups issue)
  = addKey (map fst groups) (WCAG_SC issue).
Proof.
  unfold groupStep, addKey.
  destruct (mapGet (WCAG_SC issue) groups) as [l |] eqn:G.
  - pose proof (mapGet_In _ _ _ G) as Hin. apply includes_In in Hin. rewrite Hin.
    destruct (mapGet (Issue_ID issue) summaryMap); [| reflexivity].
    rewrite G. now apply keys_mapSet_present with (x := l).
  - pose proof (mapGet_not_In _ _ G) as Hin. apply includes_not_In in Hin.
    rewrite Hin.
    destruct (mapGet (Issue_ID issue) summaryMap).
    + rewrite mapGet_mapSet.
      rewrite (keys_mapSet_present _ _ [] _ (mapGet_mapSet _ _ _)).
      now apply keys_mapSet_absent.
    + now apply keys_mapSet_absent.
Qed.

Lemma keys_groups summaryMap detailedIssues : forall groups,
  map fst (fold_left (groupStep summaryMap) detailedIssues groups)
  = fold_left addKey (map WCAG_SC detailedIssues) (map fst groups).
Proof.
  induction detailedIssues as [| issue rest IH]; intros groups; simpl;
    [reflexivity |].
  now rewrite IH, keys_groupStep.
Qed.

Lemma addKey_NoDup keys k : NoDup keys -> NoDup (addKey keys k).
Proof.
  intros ND. unfold addKey. destruct (includes keys k) eqn:E; [exact ND |].
  apply NoDup_snoc; [exact ND | now apply includes_not_In].
Qed.

Lemma addKey_In keys k x : In x (addKey keys k) <-> In x keys \/ x = k.
Proof.
  unfold addKey. destruct (includes keys k) eqn:E.
  - apply includes_In in E. split; [auto | intros [H | ->]; assumption].
  - rewrite in_app_iff. simpl. intuition congruence.
Qed.

Lemma addKeys_NoDup codes : forall keys,
  NoDup keys -> NoDup (fold_left addKey codes keys).
Proof.
  induction codes as [| c codes IH]; intros keys ND; simpl; [exact ND |].
  apply IH, addKey_NoDup, ND.
Qed.

Lemma addKeys_In codes x : forall keys,
  In x (fold_left addKey codes keys) <-> In x keys \/ In x codes.
Proof.
  induction codes as [| c codes IH]; intros keys; simpl; [tauto |].
  rewrite IH, addKey_In. intuition congruence.
Qed.

(** ** The main loop and the retry loop *)

Lemma processGroup_pushes key (st : loopState) (g : string * list member) w :
  exists st' w',
    processGroup key st g w = (Done st', w') /\
    map wcagSC (fst (fst st')) = (map wcagSC (fst (fst st)) ++ [fst g])%list.
Proof.
  destruct st as [[results failedEntries] n]. destruct g as [code issues].
  unfold processGroup, tryCatch, bind.
  destruct (generateWCAGSummary key code issues w) as [[cs | e] w1];
    unfold now, ret; simpl; do 2 eexists; (split; [reflexivity |]);
    simpl; now rewrite map_app.
Qed.

Lemma mainLoop_pushes key groups : forall (st : loopState) w,
  exists st' w',
    forEachM (processGroup key) groups st w = (Done st', w') /\
    map wcagSC (fst (fst st')) = (map wcagSC (fst (fst st)) ++ map fst groups)%list.
Proof.
  induction groups as [| g groups IH]; intros st w; simpl.
  - exists st, w. split; [reflexivity | now rewrite app_nil_r].
  - destruct (processGroup_pushes key st g w) as [st1 [w1 [E1 K1]]].
    destruct (IH st1 w1) as [st2 [w2 [E2 K2]]].
    exists st2, w2. split.
    + rewrite (bind_Done _ _ _ _ _ E1). exact E2.
    + rewrite K2, K1, <- app_assoc. reflexivity.
Qed.

Lemma setAt_keys code r : forall results i,
  findIndex code results = Some i -> wcagSC r = code ->
  map wcagSC (setAt i r results) = map wcagSC results.
Proof.
  induction results as [| x rest IH]; intros i F Hr; simpl in *; [discriminate |].
  destruct (String.eqb_spec (wcagSC x) code) as [E | N].
  - injection F as <-. simpl. congruence.
  - destruct (findIndex code rest) as [k |]; [| discriminate].
    injection F as <-. simpl. f_equal. now apply IH.
Qed.

Lemma retryGroup_keeps key results (g : string * list member) w :
  exists results' w',
    retryGroup key results g w = (Done results', w') /\
    map wcagSC results' = map wcagSC results.
Proof.
  destruct g as [code issues].
  unfold retryGroup, tryCatch, bind.
  destruct (generateWCAGSummary key code issues w) as [[cs | e] w1].
  - destruct (findIndex code results) as [i |] eqn:F; unfold now, ret; simpl;
      do 2 eexists; (split; [reflexivity |]); [| reflexivity].
    now apply setAt_keys with (code := code).
  - unfold ret. do 2 eexists. split; reflexivity.
Qed.

Lemma retryLoop_keeps key failedEntries : forall results w,
  exists results' w',
    forEachM (retryGroup key) failedEntries results w = (Done results', w') /\
    map wcagSC results' = map wcagSC results.
Proof.
  induction failedEntries as [| g rest IH]; intros results w; simpl.
  - exists results, w. split; reflexivity.
  - destruct (retryGroup_keeps key results g w) as [r1 [w1 [E1 K1]]].
    destruct (IH r1 w1) as [r2 [w2 [E2 K2]]].
    exists r2, w2. split.
    + rewrite (bind_Done _ _ _ _ _ E1). exact E2.
    + now rewrite K2.
Qed.

(** ** The sort *)

Section SortFacts.

Variable localeCompare : string -> string -> Z.

Hypothesis localeCompare_total :
  forall a b, (localeCompare a b <= 0)%Z \/ (localeCompare b a <= 0)%Z.

Let inOrder (a b : result) : Prop := (localeCompare (wcagSC a) (wcagSC b) <= 0)%Z.

Lemma insertResult_perm r : forall l,
  Permutation (r :: l) (insertResult localeCompare r l).
Proof.
  induction l as [| x l IH]; simpl; [apply Permutation_refl |].
  destruct (localeCompare (wcagSC x) (wcagSC r) <=? 0)%Z.
  - eapply Permutation_trans; [apply perm_swap |]. now apply perm_skip.
  - apply Permutation_refl.
Qed.

Lemma sort_perm_gen l : forall acc,
  Permutation (l ++ acc)
    (fold_left (fun sorted r => insertResult localeCompare r sorted) l acc).
Proof.
  induction l as [| r l IH]; intros acc; simpl; [apply Permutation_refl |].
  eapply Permutation_trans; [| apply IH].
  eapply Permutation_trans; [apply Permutation_middle |].
  apply Permutation_app_head, insertResult_perm.
Qed.

Lemma sortResults_perm l : Permutation l (sortResults localeCompare l).
Proof.
  unfold sortResults. rewrite <- (app_nil_r l) at 1. apply sort_perm_gen.
Qed.

Lemma insertResult_HdRel x r : forall l,
  inOrder x r -> HdRel inOrder x l -> HdRel inOrder x (insertResult localeCompare r l).
Proof.
  intros l Hxr Hl. destruct l as [| y l]; simpl; [now constructor |].
  destruct (localeCompare (wcagSC y) (wcagSC r) <=? 0)%Z.
  - inversion Hl. now constructor.
  - now constructor.
Qed.

Lemma insertResult_sorted r : forall l,
  Sorted inOrder l -> Sorted inOrder (insertResult localeCompare r l).
Proof.
  induction l as [| x l IH]; intros S; simpl.
  - repeat constructor.
  - inversion S as [| ? ? Sl Hd]. subst.
    destruct (Z.leb_spec (localeCompare (wcagSC x) (wcagSC r)) 0) as [L | G].
    + constructor; [now apply IH |]. now apply insertResult_HdRel.
    + constructor; [exact S |]. constructor. unfold inOrder.
      destruct (localeCompare_total (wcagSC r) (wcagSC x)); [assumption | lia].
Qed.

Lemma sort_sorted_gen l : forall acc,
  Sorted inOrder acc ->
  Sorted inOrder
    (fold_left (fun sorted r => insertResult localeCompare r sorted) l acc).
Proof.
  induction l as [| r l IH]; intros acc S; simpl; [exact S |].
  apply IH, insertResult_sorted, S.
Qed.

Lemma sortResults_sorted l : Sorted inOrder (sortResults localeCompare l).
Proof. apply sort_sorted_gen. constructor. Qed.

End SortFacts.

(** C6. With the API key present, whatever the network answers, the run
    ends with rows written; each criterion code of the detailed-issues input
    has exactly one row, no row has another code, and the rows are in the
    order of the comparison the sort uses on the codes (localeCompare,
    taken as any total comparison). *)
Theorem one_row_per_code_in_order :
  forall (localeCompare : string -> string -> Z) (key : option string)
         (detailedIssues : list detailedIssue) (issueSummaries : list issueSummary)
         (w : world),
    (forall a b, (localeCompare a b <= 0)%Z \/ (localeCompare b a <= 0)%Z) ->
    truthyOpt key = true ->
    exists rows w',
      consolidateWCAGSummaries localeCompare key detailedIssues issueSummaries w
      = (Done (Some rows), w') /\
      (forall code, In code (map WCAG_SC detailedIssues) ->
                    count_occ string_dec (map wcagSC rows) code = 1) /\
      (forall r, In r rows -> In (wcagSC r) (map WCAG_SC detailedIssues)) /\
      Sorted (fun a b => (localeCompare (wcagSC a) (wcagSC b) <= 0)%Z) rows.
Proof.
  intros cmp key detailed summaries w Htotal Hkey.
  unfold consolidateWCAGSummaries. rewrite Hkey. cbn [negb].
  destruct (mainLoop_pushes key (wcagGroupsOf detailed summaries) ([], [], 0) w)
    as [[[results failedEntries] n] [w1 [E1 K1]]].
  rewrite (bind_Done _ _ _ _ _ E1). simpl in K1.
  assert (R : exists results' w2,
             (if Nat.ltb 0 (List.length failedEntries)
              then (delay (mkPause 30000 0);;
                    forEachM (retryGroup key) failedEntries results)
              else ret results) w1 = (Done results', w2) /\
             map wcagSC results' = map wcagSC results).
  { destruct (Nat.ltb 0 (List.length failedEntries)).
    - unfold bind at 1, delay.
      apply retryLoop_keeps.
    - exists results, w1. split; reflexivity. }
  destruct R as [results' [w2 [E2 K2]]].
  rewrite (bind_Done _ _ _ _ _ E2).
  exists (sortResults cmp results'), w2. split; [reflexivity |].
  assert (Keys : map wcagSC results'
                 = fold_left addKey (map WCAG_SC detailed) []).
  { rewrite K2, K1. unfold wcagGroupsOf. now rewrite keys_groups. }
  assert (P : Permutation (map wcagSC results')
                (map wcagSC (sortResults cmp results')))
    by apply Permutation_map, sortResults_perm.
  assert (ND : NoDup (map wcagSC (sortResults cmp results'))).
  { eapply Permutation_NoDup; [exact P |]. rewrite Keys.
    apply addKeys_NoDup. constructor. }
  assert (Mem : forall c, In c (map wcagSC (sortResults cmp results'))
                          <-> In c (map WCAG_SC detailed)).
  { intros c. split.
    - intros H. apply Permutation_sym in P.
      apply (Permutation_in _ P) in H. rewrite Keys in H.
      apply addKeys_In in H. destruct H as [[] | H]. exact H.
    - intros H. apply (Permutation_in _ P). rewrite Keys.
      apply addKeys_In. now right. }
  split; [| split].
  - intros code Hc. apply (proj1 (NoDup_count_occ' string_dec _) ND).
    now apply Mem.
  - intros r Hr. apply Mem. now apply in_map.
  - now apply sortResults_sorted.
Qed.

(** A total comparison to run the sort with: code units, left to right. *)
Definition codeUnitCompare (a b : string) : Z :=
  match String.compare a b with
  | Lt => (-1)%Z
  | Eq => 0%Z
  | Gt => 1%Z
  end.

Lemma codeUnitCompare_total a b :
  (codeUnitCompare a b <= 0)%Z \/ (codeUnitCompare b a <= 0)%Z.
Proof.
  unfold codeUnitCompare. rewrite (String.compare_antisym a b).
  destruct (String.compare b a); simpl; lia.
Qed.

(** Three collected issues under two codes, two of them summarized, and a
    provider that answers every request with a well-formed reply. *)
Lemma one_row_per_code_in_order_witness :
  exists rows w',
    consolidateWCAGSummaries codeUnitCompare (Some "key")
      [ mkDetailedIssue "wcag211" "3001" "Keyboard trap in dialog";
        mkDetailedIssue "wcag111" "3002" "Missing alt text";
        mkDetailedIssue "wcag211" "3003" "Menu not reachable" ]
      [ mkIssueSummary "3001" "Affects people with limited manipulation.";
        mkIssueSummary "3003" "Affects people without vision." ]
      (mkWorld
         (fun _ =>
            Responded
              (mkResponse 200 "OK" None EmptyString
                 (CandidateText "ACR_ASSESSMENT: PARTIALLY_SUPPORTED ACR_SUMMARY: Some barriers remain.")))
         0 [] (fun _ => "2025-01-01T00:00:00.000Z") 0 0 EmptyString)
    = (Done (Some rows), w') /\
    (forall code, In code ["wcag211"; "wcag111"; "wcag211"] ->
                  count_occ string_dec (map wcagSC rows) code = 1) /\
    (forall r, In r rows -> In (wcagSC r) ["wcag211"; "wcag111"; "wcag211"]) /\
    Sorted (fun a b => (codeUnitCompare (wcagSC a) (wcagSC b) <= 0)%Z) rows.
Proof.
  apply (one_row_per_code_in_order codeUnitCompare (Some "key")
           [ mkDetailedIssue "wcag211" "3001" "Keyboard trap in dialog";
             mkDetailedIssue "wcag111" "3002" "Missing alt text";
             mkDetailedIssue "wcag211" "3003" "Menu not reachable" ]);
    [apply codeUnitCompare_total | reflexivity].
Defined.

(** The same run, computed. *)
Example consolidate_two_codes :
  fst (consolidateWCAGSummaries codeUnitCompare (Some "key")
         [ mkDetailedIssue "wcag211" "3001" "Keyboard trap in dialog";
           mkDetailedIssue "wcag111" "3002" "Missing alt text";
           mkDetailedIssue "wcag211" "3003" "Menu not reachable" ]
         [ mkIssueSummary "3001" "Affects people with limited manipulation.";
           mkIssueSummary "3003" "Affects people without vision." ]
         (mkWorld
            (fun _ =>
               Responded
                 (mkResponse 200 "OK" None EmptyString
                    (CandidateText "ACR_ASSESSMENT: PARTIALLY_SUPPORTED ACR_SUMMARY: Some barriers remain.")))
            0 [] (fun _ => "2025-01-01T00:00:00.000Z") 0 0 EmptyString))
  = Done (Some
            [ mkResult "wcag111" "PARTIALLY_SUPPORTED" "Some barriers remain." 0
                EmptyString "2025-01-01T00:00:00.000Z";
              mkResult "wcag211" "PARTIALLY_SUPPORTED" "Some barriers remain." 2
                "3001, 3003" "2025-01-01T00:00:00.000Z" ]).
Proof. vm_compute. reflexivity. Qed.

(** ** Exhausted retries on HTTP 503 *)

(** Every request from now on is answered with status 503. *)
Definition always503 (w : world) : Prop :=
  forall n, sent w <= n -> exists r, net w n = Responded r /\ status r = 503.

(** The wait after a 503 reply to the given attempt. *)
Definition wait503 (attempt : nat) : pause :=
  mkPause (if Nat.eqb attempt 1 then 15000 else 2 ^ Z.of_nat attempt * 10000)%Z 5000.

Lemma loop_all_503 retries : forall todo w,
  always503 w ->
  fetchWithRetry_loop "POST" todo retries w
  = (Done None,
     mkWorld (net w) (sent w + List.length todo) (pauses w ++ map wait503 todo)
       (clock w) (ticks w) (requestCount w) (sessionCookies w)).
Proof.
  induction todo as [| attempt todo IH]; intros w H.
  - simpl. rewrite Nat.add_0_r, app_nil_r. now destruct w.
  - destruct (H (sent w) (le_n _)) as [r [Hn Hs]].
    assert (H1 : always503
                   (mkWorld (net w) (S (sent w)) (pauses w ++ [wait503 attempt])
                      (clock w) (ticks w) (requestCount w) (sessionCookies w))).
    { intros n Hle. apply H. simpl in Hle. lia. }
    specialize (IH _ H1). cbn [net sent pauses clock ticks requestCount sessionCookies] in IH.
    cbn [fetchWithRetry_loop]. unfold tryCatch, bind, request.
    cbn [String.eqb Ascii.eqb Bool.eqb andb]. rewrite Hn.
    unfold ok. rewrite Hs. cbn [Nat.leb Nat.ltb Nat.eqb andb orb].
    unfold delay, ret. fold (wait503 attempt).
    cbn [net sent pauses clock ticks requestCount sessionCookies].
    rewrite IH. cbn [List.length map].
    rewrite <- app_assoc, Nat.add_succ_r. reflexivity.
Qed.

(** C2, on the code.  When the key is present and every request is
    answered with HTTP 503, generateWCAGSummary makes its five attempts,
    waits after each, and returns the assessment ERROR with the engine's
    message about reading json of undefined: not the sentinel
    REQUIRES_REVIEW, so the main loop does not put the criterion on the
    retry list. *)
Theorem exhausted_503_yields_error :
  forall (key : option string) (code : string) (issues : list member) (w : world),
    truthyOpt key = true ->
    always503 w ->
    generateWCAGSummary key code issues w
    = (Done (mkConsolidated "ERROR"
               "Error generating summary: Cannot read properties of undefined (reading 'json')"
               (String.concat ", " (map m_issueId issues))),
       mkWorld (net w) (sent w + 5)
         (pauses w
          ++ [ mkPause 15000 5000; mkPause 40000 5000; mkPause 80000 5000;
               mkPause 160000 5000; mkPause 320000 5000 ])
         (clock w) (ticks w) (requestCount w) (sessionCookies w)).
Proof.
  intros key code issues w Hkey H.
  unfold generateWCAGSummary. rewrite Hkey. cbn [negb].
  unfold tryCatch, bind, fetchWithRetry.
  rewrite (loop_all_503 5 (attempts 5) w H).
  reflexivity.
Qed.

(** One criterion group and a provider that is overloaded throughout. *)
Lemma exhausted_503_yields_error_witness :
  let w := mkWorld
             (fun _ => Responded
                         (mkResponse 503 "Service Unavailable" None
                            "The model is overloaded. Please try again later."
                            NoCandidate))
             0 [] (fun _ => "2025-01-01T00:00:00.000Z") 0 0 EmptyString in
  always503 w /\
  fst (generateWCAGSummary (Some "key") "wcag111"
         [mkMember "3002" "wcag111" "Missing alt text"
            "Affects people without vision."] w)
  = Done (mkConsolidated "ERROR"
            "Error generating summary: Cannot read properties of undefined (reading 'json')"
            "3002").
Proof.
  cbv zeta.
  assert (H : always503
                (mkWorld
                   (fun _ => Responded
                               (mkResponse 503 "Service Unavailable" None
                                  "The model is overloaded. Please try again later."
                                  NoCandidate))
                   0 [] (fun _ => "2025-01-01T00:00:00.000Z") 0 0 EmptyString)).
  { intros n _. eexists. split; reflexivity. }
  split; [exact H |].
  rewrite (exhausted_503_yields_error (Some "key") "wcag111" _ _ eq_refl H).
  reflexivity.
Defined.

(** The whole run against that provider: the row of the criterion is an
    ERROR row, ten requests were made (five per group), and no 30-second
    pause was taken, since nothing was put on the retry list. *)
Example run_all_503 :
  let w := mkWorld
             (fun _ => Responded
                         (mkResponse 503 "Service Unavailable" None
                            "The model is overloaded. Please try again later."
                            NoCandidate))
             0 [] (fun _ => "2025-01-01T00:00:00.000Z") 0 0 EmptyString in
  let run := consolidateWCAGSummaries codeUnitCompare (Some "key")
               [ mkDetailedIssue "wcag211" "3001" "Keyboard trap in dialog";
                 mkDetailedIssue "wcag111" "3002" "Missing alt text" ]
               [ mkIssueSummary "3001" "Affects people with limited manipulation.";
                 mkIssueSummary "3002" "Affects people without vision." ] w in
  fst run
  = Done (Some
            [ mkResult "wcag111" "ERROR"
                "Error generating summary: Cannot read properties of undefined (reading 'json')"
                1 "3002" "2025-01-01T00:00:00.000Z";
              mkResult "wcag211" "ERROR"
                "Error generating summary: Cannot read properties of undefined (reading 'json')"
                1 "3001" "2025-01-01T00:00:00.000Z" ]) /\
  sent (snd run) = 10 /\
  existsb (fun p => Z.eqb (fixedMs p) 30000) (pauses (snd run)) = false.
Proof. vm_compute. repeat split. Qed.

(** By contrast, a reply of another failing status whose text mentions the
    overload does reach the sentinel and the retry pass. *)
Example run_500_overloaded :
  let w := mkWorld
             (fun _ => Responded
                         (mkResponse 500 "Internal Server Error" None
                            "The model is overloaded." NoCandidate))
             0 [] (fun _ => "2025-01-01T00:00:00.000Z") 0 0 EmptyString in
  let run := consolidateWCAGSummaries codeUnitCompare (Some "key")
               [ mkDetailedIssue "wcag111" "3002" "Missing alt text" ]
               [ mkIssueSummary "3002" "Affects people without vision." ] w in
  fst run
  = Done (Some
            [ mkResult "wcag111" "REQUIRES_REVIEW" (placeholderSummary 1) 1 "3002"
                "2025-01-01T00:00:00.000Z" ]) /\
  existsb (fun p => Z.eqb (fixedMs p) 30000) (pauses (snd run)) = true.
Proof. vm_compute. repeat split. Qed.

End AggregatorFacts.

(* ===================================================================== *)
(** * Properties of the Aggregator's groups *)
(* ===================================================================== *)

Module AggregatorGroupFacts.
Import JS JSFacts Runtime RuntimeFacts Aggregator AggregatorFacts.
Open Scope js_scope.

Lemma mapGet_mapSet_other {V} (k k' : string) (v : V) (m : list (string * V)) :
  k <> k' -> mapGet k' (mapSet k v m) = mapGet k' m.
Proof.
  intros N. induction m as [| [k0 y] m IH]; simpl.
  - destruct (String.eqb_spec k k'); [contradiction | reflexivity].
  - destruct (String.eqb_spec k0 k) as [-> | N0]; simpl.
    + destruct (String.eqb_spec k k'); [contradiction | reflexivity].
    + destruct (String.eqb_spec k0 k'); [reflexivity | exact IH].
Qed.

(** ** The summary of an issue *)

Lemma find_app {T} (f : T -> bool) (l1 l2 : list T) :
  find f (l1 ++ l2)
  = match find f l1 with Some x => Some x | None => find f l2 end.
Proof.
  induction l1 as [| x l1 IH]; simpl; [reflexivity |].
  destruct (f x); [reflexivity | exact IH].
Qed.

Lemma summaryMap_from id : forall issueSummaries m,
  mapGet id (fold_left (fun m s => mapSet (Summary_Issue_ID s) s m) issueSummaries m)
  = match find (fun s => String.eqb (Summary_Issue_ID s) id) (rev issueSummaries) with
    | Some s => Some s
    | None => mapGet id m
    end.
Proof.
  induction issueSummaries as [| s rest IH]; intros m; simpl; [reflexivity |].
  rewrite IH, find_app. simpl.
  destruct (find _ (rev rest)); [reflexivity |].
  destruct (String.eqb_spec (Summary_Issue_ID s) id) as [<- | N].
  - apply mapGet_mapSet.
  - now apply mapGet_mapSet_other.
Qed.

(** X20. The summary the Aggregator uses for an issue is the last row of
    the summaries file with that Issue ID: a later row replaces an earlier
    one with the same id, and an id the file lacks has no summary. *)
Theorem last_summary_row_wins :
  forall (issueSummaries : list issueSummary) (id : string),
    mapGet id (summaryMapOf issueSummaries)
    = find (fun s => String.eqb (Summary_Issue_ID s) id) (rev issueSummaries).
Proof.
  intros issueSummaries id. unfold summaryMapOf. rewrite summaryMap_from.
  now destruct (find _ (rev issueSummaries)).
Qed.

(** ** The members of a group *)

(** The member pushed for an issue: none when it has no summary. *)
Definition memberOf (summaryMap : list (string * issueSummary))
    (issue : detailedIssue) : list member :=
  match mapGet (Issue_ID issue) summaryMap with
  | Some summary =>
    [ mkMember (Issue_ID issue) (WCAG_SC issue) (Issue_Title issue)
        (orElse (Some (ACR_Note summary)) "No ACR note available") ]
  | None => []
  end.

(** The members of the issues that carry a given code, in file order. *)
Definition membersFor (summaryMap : list (string * issueSummary)) (code : string)
    (detailedIssues : list detailedIssue) : list member :=
  flat_map (fun issue =>
              if String.eqb (WCAG_SC issue) code then memberOf summaryMap issue
              else [])
    detailedIssues.

Lemma mapGet_groupStep summaryMap groups issue code :
  mapGet code (groupStep summaryMap groups issue)
  = if String.eqb (WCAG_SC issue) code
    then Some ((match mapGet code groups with Some l => l | None => [] end)
               ++ memberOf summaryMap issue)%list
    else mapGet code groups.
Proof.
  unfold groupStep, memberOf.
  destruct (String.eqb_spec (WCAG_SC issue) code) as [<- | N].
  - destruct (mapGet (WCAG_SC issue) groups) as [l |] eqn:G.
    + destruct (mapGet (Issue_ID issue) summaryMap).
      * rewrite G. apply mapGet_mapSet.
      * now rewrite G, app_nil_r.
    + destruct (mapGet (Issue_ID issue) summaryMap).
      * now rewrite !mapGet_mapSet.
      * apply mapGet_mapSet.
  - destruct (mapGet (WCAG_SC issue) groups) as [l |] eqn:G.
    + destruct (mapGet (Issue_ID issue) summaryMap); [| reflexivity].
      now apply mapGet_mapSet_other.
    + destruct (mapGet (Issue_ID issue) summaryMap).
      * rewrite !mapGet_mapSet_other by exact N. reflexivity.
      * now apply mapGet_mapSet_other.
Qed.

Lemma groups_from summaryMap code : forall detailedIssues groups,
  mapGet code (fold_left (groupStep summaryMap) detailedIssues groups)
  = match mapGet code groups with
    | Some l => Some (l ++ membersFor summaryMap code detailedIssues)%list
    | None =>
      if includes (map WCAG_SC detailedIssues) code
      then Some (membersFor summaryMap code detailedIssues)
      else None
    end.
Proof.
  induction detailedIssues as [| issue rest IH]; intros groups.
  - simpl. destruct (mapGet code groups); [now rewrite app_nil_r | reflexivity].
  - cbn [fold_left]. rewrite IH, mapGet_groupStep.
    cbn [map membersFor flat_map]. unfold includes. cbn [existsb].
    rewrite (String.eqb_sym code (WCAG_SC issue)).
    fold (membersFor summaryMap code rest).
    destruct (String.eqb (WCAG_SC issue) code).
    + destruct (mapGet code groups); [now rewrite app_assoc | reflexivity].
    + destruct (mapGet code groups); reflexivity.
Qed.

(** X21. The group of a criterion code holds one member for each issue of
    the detailed file that carries the code and has a summary, in file
    order; a code all of whose issues lack a summary still has a group,
    an empty one, and a code the file lacks has none. *)
Theorem group_holds_the_summarized_issues :
  forall (detailedIssues : list detailedIssue) (issueSummaries : list issueSummary)
         (code : string),
    mapGet code (wcagGroupsOf detailedIssues issueSummaries)
    = if includes (map WCAG_SC detailedIssues) code
      then Some (membersFor (summaryMapOf issueSummaries) code detailedIssues)
      else None.
Proof.
  intros detailedIssues issueSummaries code. unfold wcagGroupsOf.
  now rewrite groups_from.
Qed.

(** ** The counts and ids on the rows *)

Lemma generateWCAGSummary_ids key code issues w cs w1 :
  generateWCAGSummary key code issues w = (Done cs, w1) ->
  c_issueIds cs = String.concat ", " (map m_issueId issues).
Proof.
  unfold generateWCAGSummary.
  destruct (negb (truthyOpt key)); [discriminate |].
  unfold tryCatch, bind.
  destruct (fetchWithRetry "POST" 5 w) as [[[r |] | e] w0].
  - destruct (json r) as [e | | responseText]; unfold throw, delay, ret.
    + destruct (includesStr (message e) "503" || includesStr (message e) "overloaded");
        intros H; injection H as <- _; reflexivity.
    + cbn. intros H; injection H as <- _; reflexivity.
    + intros H; injection H as <- _; reflexivity.
  - unfold throw, ret. cbn. intros H; injection H as <- _; reflexivity.
  - unfold ret.
    destruct (includesStr (message e) "503" || includesStr (message e) "overloaded");
      intros H; injection H as <- _; reflexivity.
Qed.

(** A row that reports the size and the ids of the group of its code. *)
Definition agrees (groups : list (string * list member)) (r : result) : Prop :=
  exists members,
    In (wcagSC r, members) groups /\
    issueCount r = List.length members /\
    issueIds r = String.concat ", " (map m_issueId members).

Lemma processGroup_agrees key groups results failedEntries n g w :
  In g groups ->
  Forall (agrees groups) results ->
  Forall (fun f => In f groups) failedEntries ->
  exists results' failedEntries' n' w',
    processGroup key (results, failedEntries, n) g w
    = (Done (results', failedEntries', n'), w') /\
    Forall (agrees groups) results' /\
    Forall (fun f => In f groups) failedEntries'.
Proof.
  intros Hg Hr Hf. destruct g as [code issues].
  unfold processGroup, tryCatch, bind.
  destruct (generateWCAGSummary key code issues w) as [[cs | e] w1] eqn:E.
  - unfold now, ret. do 4 eexists. split; [reflexivity |]. split.
    + apply Forall_app. split; [exact Hr |]. constructor; [| constructor].
      exists issues. cbn [wcagSC issueCount issueIds].
      rewrite (generateWCAGSummary_ids key code issues w cs w1 E). now repeat split.
    + destruct (String.eqb (c_assessment cs) "REQUIRES_REVIEW"); [| exact Hf].
      apply Forall_app. split; [exact Hf |]. now constructor.
  - unfold now, ret. do 4 eexists. split; [reflexivity |]. split; [| exact Hf].
    apply Forall_app. split; [exact Hr |]. constructor; [| constructor].
    exists issues. now repeat split.
Qed.

Lemma mainLoop_agrees key groups : forall todo results failedEntries n w,
  Forall (fun g => In g groups) todo ->
  Forall (agrees groups) results ->
  Forall (fun f => In f groups) failedEntries ->
  exists results' failedEntries' n' w',
    forEachM (processGroup key) todo (results, failedEntries, n) w
    = (Done (results', failedEntries', n'), w') /\
    Forall (agrees groups) results' /\
    Forall (fun f => In f groups) failedEntries'.
Proof.
  induction todo as [| g todo IH]; intros results failedEntries n w Ht Hr Hf.
  - exists results, failedEntries, n, w. now repeat split.
  - inversion Ht as [| ? ? Hg Ht']; subst.
    destruct (processGroup_agrees key groups results failedEntries n g w Hg Hr Hf)
      as (r1 & f1 & n1 & w1 & E1 & Hr1 & Hf1).
    destruct (IH r1 f1 n1 w1 Ht' Hr1 Hf1) as (r2 & f2 & n2 & w2 & E2 & Hr2 & Hf2).
    exists r2, f2, n2, w2. cbn [forEachM].
    rewrite (bind_returns _ _ w _ w1 E1). now repeat split.
Qed.

Lemma setAt_Forall (P : result -> Prop) r : forall results i,
  P r -> Forall P results -> Forall P (setAt i r results).
Proof.
  induction results as [| x rest IH]; intros i Hr H; [destruct i; constructor |].
  inversion H as [| ? ? Hx Hrest]; subst.
  destruct i as [| k]; simpl; constructor; auto.
Qed.

Lemma retryGroup_agrees key groups results g w :
  In g groups ->
  Forall (agrees groups) results ->
  exists results' w',
    retryGroup key results g w = (Done results', w') /\
    Forall (agrees groups) results'.
Proof.
  intros Hg Hr. destruct g as [code issues].
  unfold retryGroup, tryCatch, bind.
  destruct (generateWCAGSummary key code issues w) as [[cs | e] w1] eqn:E.
  - destruct (findIndex code results) as [i |]; unfold now, ret;
      do 2 eexists; (split; [reflexivity |]); [| exact Hr].
    apply setAt_Forall; [| exact Hr].
    exists issues. cbn [wcagSC issueCount issueIds].
    rewrite (generateWCAGSummary_ids key code issues w cs w1 E). now repeat split.
  - unfold ret. do 2 eexists. split; [reflexivity | exact Hr].
Qed.

Lemma retryLoop_agrees key groups : forall failedEntries results w,
  Forall (fun f => In f groups) failedEntries ->
  Forall (agrees groups) results ->
  exists results' w',
    forEachM (retryGroup key) failedEntries results w = (Done results', w') /\
    Forall (agrees groups) results'.
Proof.
  induction failedEntries as [| g rest IH]; intros results w Hf Hr.
  - exists results, w. now split.
  - inversion Hf as [| ? ? Hg Hf']; subst.
    destruct (retryGroup_agrees key groups results g w Hg Hr) as (r1 & w1 & E1 & H1).
    destruct (IH r1 w1 Hf' H1) as (r2 & w2 & E2 & H2).
    exists r2, w2. cbn [forEachM]. rewrite (bind_returns _ _ w _ w1 E1). now split.
Qed.

(** X22. With the API key present, whatever the network answers and
    whether a row comes from the first pass, from its catch block or from
    the retry pass, every row of the result reports the number of members
    of the group of its code as its issue count and their ids, joined by
    a comma and a space, as its issue ids. *)
Theorem rows_report_their_group :
  forall (localeCompare : string -> string -> Z) (key : option string)
         (detailedIssues : list detailedIssue) (issueSummaries : list issueSummary)
         (w : world),
    truthyOpt key = true ->
    exists rows w',
      consolidateWCAGSummaries localeCompare key detailedIssues issueSummaries w
      = (Done (Some rows), w') /\
      forall r, In r rows ->
        exists members,
          In (wcagSC r, members) (wcagGroupsOf detailedIssues issueSummaries) /\
          issueCount r = List.length members /\
          issueIds r = String.concat ", " (map m_issueId members).
Proof.
  intros cmp key detailed summaries w Hkey.
  unfold consolidateWCAGSummaries. rewrite Hkey. cbn [negb].
  set (groups := wcagGroupsOf detailed summaries).
  assert (Hall : Forall (fun g => In g groups) groups)
    by (apply Forall_forall; auto).
  destruct (mainLoop_agrees key groups groups [] [] 0 w Hall
              (Forall_nil _) (Forall_nil _))
    as (results & failedEntries & n & w1 & E1 & Hr & Hf).
  rewrite (bind_returns _ _ w _ w1 E1). cbv beta iota.
  assert (R : exists results' w2,
             (if Nat.ltb 0 (List.length failedEntries)
              then (delay (mkPause 30000 0);;
                    forEachM (retryGroup key) failedEntries results)
              else ret results) w1 = (Done results', w2) /\
             Forall (agrees groups) results').
  { destruct (Nat.ltb 0 (List.length failedEntries)).
    - unfold bind at 1, delay. now apply retryLoop_agrees.
    - exists results, w1. now split. }
  destruct R as (results' & w2 & E2 & Hr').
  rewrite (bind_returns _ _ w1 _ w2 E2).
  exists (sortResults cmp results'), w2. split; [reflexivity |].
  intros r Hin.
  assert (Hin' : In r results').
  { eapply Permutation_in; [| exact Hin].
    apply Permutation_sym, sortResults_perm. }
  rewrite Forall_forall in Hr'. exact (Hr' r Hin').
Qed.

(** Concrete input: one issue with a summary, and a service that is
    down. *)
Definition oneIssue : list detailedIssue :=
  [ mkDetailedIssue "1.1.1" "3001" "Missing alt text" ].

Definition oneSummary : list issueSummary :=
  [ mkIssueSummary "3001" "Affects people without vision." ].

Definition serviceDown : world :=
  mkWorld (fun _ => Rejected (mkError "Error" "connect ECONNREFUSED")) 0 []
    (fun _ => "2025-05-13T20:58:00.000Z") 0 0 EmptyString.

Lemma rows_report_their_group_witness :
  exists rows w',
    consolidateWCAGSummaries codeUnitCompare (Some "key") oneIssue oneSummary
      serviceDown
    = (Done (Some rows), w') /\
    forall r, In r rows ->
      exists members,
        In (wcagSC r, members) (wcagGroupsOf oneIssue oneSummary) /\
        issueCount r = List.length members /\
        issueIds r = String.concat ", " (map m_issueId members).
Proof.
  apply (rows_report_their_group codeUnitCompare (Some "key") oneIssue oneSummary
           serviceDown).
  reflexivity.
Defined.

End AggregatorGroupFacts.

(* ===================================================================== *)
(** * Properties of the Renderer *)
(* ===================================================================== *)

Module RendererFacts.
Import JS JSFacts Renderer.

(** ** Structure of the two passes *)

Lemma In_pushByLevel s c r :
  In r (rows (pushByLevel s c)) <-> In r (rows s) \/ r = c.
Proof.
  unfold rows, pushByLevel.
  destruct (getWCAGLevel (num c)); simpl;
    repeat rewrite in_app_iff; simpl; intuition auto.
Qed.

Lemma In_firstPass data r : forall s,
  In r (rows (fold_left firstPass data s)) <->
  In r (rows s) \/ exists it, In it data /\ renderItem it = Some r.
Proof.
  induction data as [| it data IH]; intros s; simpl.
  - split; [auto | intros [H | [it [[] _]]]; assumption].
  - rewrite IH. unfold firstPass.
    destruct (renderItem it) as [c|] eqn:E.
    + rewrite In_pushByLevel. split.
      * intros [[H | H] | [it' [H1 H2]]]; eauto.
        subst. right. exists it. auto.
      * intros [H | [it' [[H1 | H1] H2]]]; eauto.
        subst. left. right. congruence.
    + split.
      * intros [H | [it' [H1 H2]]]; eauto.
      * intros [H | [it' [[H1 | H1] H2]]]; eauto. subst. congruence.
Qed.

Lemma In_secondPass processed codes r : forall s,
  In r (rows (fold_left (secondPass processed) codes s)) <->
  In r (rows s) \/
  exists c, In c codes /\ hasNum processed c = false /\ r = naCriterion c.
Proof.
  induction codes as [| c codes IH]; intros s; simpl.
  - split; [auto | intros [H | [c [[] _]]]; assumption].
  - rewrite IH. unfold secondPass.
    destruct (hasNum processed c) eqn:E; simpl.
    + split.
      * intros [H | [c' [H1 H2]]]; eauto.
      * intros [H | [c' [[H1 | H1] [H2 H3]]]]; eauto. subst. congruence.
    + rewrite In_pushByLevel. split.
      * intros [[H | H] | [c' [H1 H2]]]; eauto.
        subst. right. exists c. auto.
      * intros [H | [c' [[H1 | H1] [H2 H3]]]]; eauto.
        subst. left. now right.
Qed.

Section Passes.

Variable f : criterion -> bool.

Let cnt (s : sections) : nat := List.length (filter f (rows s)).

Lemma count_pushByLevel s c :
  cnt (pushByLevel s c) = cnt s + (if f c then 1 else 0).
Proof.
  unfold cnt, rows, pushByLevel.
  destruct (getWCAGLevel (num c)); simpl;
    repeat rewrite filter_app; repeat rewrite length_app; simpl;
    destruct (f c); simpl; lia.
Qed.


Definition fItem (it : item) : bool :=
  match renderItem it with Some c => f c | None => false end.

Lemma count_firstPass data : forall s,
  cnt (fold_left firstPass data s) = cnt s + List.length (filter fItem data).
Proof.
  induction data as [| it data IH]; intros s; simpl.
  - lia.
  - rewrite IH.
    assert (E : fItem it = match renderItem it with Some c => f c | None => false end)
      by reflexivity.
    unfold firstPass. destruct (renderItem it) as [c|].
    + rewrite count_pushByLevel, E. destruct (f c); simpl; lia.
    + rewrite E. lia.
Qed.


Variable processed : list value.

Definition fNa (wcagNum : string) : bool :=
  negb (hasNum processed wcagNum) && f (naCriterion wcagNum).

Lemma count_secondPass codes : forall s,
  cnt (fold_left (secondPass processed) codes s)
  = cnt s + List.length (filter fNa codes).
Proof.
  induction codes as [| c codes IH]; intros s; simpl.
  - lia.
  - rewrite IH.
    assert (E : fNa c = negb (hasNum processed c) && f (naCriterion c))
      by reflexivity.
    unfold secondPass. destruct (hasNum processed c); simpl in *.
    + rewrite E. lia.
    + rewrite count_pushByLevel, E. destruct (f (naCriterion c)); simpl; lia.
Qed.


End Passes.

Lemma hasNum_app l1 l2 c : hasNum (l1 ++ l2) c = hasNum l1 c || hasNum l2 c.
Proof. unfold hasNum. apply existsb_app. Qed.

Lemma hasNum_processed_gen data c : forall acc,
  hasNum
    (fold_left
       (fun acc it =>
          let wcagNum := convertWCAGFormat (WCAG_SC it) in
          if negb (includesOpt wcag22Criteria wcagNum) then (acc ++ [wcagNum])%list
          else acc) data acc) c
  = hasNum acc c
    || existsb (fun it =>
                  negb (includesOpt wcag22Criteria (convertWCAGFormat (WCAG_SC it)))
                  && isNum c (convertWCAGFormat (WCAG_SC it))) data.
Proof.
  induction data as [| it data IH]; intros acc; simpl.
  - now rewrite orb_false_r.
  - rewrite IH.
    destruct (includesOpt wcag22Criteria (convertWCAGFormat (WCAG_SC it))); simpl.
    + reflexivity.
    + rewrite hasNum_app. simpl. rewrite orb_false_r.
      unfold isNum. now rewrite orb_assoc.
Qed.

Lemma hasNum_processed data c :
  hasNum (processedWcagNums data) c
  = existsb (fun it =>
               negb (includesOpt wcag22Criteria (convertWCAGFormat (WCAG_SC it)))
               && isNum c (convertWCAGFormat (WCAG_SC it))) data.
Proof. unfold processedWcagNums. now rewrite hasNum_processed_gen. Qed.

Lemma isString_eq o code : isString o code = true <-> o = VString code.
Proof.
  destruct o as [| s | n | name]; simpl; try (split; discriminate).
  rewrite String.eqb_eq. split; congruence.
Qed.

Lemma isNum_eq code o : isNum code o = true <-> o = VString code.
Proof. apply isString_eq. Qed.

Lemma naList_not_excluded code :
  In code naList -> includes wcag22Criteria code = false.
Proof.
  unfold naList. simpl. intros H.
  repeat (destruct H as [H | H]; [subst; reflexivity |]). contradiction.
Qed.

(** What the first pass pushes for an upstream row of a forced code. *)
Lemma renderItem_forced it code :
  In code naList ->
  convertWCAGFormat (WCAG_SC it) = VString code ->
  renderItem it
  = Some (mkCriterion (VString code) (VString "not-applicable")
            (VString "Not applicable.")
            (ofCell (Issue_Count it)) (ofCell (Issue_IDs it))).
Proof.
  intros Hin Hc. unfold renderItem, isNotApplicable. rewrite Hc.
  change (includesOpt wcag22Criteria (VString code))
    with (includes wcag22Criteria code).
  change (includesOpt naList (VString code)) with (includes naList code).
  rewrite (naList_not_excluded _ Hin).
  apply includes_In in Hin. rewrite Hin. reflexivity.
Qed.

Lemma renderItem_num it r :
  renderItem it = Some r -> num r = convertWCAGFormat (WCAG_SC it).
Proof.
  unfold renderItem.
  destruct (includesOpt wcag22Criteria _); [discriminate |].
  destruct (isNotApplicable _).
  - intros H. injection H as <-. reflexivity.
  - destruct (isString _ _); [destruct (getPositiveStatement _) |];
      intros H; injection H as <-; reflexivity.
Qed.

Lemma In_rows_generateOpenACR data r :
  In r (rows (generateOpenACR data)) <->
  (exists it, In it data /\ renderItem it = Some r) \/
  (exists c, In c naList /\ hasNum (processedWcagNums data) c = false
             /\ r = naCriterion c).
Proof.
  unfold generateOpenACR. rewrite In_secondPass, In_firstPass.
  change (rows emptySections) with (@nil criterion).
  split; [intros [[[] | H] | H] | intros [H | H]]; auto.
Qed.

(** ** Reading a table at a key *)

Lemma getProperty_own key table v :
  lookup key table = Some v -> getProperty key table = VString v.
Proof. intros H. unfold getProperty. now rewrite H. Qed.

Lemma getProperty_inherited key table :
  lookup key table = None -> includes objectPrototype key = true ->
  getProperty key table = VInherited key.
Proof. intros H P. unfold getProperty. now rewrite H, P. Qed.

Lemma getProperty_undefined key table :
  lookup key table = None -> includes objectPrototype key = false ->
  getProperty key table = VUndefined.
Proof. intros H P. unfold getProperty. now rewrite H, P. Qed.

(** ** The level mapping *)

Definition fiveValues : list value :=
  [ VString "supports"; VString "partially-supports"; VString "does-not-support";
    VString "not-applicable"; VString "not-evaluated" ].

Lemma convertAssessmentToAdherence_cases a :
  (a = Some "SUPPORTED" /\ convertAssessmentToAdherence a = VString "supports") \/
  (a = Some "PARTIALLY_SUPPORTED"
   /\ convertAssessmentToAdherence a = VString "partially-supports") \/
  (a = Some "NOT_SUPPORTED"
   /\ convertAssessmentToAdherence a = VString "does-not-support") \/
  (a = Some "NOT_APPLICABLE"
   /\ convertAssessmentToAdherence a = VString "not-applicable") \/
  (~ In a [Some "SUPPORTED"; Some "PARTIALLY_SUPPORTED"; Some "NOT_SUPPORTED";
           Some "NOT_APPLICABLE"]
   /\ includes objectPrototype (keyOf a) = false
   /\ convertAssessmentToAdherence a = VString "not-evaluated") \/
  (includes objectPrototype (keyOf a) = true
   /\ convertAssessmentToAdherence a = VInherited (keyOf a)).
Proof.
  destruct a as [s|].
  - unfold convertAssessmentToAdherence, getProperty, mapping, keyOf, lookup.
    destruct (String.eqb_spec "SUPPORTED" s) as [<- | N1]; [left; split; reflexivity |].
    destruct (String.eqb_spec "PARTIALLY_SUPPORTED" s) as [<- | N2];
      [right; left; split; reflexivity |].
    destruct (String.eqb_spec "NOT_SUPPORTED" s) as [<- | N3];
      [right; right; left; split; reflexivity |].
    destruct (String.eqb_spec "NOT_APPLICABLE" s) as [<- | N4];
      [right; right; right; left; split; reflexivity |].
    assert (NI : ~ In (Some s)
                   [Some "SUPPORTED"; Some "PARTIALLY_SUPPORTED";
                    Some "NOT_SUPPORTED"; Some "NOT_APPLICABLE"]).
    { simpl. intros [H | [H | [H | [H | []]]]]; congruence. }
    destruct (String.eqb_spec "REQUIRES_REVIEW" s) as [<- | N5].
    { right; right; right; right; left. split; [exact NI |]. split; reflexivity. }
    destruct (String.eqb_spec "ERROR" s) as [<- | N6].
    { right; right; right; right; left. split; [exact NI |]. split; reflexivity. }
    destruct (includes objectPrototype s) eqn:P.
    + right; right; right; right; right. split; reflexivity.
    + right; right; right; right; left. split; [exact NI |]. split; reflexivity.
  - right; right; right; right; left. split; [| split; reflexivity].
    simpl. intros [H | [H | [H | [H | []]]]]; discriminate.
Qed.

(** A member of Object.prototype is none of the five values. *)
Lemma inherited_not_a_value name : ~ In (VInherited name) fiveValues.
Proof. simpl. intros [H | [H | [H | [H | [H | []]]]]]; discriminate. Qed.

Lemma lookup_In key table v :
  lookup key table = Some v -> In (key, v) table.
Proof.
  induction table as [| [k w] table IH]; simpl; [discriminate |].
  destruct (String.eqb_spec k key) as [-> | N].
  - intros H. injection H as ->. now left.
  - intros H. right. auto.
Qed.

Lemma positive_statements_truthy key v :
  lookup key wcagPositiveStatements = Some v -> truthy v = true.
Proof.
  intros H. apply lookup_In in H.
  assert (F : forallb (fun kv => truthy (snd kv)) wcagPositiveStatements = true)
    by (vm_compute; reflexivity).
  rewrite forallb_forall in F. apply (F _ H).
Qed.

Lemma getPositiveStatement_own wcagNum canned :
  lookup (textOf wcagNum) wcagPositiveStatements = Some canned ->
  getPositiveStatement wcagNum = Some (VString canned).
Proof.
  intros H. unfold getPositiveStatement.
  rewrite (getProperty_own _ _ _ H). cbn [truthyValue].
  now rewrite (positive_statements_truthy _ _ H).
Qed.

Lemma getPositiveStatement_inherited wcagNum :
  lookup (textOf wcagNum) wcagPositiveStatements = None ->
  includes objectPrototype (textOf wcagNum) = true ->
  getPositiveStatement wcagNum = Some (VInherited (textOf wcagNum)).
Proof.
  intros H P. unfold getPositiveStatement.
  now rewrite (getProperty_inherited _ _ H P).
Qed.

Lemma getPositiveStatement_none wcagNum :
  lookup (textOf wcagNum) wcagPositiveStatements = None ->
  includes objectPrototype (textOf wcagNum) = false ->
  getPositiveStatement wcagNum = None.
Proof.
  intros H P. unfold getPositiveStatement.
  now rewrite (getProperty_undefined _ _ H P).
Qed.

(** What the first pass pushes for a row outside both override tables. *)
Lemma renderItem_plain it :
  includesOpt wcag22Criteria (convertWCAGFormat (WCAG_SC it)) = false ->
  isNotApplicable (convertWCAGFormat (WCAG_SC it)) = false ->
  exists r,
    renderItem it = Some r /\
    num r = convertWCAGFormat (WCAG_SC it) /\
    adherenceLevel r = convertAssessmentToAdherence (ACR_Assessment it) /\
    issueCount r = ofCell (Issue_Count it) /\
    issueIds r = ofCell (Issue_IDs it) /\
    (adherenceLevel r <> VString "supports" ->
     notes r = VString (orElse (ACR_Summary it) "No assessment available")).
Proof.
  intros Hx Hna. unfold renderItem. rewrite Hx, Hna.
  destruct (isString (convertAssessmentToAdherence (ACR_Assessment it)) "supports")
    eqn:E.
  - apply isString_eq in E.
    destruct (getPositiveStatement _); eexists; repeat split; simpl; congruence.
  - eexists; repeat split.
Qed.

(** What it pushes when the level maps to supports. *)
Lemma renderItem_supports it :
  includesOpt wcag22Criteria (convertWCAGFormat (WCAG_SC it)) = false ->
  isNotApplicable (convertWCAGFormat (WCAG_SC it)) = false ->
  convertAssessmentToAdherence (ACR_Assessment it) = VString "supports" ->
  renderItem it
  = Some (mkCriterion (convertWCAGFormat (WCAG_SC it)) (VString "supports")
            match getPositiveStatement (convertWCAGFormat (WCAG_SC it)) with
            | Some positiveStatement => positiveStatement
            | None => VString (orElse (ACR_Summary it) "No assessment available")
            end
            (ofCell (Issue_Count it)) (ofCell (Issue_IDs it))).
Proof.
  intros Hx Hna Hs. unfold renderItem. rewrite Hx, Hna, Hs.
  cbn [isString]. rewrite String.eqb_refl.
  now destruct (getPositiveStatement _).
Qed.

(** ** Counting rows of one criterion number *)

Lemma filter_key_NoDup (g : string -> bool) (x : string) (l : list string) :
  NoDup l -> In x l ->
  List.length (filter (fun c => g c && String.eqb c x) l) = if g x then 1 else 0.
Proof.
  intros ND. induction ND as [| y l Hy ND IH]; simpl; [contradiction |].
  intros [-> | Hin].
  - rewrite String.eqb_refl, andb_true_r.
    assert (Z0 : filter (fun c => g c && String.eqb c x) l = []).
    { clear IH ND. induction l as [| z l IHl]; simpl; [reflexivity |].
      destruct (String.eqb_spec z x) as [-> | N].
      - exfalso. apply Hy. now left.
      - rewrite andb_false_r. apply IHl. intros H. apply Hy. now right. }
    destruct (g x); simpl; now rewrite Z0.
  - destruct (String.eqb_spec y x) as [-> | N]; [contradiction |].
    rewrite andb_false_r. auto.
Qed.

Lemma naList_NoDup : NoDup naList.
Proof.
  unfold naList.
  repeat (constructor; [simpl; intros H; repeat (destruct H as [H | H]; [discriminate |]); contradiction |]).
  constructor.
Qed.

Lemma existsb_length_filter {T} (g : T -> bool) (l : list T) :
  existsb g l = negb (Nat.eqb (List.length (filter g l)) 0).
Proof.
  induction l as [| x l IH]; simpl; [reflexivity |].
  destruct (g x); simpl; auto.
Qed.

Section ForcedCode.

Variable code : string.
Hypothesis code_forced : In code naList.

Lemma fItem_forced it :
  fItem (fun r => isNum code (num r)) it
  = isNum code (convertWCAGFormat (WCAG_SC it)).
Proof.
  unfold fItem.
  destruct (isNum code (convertWCAGFormat (WCAG_SC it))) eqn:E.
  - apply isNum_eq in E.
    rewrite (renderItem_forced it code code_forced E). cbn [num].
    apply String.eqb_refl.
  - destruct (renderItem it) as [r|] eqn:R; [| reflexivity].
    now rewrite (renderItem_num _ _ R).
Qed.

Lemma processed_forced data :
  hasNum (processedWcagNums data) code
  = negb (Nat.eqb (upstreamCount code data) 0).
Proof.
  rewrite hasNum_processed. unfold upstreamCount.
  rewrite <- existsb_length_filter.
  induction data as [| it data IH]; simpl; [reflexivity |].
  rewrite IH. f_equal.
  destruct (isNum code (convertWCAGFormat (WCAG_SC it))) eqn:E;
    [| apply andb_false_r].
  apply isNum_eq in E. rewrite E.
  change (includesOpt wcag22Criteria (VString code))
    with (includes wcag22Criteria code).
  now rewrite (naList_not_excluded _ code_forced).
Qed.

Lemma countNum_generateOpenACR data :
  countNum code (rows (generateOpenACR data))
  = Nat.max 1 (upstreamCount code data).
Proof.
  unfold countNum, generateOpenACR.
  rewrite count_secondPass, count_firstPass.
  change (rows emptySections) with (@nil criterion).
  cbn [filter List.length Nat.add].
  rewrite (filter_ext _ _ fItem_forced).
  fold (upstreamCount code data).
  rewrite (filter_ext (fNa _ _)
             (fun c => negb (hasNum (processedWcagNums data) c) && String.eqb c code)
             (fun c => eq_refl)).
  rewrite (filter_key_NoDup
             (fun c => negb (hasNum (processedWcagNums data) c)) code naList
             naList_NoDup code_forced).
  rewrite processed_forced.
  destruct (upstreamCount code data); simpl; lia.
Qed.

End ForcedCode.

Lemma filter_singleton {T} (g : T -> bool) (l : list T) (x : T) :
  List.length (filter g l) = 1 -> In x l -> g x = true -> filter g l = [x].
Proof.
  intros L Hin Hg.
  assert (Hx : In x (filter g l)) by (apply filter_In; auto).
  destruct (filter g l) as [| y [| z t]]; simpl in *; try discriminate.
  destruct Hx as [-> | []]. reflexivity.
Qed.

(** ** The rows the Aggregator writes *)

(** The codes of the Collector's table: the Aggregator writes one row for
    each of them that has issues, and no other. *)
Definition collectorCodes : list string :=
  map CollectorRun.Table.code CollectorRun.Table.wcagCriteria.

Definition fromCollector (it : item) : Prop :=
  exists c, In c collectorCodes /\ WCAG_SC it = Some c.

Definition valueEqb (a b : value) : bool :=
  match a, b with
  | VUndefined, VUndefined => true
  | VString s, VString t => String.eqb s t
  | VNumber n, VNumber m => Z.eqb n m
  | VInherited s, VInherited t => String.eqb s t
  | _, _ => false
  end.

Lemma valueEqb_refl a : valueEqb a a = true.
Proof.
  destruct a; simpl; [reflexivity | apply String.eqb_refl | apply Z.eqb_refl
                     | apply String.eqb_refl].
Qed.

(** The conversion sends distinct codes of the Collector to distinct
    numbers. *)
Lemma convertWCAGFormat_injective a b :
  In a collectorCodes -> In b collectorCodes ->
  convertWCAGFormat (Some a) = convertWCAGFormat (Some b) -> a = b.
Proof.
  intros Ha Hb E.
  assert (F : forallb
                (fun a =>
                   forallb
                     (fun b =>
                        negb (valueEqb (convertWCAGFormat (Some a))
                                (convertWCAGFormat (Some b)))
                        || String.eqb a b)
                     collectorCodes)
                collectorCodes = true)
    by (vm_compute; reflexivity).
  rewrite forallb_forall in F. specialize (F a Ha).
  rewrite forallb_forall in F. specialize (F b Hb).
  rewrite E, valueEqb_refl in F. cbn [negb orb] in F.
  now apply String.eqb_eq.
Qed.

Lemma upstreamCount_cons code it data :
  upstreamCount code (it :: data)
  = (if isNum code (convertWCAGFormat (WCAG_SC it)) then 1 else 0)
    + upstreamCount code data.
Proof.
  unfold upstreamCount. cbn [filter].
  now destruct (isNum code (convertWCAGFormat (WCAG_SC it))).
Qed.

Lemma upstreamCount_none code data :
  (forall it, In it data -> isNum code (convertWCAGFormat (WCAG_SC it)) = false) ->
  upstreamCount code data = 0.
Proof.
  induction data as [| it data IH]; intros H; [reflexivity |].
  rewrite upstreamCount_cons, (H it (or_introl eq_refl)), IH; [reflexivity |].
  intros it' Hin. apply H. now right.
Qed.

(** Upstream rows with pairwise distinct codes of the Collector hold at
    most one row of each criterion number. *)
Lemma distinct_codes_at_most_one_row code data :
  NoDup (map WCAG_SC data) -> Forall fromCollector data ->
  upstreamCount code data <= 1.
Proof.
  induction data as [| it data IH]; intros ND FC;
    [unfold upstreamCount; simpl; lia |].
  cbn [map] in ND. apply NoDup_cons_iff in ND. destruct ND as [Hnew ND].
  apply Forall_cons_iff in FC. destruct FC as [(c & Hc & Ec) FC].
  rewrite upstreamCount_cons.
  destruct (isNum code (convertWCAGFormat (WCAG_SC it))) eqn:E.
  - rewrite upstreamCount_none; [lia |].
    intros it' Hin.
    destruct (isNum code (convertWCAGFormat (WCAG_SC it'))) eqn:E'; [| reflexivity].
    exfalso. apply Hnew.
    rewrite Forall_forall in FC. destruct (FC it' Hin) as (c' & Hc' & Ec').
    apply isNum_eq in E, E'. rewrite Ec in E. rewrite Ec' in E'.
    assert (c' = c).
    { apply convertWCAGFormat_injective; [assumption .. | congruence]. }
    subst c'. rewrite Ec, <- Ec'. now apply in_map.
  - specialize (IH ND FC). lia.
Qed.

(** Every code of the Collector that the Renderer does not exclude has a
    canned positive statement. *)
Definition cannedOrExcluded (c : string) : bool :=
  match lookup (textOf (convertWCAGFormat (Some c))) wcagPositiveStatements with
  | Some _ => true
  | None => includesOpt wcag22Criteria (convertWCAGFormat (Some c))
  end.

Lemma collector_codes_canned c :
  In c collectorCodes -> cannedOrExcluded c = true.
Proof.
  assert (F : forallb cannedOrExcluded collectorCodes = true)
    by (vm_compute; reflexivity).
  rewrite forallb_forall in F. apply F.
Qed.

(** The level of a row, whatever it is: the five values are reached
    exactly by the levels that name no member of Object.prototype. *)
Lemma adherence_among_five a :
  In (convertAssessmentToAdherence a) fiveValues <->
  includes objectPrototype (keyOf a) = false.
Proof.
  destruct (convertAssessmentToAdherence_cases a)
    as [[E ->] | [[E ->] | [[E ->] | [[E ->] | [(_ & Q & ->) | [Q ->]]]]]];
    try (subst a; split; [reflexivity | intros _; simpl; tauto]).
  - split; [intros _; exact Q | intros _; simpl; tauto].
  - split; [intros H; now apply inherited_not_a_value in H | congruence].
Qed.

Lemma adherence_inherited a :
  includes objectPrototype (keyOf a) = true ->
  convertAssessmentToAdherence a = VInherited (keyOf a).
Proof.
  intros P.
  destruct (convertAssessmentToAdherence_cases a)
    as [[E _] | [[E _] | [[E _] | [[E _] | [(_ & Q & _) | [_ E]]]]]];
    try (subst a; vm_compute in P; discriminate P); [congruence | exact E].
Qed.

(** ** Claims on the Renderer *)

(** C1. For every code of the forced not-applicable table: the code is not
    in the WCAG 2.2 exclusion set; every rendered row carrying it has
    adherence level not-applicable and notes Not applicable.; and every
    upstream row of that code is rendered with exactly these two fields,
    whatever assessment level and narrative the row came with. *)
Theorem forced_not_applicable_wins :
  forall (consolidatedData : list item) (code : string),
    In code naList ->
    includes wcag22Criteria code = false /\
    (forall r, In r (rows (generateOpenACR consolidatedData)) ->
       num r = VString code ->
       adherenceLevel r = VString "not-applicable" /\
       notes r = VString "Not applicable.") /\
    (forall it, In it consolidatedData ->
       convertWCAGFormat (WCAG_SC it) = VString code ->
       In (mkCriterion (VString code) (VString "not-applicable")
             (VString "Not applicable.")
             (ofCell (Issue_Count it)) (ofCell (Issue_IDs it)))
          (rows (generateOpenACR consolidatedData))).
Proof.
  intros data code Hin. split; [now apply naList_not_excluded |]. split.
  - intros r Hr Hnum. apply In_rows_generateOpenACR in Hr.
    destruct Hr as [[it [Hit R]] | [c [Hc [_ ->]]]].
    + pose proof (renderItem_num _ _ R) as E. rewrite Hnum in E.
      rewrite (renderItem_forced it code Hin (eq_sym E)) in R.
      injection R as <-. split; reflexivity.
    + split; reflexivity.
  - intros it Hit Hc. apply In_rows_generateOpenACR. left.
    exists it. split; [assumption |]. now apply renderItem_forced.
Qed.

(** The scenario of the specification: upstream level SUPPORTED for 2.2.1. *)
Lemma forced_not_applicable_wins_witness :
  In "2.2.1" naList /\
  In (mkCriterion (VString "2.2.1") (VString "not-applicable")
        (VString "Not applicable.") (VString "4") (VString "3001, 3002"))
     (rows (generateOpenACR
              [mkItem (Some "2.2.1") (Some "SUPPORTED")
                 (Some "Timers can be extended.") (Some "4")
                 (Some "3001, 3002")])).
Proof.
  assert (H : In "2.2.1" naList) by (simpl; tauto).
  split; [exact H |].
  destruct (forced_not_applicable_wins
              [mkItem (Some "2.2.1") (Some "SUPPORTED")
                 (Some "Timers can be extended.") (Some "4")
                 (Some "3001, 3002")] "2.2.1" H) as [_ [_ H3]].
  apply (H3 (mkItem (Some "2.2.1") (Some "SUPPORTED")
               (Some "Timers can be extended.") (Some "4")
               (Some "3001, 3002"))); [now left | reflexivity].
Defined.

(** C3.  The Renderer reads what the Aggregator wrote: at most one row for
    each criterion code.  On such input every code of the forced
    not-applicable table is carried by exactly one rendered row.  When
    upstream holds no row of the code, that row is the synthesized one:
    not-applicable, Not applicable., issue count 0 and an empty id list;
    when upstream holds one, it is that row, forced to not-applicable.
    The input condition is met by rows with pairwise distinct codes of
    the Collector (distinct_codes_at_most_one_row). *)
Theorem forced_codes_always_present :
  forall (consolidatedData : list item) (code : string),
    In code naList ->
    upstreamCount code consolidatedData <= 1 ->
    countNum code (rows (generateOpenACR consolidatedData)) = 1 /\
    (upstreamCount code consolidatedData = 0 ->
     filter (fun r => isNum code (num r)) (rows (generateOpenACR consolidatedData))
     = [mkCriterion (VString code) (VString "not-applicable")
          (VString "Not applicable.") (VNumber 0) (VString EmptyString)]) /\
    (forall it, In it consolidatedData ->
       convertWCAGFormat (WCAG_SC it) = VString code ->
       filter (fun r => isNum code (num r)) (rows (generateOpenACR consolidatedData))
       = [mkCriterion (VString code) (VString "not-applicable")
            (VString "Not applicable.")
            (ofCell (Issue_Count it)) (ofCell (Issue_IDs it))]).
Proof.
  intros data code Hin Hone.
  pose proof (countNum_generateOpenACR code Hin data) as C.
  assert (C1 : countNum code (rows (generateOpenACR data)) = 1) by lia.
  split; [exact C1 |]. split.
  - intros Z. apply filter_singleton.
    + exact C1.
    + apply In_rows_generateOpenACR. right. exists code.
      split; [assumption |]. split; [| reflexivity].
      rewrite (processed_forced code Hin), Z. reflexivity.
    + simpl. apply String.eqb_refl.
  - intros it Hit Hc. apply filter_singleton.
    + exact C1.
    + apply In_rows_generateOpenACR. left. exists it.
      split; [assumption |]. now apply renderItem_forced.
    + simpl. apply String.eqb_refl.
Qed.

Lemma forced_codes_always_present_witness :
  In "4.1.1" naList /\
  upstreamCount "4.1.1"
    [mkItem (Some "wcag111") (Some "NOT_SUPPORTED") (Some "X") (Some "2")
       (Some "10, 11")] <= 1 /\
  filter (fun r => isNum "4.1.1" (num r))
    (rows (generateOpenACR
             [mkItem (Some "wcag111") (Some "NOT_SUPPORTED") (Some "X")
                (Some "2") (Some "10, 11")]))
  = [mkCriterion (VString "4.1.1") (VString "not-applicable")
       (VString "Not applicable.") (VNumber 0) (VString EmptyString)].
Proof.
  assert (H : In "4.1.1" naList) by (simpl; tauto).
  assert (L : upstreamCount "4.1.1"
                [mkItem (Some "wcag111") (Some "NOT_SUPPORTED") (Some "X") (Some "2")
                   (Some "10, 11")] <= 1) by (vm_compute; lia).
  split; [exact H |]. split; [exact L |].
  destruct (forced_codes_always_present
              [mkItem (Some "wcag111") (Some "NOT_SUPPORTED") (Some "X")
                 (Some "2") (Some "10, 11")] "4.1.1" H L) as [_ [H2 _]].
  apply H2. reflexivity.
Defined.

(** C4. A row outside the exclusion set and the forced table is rendered
    with what convertAssessmentToAdherence gives its upstream level.  The
    four named levels are mapped as listed, and level NOT_SUPPORTED keeps
    a non-empty upstream narrative verbatim, as in the scenario with code
    1.1.1 and narrative X.  A missing level and every other level that
    names no member of Object.prototype map to not-evaluated.  A level that
    names a member of Object.prototype (constructor, toString, valueOf,
    __proto__ and the like) does not: the mapping table inherits that
    member, so the adherence level of the row is the member itself, a
    function or an object and none of the five values, while the notes
    keep the narrative. *)
Theorem assessment_level_mapping :
  forall (consolidatedData : list item) (it : item),
    In it consolidatedData ->
    includesOpt wcag22Criteria (convertWCAGFormat (WCAG_SC it)) = false ->
    isNotApplicable (convertWCAGFormat (WCAG_SC it)) = false ->
    exists r,
      renderItem it = Some r /\
      In r (rows (generateOpenACR consolidatedData)) /\
      num r = convertWCAGFormat (WCAG_SC it) /\
      adherenceLevel r = convertAssessmentToAdherence (ACR_Assessment it) /\
      (ACR_Assessment it = Some "SUPPORTED" ->
       adherenceLevel r = VString "supports") /\
      (ACR_Assessment it = Some "PARTIALLY_SUPPORTED" ->
       adherenceLevel r = VString "partially-supports") /\
      (ACR_Assessment it = Some "NOT_SUPPORTED" ->
       adherenceLevel r = VString "does-not-support") /\
      (ACR_Assessment it = Some "NOT_APPLICABLE" ->
       adherenceLevel r = VString "not-applicable") /\
      (~ In (ACR_Assessment it)
            [Some "SUPPORTED"; Some "PARTIALLY_SUPPORTED"; Some "NOT_SUPPORTED";
             Some "NOT_APPLICABLE"] ->
       includes objectPrototype (keyOf (ACR_Assessment it)) = false ->
       adherenceLevel r = VString "not-evaluated") /\
      (includes objectPrototype (keyOf (ACR_Assessment it)) = true ->
       adherenceLevel r = VInherited (keyOf (ACR_Assessment it)) /\
       adherenceLevel r <> VString "not-evaluated" /\
       notes r = VString (orElse (ACR_Summary it) "No assessment available")) /\
      (In (adherenceLevel r)
          [ VString "supports"; VString "partially-supports";
            VString "does-not-support"; VString "not-applicable";
            VString "not-evaluated" ]
       <-> includes objectPrototype (keyOf (ACR_Assessment it)) = false) /\
      (forall narrative,
         ACR_Assessment it = Some "NOT_SUPPORTED" ->
         ACR_Summary it = Some narrative -> narrative <> EmptyString ->
         notes r = VString narrative) /\
      (WCAG_SC it = Some "1.1.1" -> ACR_Assessment it = Some "NOT_SUPPORTED" ->
       ACR_Summary it = Some "X" ->
       r = mkCriterion (VString "1.1.1") (VString "does-not-support") (VString "X")
             (ofCell (Issue_Count it)) (ofCell (Issue_IDs it))).
Proof.
  intros data it Hit Hx Hna.
  destruct (renderItem_plain it Hx Hna)
    as [r [R [Hnum [Hlev [Hcount [Hids Hnotes]]]]]].
  exists r. split; [exact R |]. split.
  { apply In_rows_generateOpenACR. left. exists it. auto. }
  split; [exact Hnum |]. split; [exact Hlev |].
  assert (NS : forall narrative,
             ACR_Assessment it = Some "NOT_SUPPORTED" ->
             ACR_Summary it = Some narrative -> narrative <> EmptyString ->
             notes r = VString narrative).
  { intros n Ha Hs Hn. rewrite Hnotes.
    - rewrite Hs. f_equal. apply truthy_orElse.
      destruct n; [congruence | reflexivity].
    - rewrite Hlev, Ha. intros H. vm_compute in H. discriminate H. }
  split; [intros Ha; rewrite Hlev, Ha; reflexivity |].
  split; [intros Ha; rewrite Hlev, Ha; reflexivity |].
  split; [intros Ha; rewrite Hlev, Ha; reflexivity |].
  split; [intros Ha; rewrite Hlev, Ha; reflexivity |].
  split.
  { intros Hn P. rewrite Hlev.
    destruct (convertAssessmentToAdherence_cases (ACR_Assessment it))
      as [[E _] | [[E _] | [[E _] | [[E _] | [(_ & _ & E) | [Q _]]]]]];
      try exact E; try congruence; exfalso; apply Hn; rewrite E; simpl; tauto. }
  split.
  { intros P. pose proof (adherence_inherited _ P) as E.
    rewrite <- Hlev in E. split; [exact E |]. split.
    - rewrite E. discriminate.
    - apply Hnotes. rewrite E. discriminate. }
  split.
  { rewrite Hlev. apply adherence_among_five. }
  split; [exact NS |].
  intros Hc Ha Hs.
  assert (Hn : notes r = VString "X")
    by (apply NS; [assumption .. | discriminate]).
  destruct r as [n a t c i]. cbn [num adherenceLevel notes issueCount issueIds] in *.
  rewrite Hc in Hnum. rewrite Ha in Hlev. subst.
  reflexivity.
Qed.

(** A row whose level reads constructor. *)
Lemma assessment_level_mapping_witness :
  exists r,
    In r (rows (generateOpenACR
                  [mkItem (Some "wcag111") (Some "constructor") (Some "X")
                     (Some "3") (Some "7, 8, 9")])) /\
    num r = VString "1.1.1" /\
    adherenceLevel r = VInherited "constructor" /\
    adherenceLevel r <> VString "not-evaluated" /\
    notes r = VString "X".
Proof.
  destruct (assessment_level_mapping
              [mkItem (Some "wcag111") (Some "constructor") (Some "X")
                 (Some "3") (Some "7, 8, 9")]
              (mkItem (Some "wcag111") (Some "constructor") (Some "X")
                 (Some "3") (Some "7, 8, 9"))
              (or_introl eq_refl) eq_refl eq_refl)
    as [r [_ [Hin [Hnum [_ [_ [_ [_ [_ [_ [Hinh _]]]]]]]]]]].
  exists r. split; [exact Hin |]. split; [exact Hnum |].
  apply Hinh. reflexivity.
Defined.

(** The scenario of the specification, evaluated: code 1.1.1, level
    NOT_SUPPORTED, narrative X. *)
Example not_supported_keeps_narrative :
  rows (generateOpenACR
          [mkItem (Some "1.1.1") (Some "NOT_SUPPORTED") (Some "X") (Some "3")
             (Some "7, 8, 9")])
  = (mkCriterion (VString "1.1.1") (VString "does-not-support") (VString "X")
       (VString "3") (VString "7, 8, 9")
     :: map naCriterion
          [ "1.2.1"; "1.2.3"; "1.4.2"; "2.1.4"; "2.2.1"; "2.2.2"; "2.3.1";
            "2.5.4"; "4.1.1"; "1.2.4"; "1.2.5" ])%list.
Proof. vm_compute. reflexivity. Qed.

(** C5.  For every upstream row whose code is neither in the exclusion set
    nor in the forced not-applicable table (the two overrides come first)
    and whose level maps to supports: the row is rendered with adherence
    level supports, and if the canned positive-statement table has an
    entry for its criterion number, the rendered notes are that entry
    verbatim, whatever the upstream narrative.  That is the case of every
    code of the Collector.  If the table has no entry and the number names
    no member of Object.prototype, the upstream narrative is retained
    verbatim, a missing or empty one reading No assessment available.  A
    number that names a member of Object.prototype, which no code of the
    Collector converts to, gets that member as its notes. *)
Theorem canned_positive_statement :
  forall (consolidatedData : list item) (it : item),
    In it consolidatedData ->
    includesOpt wcag22Criteria (convertWCAGFormat (WCAG_SC it)) = false ->
    isNotApplicable (convertWCAGFormat (WCAG_SC it)) = false ->
    convertAssessmentToAdherence (ACR_Assessment it) = VString "supports" ->
    exists r,
      renderItem it = Some r /\
      In r (rows (generateOpenACR consolidatedData)) /\
      num r = convertWCAGFormat (WCAG_SC it) /\
      adherenceLevel r = VString "supports" /\
      (forall canned,
         lookup (textOf (num r)) wcagPositiveStatements = Some canned ->
         notes r = VString canned) /\
      (forall e, In e CollectorRun.Table.wcagCriteria ->
         WCAG_SC it = Some (CollectorRun.Table.code e) ->
         exists canned,
           lookup (textOf (num r)) wcagPositiveStatements = Some canned /\
           notes r = VString canned) /\
      (lookup (textOf (num r)) wcagPositiveStatements = None ->
       includes objectPrototype (textOf (num r)) = false ->
       notes r = VString (orElse (ACR_Summary it) "No assessment available") /\
       (forall narrative,
          ACR_Summary it = Some narrative -> narrative <> EmptyString ->
          notes r = VString narrative)) /\
      (lookup (textOf (num r)) wcagPositiveStatements = None ->
       includes objectPrototype (textOf (num r)) = true ->
       notes r = VInherited (textOf (num r))).
Proof.
  intros data it Hit Hx Hna Hs.
  pose proof (renderItem_supports it Hx Hna Hs) as R.
  eexists. split; [exact R |].
  split. { apply In_rows_generateOpenACR. left. exists it. auto. }
  cbn [num adherenceLevel notes].
  split; [reflexivity |]. split; [reflexivity |].
  assert (Canned : forall canned,
             lookup (textOf (convertWCAGFormat (WCAG_SC it))) wcagPositiveStatements
             = Some canned ->
             match getPositiveStatement (convertWCAGFormat (WCAG_SC it)) with
             | Some positiveStatement => positiveStatement
             | None => VString (orElse (ACR_Summary it) "No assessment available")
             end = VString canned).
  { intros canned L. now rewrite (getPositiveStatement_own _ _ L). }
  split; [exact Canned |]. split.
  { intros e He Hc.
    pose proof (collector_codes_canned (CollectorRun.Table.code e)
                  (in_map CollectorRun.Table.code _ e He)) as F.
    unfold cannedOrExcluded in F. rewrite <- Hc in F.
    destruct (lookup (textOf (convertWCAGFormat (WCAG_SC it)))
                wcagPositiveStatements) as [canned |] eqn:L.
    - exists canned. split; [reflexivity |]. now apply Canned.
    - rewrite Hx in F. discriminate F. }
  split.
  - intros L P. rewrite (getPositiveStatement_none _ L P).
    split; [reflexivity |].
    intros n Hsum Hne. rewrite Hsum. f_equal. apply truthy_orElse.
    destruct n; [congruence | reflexivity].
  - intros L P. now rewrite (getPositiveStatement_inherited _ L P).
Qed.

Lemma canned_positive_statement_witness :
  exists r,
    renderItem (mkItem (Some "wcag111") (Some "SUPPORTED")
                  (Some "Upstream narrative.") (Some "1") (Some "42"))
    = Some r /\
    adherenceLevel r = VString "supports" /\
    notes r
    = VString "Images and form elements have text alternatives that adequately describe the purpose and meaning".
Proof.
  destruct (canned_positive_statement
              [mkItem (Some "wcag111") (Some "SUPPORTED")
                 (Some "Upstream narrative.") (Some "1") (Some "42")]
              (mkItem (Some "wcag111") (Some "SUPPORTED")
                 (Some "Upstream narrative.") (Some "1") (Some "42"))
              (or_introl eq_refl) eq_refl eq_refl eq_refl)
    as [r [R [_ [Hnum [Hlev [Hcanned _]]]]]].
  exists r. split; [exact R |]. split; [exact Hlev |].
  apply Hcanned. rewrite Hnum. vm_compute. reflexivity.
Defined.

End RendererFacts.

(* ===================================================================== *)
(** * Properties of the Renderer's sections *)
(* ===================================================================== *)

Module RendererSectionFacts.
Import JS JSFacts Renderer RendererFacts.

(** X23. No row of the output carries one of the excluded WCAG 2.2
    numbers, whatever the input: an upstream row with such a number is
    skipped, and no forced number is an excluded one. *)
Theorem excluded_codes_never_rendered :
  forall (consolidatedData : list item) (r : criterion),
    In r (rows (generateOpenACR consolidatedData)) ->
    includesOpt wcag22Criteria (num r) = false.
Proof.
  intros data r H. apply In_rows_generateOpenACR in H.
  destruct H as [(it & _ & R) | (c & Hc & _ & ->)].
  - rewrite (renderItem_num it r R). unfold renderItem in R.
    destruct (includesOpt wcag22Criteria (convertWCAGFormat (WCAG_SC it)));
      [discriminate | reflexivity].
  - simpl. now apply naList_not_excluded.
Qed.

Lemma excluded_codes_never_rendered_witness :
  includesOpt wcag22Criteria
    (num (mkCriterion (VString "1.2.1") (VString "not-applicable")
            (VString "Not applicable.") (VNumber 0) (VString EmptyString)))
  = false.
Proof.
  apply (excluded_codes_never_rendered
           [ mkItem (Some "wcag258") (Some "SUPPORTED") (Some "Fine.") (Some "1")
               (Some "3001") ]).
  vm_compute. now left.
Defined.

(** ** Each section holds the rows of its level *)

Definition leveled (s : sections) : Prop :=
  Forall (fun c => getWCAGLevel (num c) = A) (levelACriteria s) /\
  Forall (fun c => getWCAGLevel (num c) = AA) (levelAACriteria s) /\
  Forall (fun c => getWCAGLevel (num c) = AAA) (levelAAACriteria s).

Lemma pushByLevel_leveled s c : leveled s -> leveled (pushByLevel s c).
Proof.
  intros (HA & HAA & HAAA). unfold pushByLevel.
  destruct (getWCAGLevel (num c)) eqn:E; repeat split; cbn; try assumption;
    apply Forall_app; (split; [assumption |]); now constructor.
Qed.

Lemma firstPass_leveled data : forall s,
  leveled s -> leveled (fold_left firstPass data s).
Proof.
  induction data as [| it data IH]; intros s H; simpl; [exact H |].
  apply IH. unfold firstPass.
  destruct (renderItem it); [now apply pushByLevel_leveled | exact H].
Qed.

Lemma secondPass_leveled processed codes : forall s,
  leveled s -> leveled (fold_left (secondPass processed) codes s).
Proof.
  induction codes as [| c codes IH]; intros s H; simpl; [exact H |].
  apply IH. unfold secondPass.
  destruct (negb (hasNum processed c)); [now apply pushByLevel_leveled | exact H].
Qed.

(** X24. Every row is printed in the section of the level getWCAGLevel
    gives its number: the Level A section holds only numbers of the
    Level A table, the Level AAA section only numbers of the Level AAA
    table, and the Level AA section the numbers of the Level AA table
    together with every number that is in none of the three tables. *)
Theorem sections_hold_their_level :
  forall (consolidatedData : list item) (c : criterion),
    (In c (levelACriteria (generateOpenACR consolidatedData)) ->
     includesOpt levelAList (num c) = true) /\
    (In c (levelAAACriteria (generateOpenACR consolidatedData)) ->
     includesOpt levelAAAList (num c) = true) /\
    (In c (levelAACriteria (generateOpenACR consolidatedData)) ->
     includesOpt levelAList (num c) = false /\
     (includesOpt levelAAList (num c) = true \/
      includesOpt levelAAAList (num c) = false)).
Proof.
  intros data c.
  assert (L : leveled (generateOpenACR data)).
  { unfold generateOpenACR. apply secondPass_leveled, firstPass_leveled.
    repeat split; constructor. }
  destruct L as (HA & HAA & HAAA). rewrite Forall_forall in HA, HAA, HAAA.
  repeat split.
  - intros H. specialize (HA c H). unfold getWCAGLevel in HA.
    destruct (includesOpt levelAList (num c)); [reflexivity |].
    destruct (includesOpt levelAAList (num c)); [discriminate |].
    destruct (includesOpt levelAAAList (num c)); discriminate.
  - intros H. specialize (HAAA c H). unfold getWCAGLevel in HAAA.
    destruct (includesOpt levelAList (num c)); [discriminate |].
    destruct (includesOpt levelAAList (num c)); [discriminate |].
    destruct (includesOpt levelAAAList (num c)); [reflexivity | discriminate].
  - specialize (HAA c H). unfold getWCAGLevel in HAA.
    destruct (includesOpt levelAList (num c)); [discriminate | reflexivity].
  - specialize (HAA c H). unfold getWCAGLevel in HAA.
    destruct (includesOpt levelAList (num c)); [discriminate |].
    destruct (includesOpt levelAAList (num c)); [now left |].
    destruct (includesOpt levelAAAList (num c)); [discriminate | now right].
Qed.

(** ** The number of rows *)

Lemma filter_all {T} (l : list T) : filter (fun _ => true) l = l.
Proof. induction l as [| x l IH]; simpl; [reflexivity | now rewrite IH]. Qed.

Lemma fItem_all it :
  fItem (fun _ => true) it
  = negb (includesOpt wcag22Criteria (convertWCAGFormat (WCAG_SC it))).
Proof.
  unfold fItem, renderItem.
  destruct (includesOpt wcag22Criteria (convertWCAGFormat (WCAG_SC it)));
    [reflexivity |].
  destruct (isNotApplicable _); [reflexivity |].
  destruct (isString _ _); [destruct (getPositiveStatement _) |]; reflexivity.
Qed.

(** X25. The output has one row for each upstream row whose number is not
    an excluded WCAG 2.2 number, plus one row for each forced number that
    no upstream row carries; nothing else adds or removes a row. *)
Theorem row_count_is_conserved :
  forall consolidatedData : list item,
    List.length (rows (generateOpenACR consolidatedData))
    = List.length
        (filter (fun it =>
                   negb (includesOpt wcag22Criteria
                           (convertWCAGFormat (WCAG_SC it))))
           consolidatedData)
      + List.length
          (filter (fun code => Nat.eqb (upstreamCount code consolidatedData) 0)
             naList).
Proof.
  intros data.
  rewrite <- (filter_all (rows (generateOpenACR data))).
  unfold generateOpenACR.
  rewrite count_secondPass, count_firstPass.
  change (rows emptySections) with (@nil criterion).
  cbn [filter List.length Nat.add].
  rewrite (filter_ext _ _ fItem_all). f_equal. f_equal.
  apply filter_ext_in. intros code Hin. unfold fNa.
  rewrite (processed_forced code Hin data), andb_true_r.
  apply negb_involutive.
Qed.

(** ** The conversion of the criterion numbers *)

Definition dotted3 (a b c : ascii) : string :=
  String a (String "." (String b (String "." (String c EmptyString)))).

Definition dotted4 (a b c d : ascii) : string :=
  String a (String "." (String b (String "." (String c (String d EmptyString))))).

Ltac try_each_key :=
  unfold specialMappings; cbn [lookup];
  repeat match goal with
         | |- context [String.eqb ?k ?n] =>
           destruct (String.eqb_spec k n) as [E | _];
           [ try discriminate E; inversion E; subst; clear E | ]
         end.

Lemma special_three a b c :
  match lookup (String a (String b (String c EmptyString))) specialMappings with
  | Some v => v = dotted3 a b c
  | None => True
  end.
Proof. try_each_key; try reflexivity; exact I. Qed.

Lemma special_four a b c d :
  match lookup (String a (String b (String c (String d EmptyString))))
          specialMappings with
  | Some v => v = dotted4 a b c d /\ existsb (Ascii.eqb a) ["1"; "2"; "3"; "4"]%char = true
  | None => True
  end.
Proof. try_each_key; try (split; reflexivity); exact I. Qed.

(** No name of Object.prototype has fewer than seven characters. *)
Lemma objectPrototype_long s :
  includes objectPrototype s = true -> 7 <= String.length s.
Proof.
  intros H. apply includes_In in H. unfold objectPrototype in H. simpl in H.
  repeat (destruct H as [<- | H]; [simpl; lia |]). contradiction.
Qed.

Lemma short_not_inherited s :
  String.length s <= 4 -> includes objectPrototype s = false.
Proof.
  intros L. destruct (includes objectPrototype s) eqn:Q; [| reflexivity].
  apply objectPrototype_long in Q. lia.
Qed.

(** X26. For a number of three characters after the prefix wcag,
    convertWCAGFormat puts a dot after the first and after the second
    character; for one of four characters that starts with 1, 2, 3 or 4
    it puts the dots after the first and the second character too, and
    any other number of four characters comes back as it was.  So the
    table of special mappings never changes what the two patterns give. *)
Theorem special_mappings_change_nothing :
  (forall a b c : ascii,
     convertWCAGFormat (Some ("wcag" ++ String a (String b (String c EmptyString))))
     = VString (String a (String "." (String b (String "." (String c EmptyString)))))) /\
  (forall a b c d : ascii,
     convertWCAGFormat
       (Some ("wcag" ++ String a (String b (String c (String d EmptyString)))))
     = if existsb (Ascii.eqb a) ["1"; "2"; "3"; "4"]%char
       then VString (String a (String "." (String b (String "."
                       (String c (String d EmptyString))))))
       else VString ("wcag" ++ String a (String b (String c (String d EmptyString))))).
Proof.
  split.
  - intros a b c. unfold convertWCAGFormat, getProperty.
    change (slice 4 ("wcag" ++ String a (String b (String c EmptyString))))
      with (String a (String b (String c EmptyString))).
    change (startsWith ("wcag" ++ String a (String b (String c EmptyString))) "wcag")
      with true.
    cbn [truthy append negb orb].
    pose proof (special_three a b c) as H.
    destruct (lookup (String a (String b (String c EmptyString))) specialMappings)
      as [v |]; [subst v; reflexivity |].
    rewrite (short_not_inherited (String a (String b (String c EmptyString))))
      by (simpl; lia).
    reflexivity.
  - intros a b c d. unfold convertWCAGFormat, getProperty.
    change (slice 4 ("wcag" ++ String a (String b (String c (String d EmptyString)))))
      with (String a (String b (String c (String d EmptyString)))).
    change (startsWith
              ("wcag" ++ String a (String b (String c (String d EmptyString))))
              "wcag")
      with true.
    cbn [truthy append negb orb].
    pose proof (special_four a b c d) as H.
    destruct (lookup (String a (String b (String c (String d EmptyString))))
                specialMappings) as [v |].
    + destruct H as [-> ->]. reflexivity.
    + rewrite (short_not_inherited
                 (String a (String b (String c (String d EmptyString)))))
        by (simpl; lia).
      cbn [truthyValue truthy String.length Nat.eqb andb startsWith String.prefix
           existsb].
      repeat match goal with
             | |- context [ascii_dec ?x a] =>
               destruct (ascii_dec x a) as [<- | N];
               [reflexivity
               | apply not_eq_sym, Ascii.eqb_neq in N; rewrite N; clear N]
             end.
      reflexivity.
Qed.

End RendererSectionFacts.

(* ===================================================================== *)
(** * Properties of the Renderer's notes text *)
(* ===================================================================== *)

Module RendererYamlFacts.
Import JS JSFacts CsvRoundTrip RendererYaml.

Lemma hasChar_replaced c r : forall s,
  hasChar c r = false -> hasChar c (replaceChar c r s) = false.
Proof.
  induction s as [| x s IH]; intros Hr; simpl; [reflexivity |].
  destruct (Ascii.eqb x c) eqn:E.
  - now rewrite hasChar_append, Hr, IH.
  - simpl. now rewrite E, IH.
Qed.

Lemma cleanedOf_one_line s :
  hasChar lineFeed (cleanedOf s) = false /\
  hasChar carriageReturn (cleanedOf s) = false.
Proof.
  unfold cleanedOf. split.
  - rewrite hasChar_replaceChar by reflexivity.
    now apply hasChar_replaced.
  - now apply hasChar_replaced.
Qed.

(** X27. The text escapeYAML returns never contains a line feed or a
    carriage return, whatever the input: both were replaced before the
    test that decides on the quotes, so the two clauses of that test that
    look for them never hold. *)
Theorem escaped_text_is_one_line :
  forall str : string,
    hasChar lineFeed (escapeYAML str) = false /\
    hasChar carriageReturn (escapeYAML str) = false /\
    hasChar lineFeed (cleanedOf str) || hasChar carriageReturn (cleanedOf str)
    = false.
Proof.
  intros str. destruct (cleanedOf_one_line str) as [L R].
  unfold escapeYAML. rewrite L, R.
  destruct (negb (truthy str)); [repeat split |].
  destruct (_ || _).
  - cbn [hasChar]. rewrite !hasChar_append, L, R. repeat split.
  - now repeat split.
Qed.

(** ** The block form *)

Section Block.

Variable indent : string.

Let continuation : string := String lineFeed (indent ++ "  ").

Lemma lines_indented : forall s current,
  String.concat EmptyString
    (map (fun line => String lineFeed (indent ++ "  " ++ line))
       (splitFrom lineFeed s current))
  = String lineFeed
      (indent ++ "  " ++ current ++ replaceChar lineFeed continuation s).
Proof.
  induction s as [| c s IH]; intros current.
  - simpl. now rewrite !append_empty_r.
  - cbn [splitFrom replaceChar]. destruct (Ascii.eqb c lineFeed).
    + cbn [map]. rewrite concat_empty_cons, IH.
      unfold continuation. cbn [append].
      rewrite !append_assoc. cbn [append]. reflexivity.
    + rewrite IH, append_assoc. reflexivity.
Qed.

End Block.

(** X28. For a text of more than 80 characters or with a line feed,
    formatYAMLMultiline returns the block indicator followed by the lines
    of the text, each one on a line of its own that starts with the
    indent and two more spaces; the lines themselves are written as they
    are, without any escaping. *)
Theorem block_lines_are_indented :
  forall text indent : string,
    truthy text = true ->
    Nat.ltb 80 (String.length text) || hasChar lineFeed text = true ->
    formatYAMLMultiline text indent
    = ">-" ++ String.concat EmptyString
                (map (fun line => String lineFeed (indent ++ "  " ++ line))
                   (split lineFeed text)).
Proof.
  intros text indent Ht Hb. unfold formatYAMLMultiline, split.
  rewrite Ht, Hb, lines_indented. reflexivity.
Qed.

Lemma block_lines_are_indented_witness :
  formatYAMLMultiline ("Affects people without vision." ++ String lineFeed "See #3001.")
    "    "
  = ">-" ++ String.concat EmptyString
              (map (fun line => String lineFeed ("    " ++ "  " ++ line))
                 (split lineFeed
                    ("Affects people without vision." ++ String lineFeed "See #3001."))).
Proof.
  apply (block_lines_are_indented
           ("Affects people without vision." ++ String lineFeed "See #3001.") "    ");
    reflexivity.
Defined.

End RendererYamlFacts.

(* ===================================================================== *)
(** * The Collector's table of criteria against the Renderer's levels *)
(* ===================================================================== *)

Module TableFacts.
Import JS JSFacts.

(** The number the Renderer makes of a code of the Collector's table. *)
Definition rendered (e : CollectorRun.Table.entry) : Renderer.value :=
  Renderer.convertWCAGFormat (Some (CollectorRun.Table.code e)).

(** The Collector's spelling of the level the Renderer computes. *)
Definition levelText (l : Renderer.wcagLevel) : string :=
  match l with
  | Renderer.A => "Level A"
  | Renderer.AA => "Level AA"
  | Renderer.AAA => "Level AAA"
  end.

(** A criterion the Renderer keeps and files under another level than
    the Collector's table gives it. *)
Definition disagree (e : CollectorRun.Table.entry) : bool :=
  negb (Renderer.includesOpt Renderer.wcag22Criteria (rendered e))
  && negb (String.eqb (levelText (Renderer.getWCAGLevel (rendered e)))
             (CollectorRun.Table.level e)).

Definition rendererNumbers : list string :=
  (Renderer.levelAList ++ Renderer.levelAAList ++ Renderer.levelAAAList)%list.

(** No string occurs twice. *)
Fixpoint distinct (l : list string) : bool :=
  match l with
  | [] => true
  | x :: rest => negb (includes rest x) && distinct rest
  end.

Lemma distinct_NoDup l : distinct l = true -> NoDup l.
Proof.
  induction l as [| x l IH]; intros H; [constructor |].
  simpl in H. apply andb_prop in H. destruct H as [Hx Hl].
  constructor; [| now apply IH].
  intros Hin. apply includes_In in Hin. now rewrite Hin in Hx.
Qed.

Lemma every_number_collected :
  forallb (fun n => existsb (fun e => Renderer.isNum n (rendered e))
                      CollectorRun.Table.wcagCriteria)
    rendererNumbers = true.
Proof. vm_compute. reflexivity. Qed.

(** X30. The codes of the Collector's table are pairwise distinct, and
    every number of the Renderer's three level tables is the conversion
    of one of them.  Of the criteria the Renderer does not exclude, all
    are filed by getWCAGLevel under the level the Collector's table gives
    them except six: wcag214, wcag251, wcag252, wcag253 and wcag254,
    Level AA in the table, and wcag231, Level AAA in the table, which the
    Renderer files under Level A. *)
Theorem levels_of_the_two_tables :
  NoDup (map CollectorRun.Table.code CollectorRun.Table.wcagCriteria) /\
  (forall n, In n rendererNumbers ->
     exists e, In e CollectorRun.Table.wcagCriteria /\
               rendered e = Renderer.VString n) /\
  map CollectorRun.Table.code (filter disagree CollectorRun.Table.wcagCriteria)
  = [ "wcag214"; "wcag251"; "wcag252"; "wcag253"; "wcag254"; "wcag231" ] /\
  forall e, In e CollectorRun.Table.wcagCriteria -> disagree e = true ->
            Renderer.getWCAGLevel (rendered e) = Renderer.A.
Proof.
  split; [| split; [| split]].
  - apply distinct_NoDup. vm_compute. reflexivity.
  - intros n Hn. pose proof every_number_collected as H.
    rewrite forallb_forall in H. specialize (H n Hn).
    apply existsb_exists in H. destruct H as (e & He & Hnum).
    exists e. split; [exact He |]. now apply RendererFacts.isNum_eq.
  - vm_compute. reflexivity.
  - intros e He Hd.
    assert (F : forallb (fun e => negb (disagree e)
                                  || match Renderer.getWCAGLevel (rendered e) with
                                     | Renderer.A => true
                                     | _ => false
                                     end)
                  CollectorRun.Table.wcagCriteria = true)
      by (vm_compute; reflexivity).
    rewrite forallb_forall in F. specialize (F e He). rewrite Hd in F.
    cbn [negb orb] in F.
    destruct (Renderer.getWCAGLevel (rendered e)); [reflexivity | |]; discriminate.
Qed.

End TableFacts.
